(** * Fluence JS client: the particle execution engine

    A shallow embedding of the TypeScript sources of the client peer
    (the [FluencePeer] class with its particle pipeline, the relay
    connection and [callAquaFunction]) together with the properties the
    specification states about them.

    Conventions of the embedding:
    - JavaScript code that mutates [this] and may throw is written in a
      state-and-exception monad [Eff W], where [W] is the object state;
      state changes made before a [throw] persist, as in JavaScript;
    - [async] functions are run to completion at the point of the call:
      promise interleavings are not modelled, every statement about a
      pipeline stage is about that stage's own body;
    - the injected collaborators ([IMarineHost], [IJsServiceHost],
      [IConnection]) are type classes of operations over an abstract state;
    - every call that leaves the engine is appended to an effect trace, so
      that order, multiplicity and absence of calls can be stated. *)

From Stdlib Require Import ZArith String DecimalString.
From Stdlib.Strings Require Import Byte.
From stdpp Require Import base option list strings gmap.

Open Scope Z_scope.

(** ** Values shared by all components *)

Definition PeerIdB58 := string.

(** [Uint8Array] / [Buffer] *)
Definition bytes := list byte.

(** [JSONValue] of [@fluencelabs/interfaces] *)
#[warnings="-register-all"]
Inductive JSONValue : Type :=
| JNull
| JBool (b : bool)
| JNumber (n : Z)
| JString (s : string)
| JArray (items : list JSONValue)
| JObject (fields : list (string * JSONValue)).

(** The classes of [Error] the sources construct or test with [instanceof]. *)
Inductive ErrorClass : Type :=
| PlainError
| ServiceError
| InterpreterError
| ExpirationError
| SendError.

(** An instance of [Error]: its class and its [message]. *)
Record ErrorValue : Type := mkError {
  errorClass : ErrorClass;
  message : string
}.

(** A value given to [throw] (or a rejection reason): an instance of
    [Error], or any other value. *)
Inductive Thrown : Type :=
| ThrownError (e : ErrorValue)
| ThrownValue (v : JSONValue).

(** [new Error(msg)] *)
Definition newError (msg : string) : Thrown :=
  ThrownError (mkError PlainError msg).

(** [e instanceof ServiceError] *)
Definition instanceofServiceError (e : Thrown) : bool :=
  match e with
  | ThrownError (mkError ServiceError _) => true
  | _ => false
  end.

(** Template-literal rendering of an integral JS number. *)
Definition numberToString (n : Z) : string :=
  NilZero.string_of_int (Z.to_int n).

(** ** The state-and-exception monad *)

Inductive outcome (A : Type) : Type :=
| Returned (a : A)
| Threw (e : Thrown).
Arguments Returned {A} a.
Arguments Threw {A} e.

Definition Eff (W A : Type) : Type := W -> outcome A * W.

Definition ret {W A} (a : A) : Eff W A := fun w => (Returned a, w).

Definition throw {W A} (e : Thrown) : Eff W A := fun w => (Threw e, w).

Definition bind {W A B} (c : Eff W A) (k : A -> Eff W B) : Eff W B :=
  fun w =>
    match c w with
    | (Returned a, w') => k a w'
    | (Threw e, w') => (Threw e, w')
    end.

(** [try { c } catch (e) { h e }] *)
Definition tryCatch {W A} (c : Eff W A) (h : Thrown -> Eff W A) : Eff W A :=
  fun w =>
    match c w with
    | (Returned a, w') => (Returned a, w')
    | (Threw e, w') => h e w'
    end.

Definition gets {W A} (f : W -> A) : Eff W A := fun w => (Returned (f w), w).

Definition modify {W} (f : W -> W) : Eff W unit := fun w => (Returned tt, f w).

(** Lift a pure [outcome] (a call that has no state of its own). *)
Definition liftOutcome {W A} (o : outcome A) : Eff W A := fun w => (o, w).

Declare Scope eff_scope.
Delimit Scope eff_scope with eff.
Notation "x <- c ;; k" := (bind c (fun x => k))
  (at level 100, c at next level, right associativity) : eff_scope.
Notation "c ;; k" := (bind c (fun _ => k))
  (at level 100, right associativity) : eff_scope.
Open Scope eff_scope.

(** [for (const x of xs) { body x }] *)
Fixpoint forEach {W A} (xs : list A) (body : A -> Eff W unit) : Eff W unit :=
  match xs with
  | [] => ret tt
  | x :: rest => body x ;; forEach rest body
  end.

(** ** RelayConnection (the libp2p relay transport) *)

Module RelayConnection.

Definition PROTOCOL_NAME : string := "/fluence/particle/2.0.0".

(** A stream as returned by [dialProtocol], named by a number. *)
Definition Stream := nat.

(** What the connection does to the libp2p peer. [RcPipe s chunks] is
    [pipe(chunks, encode(), s.sink)]: the chunks handed to the
    length-prefixing encoder whose output goes to the sink of [s]. *)
Inductive RcEffect : Type :=
| RcDialProtocol (addr : string) (protocol : string)
| RcPipe (s : Stream) (chunks : list bytes).

(** The [Libp2p] node, an external library object: only [dialProtocol]
    is used by [sendParticle]. *)
Class Libp2p (L : Type) := {
  dialProtocol : string -> string -> Eff L Stream
}.

Section Connection.
Context {L : Type} `{Libp2p L}.

Record RelayConnection : Type := mkRelayConnection {
  peerId : PeerIdB58;
  _lib2p2Peer : L;
  _relayAddress : string;
  relayPeerId : PeerIdB58;
  rcTrace : list RcEffect
}.

Definition rcLog (e : RcEffect) : Eff RelayConnection unit :=
  modify (fun c => mkRelayConnection (peerId c) (_lib2p2Peer c)
                     (_relayAddress c) (relayPeerId c) (rcTrace c ++ [e])).

(** [this._lib2p2Peer.dialProtocol(addr, proto)] *)
Definition rcDialProtocol (addr proto : string) : Eff RelayConnection Stream :=
  rcLog (RcDialProtocol addr proto) ;;
  fun c =>
    let '(o, l') := dialProtocol addr proto (_lib2p2Peer c) in
    (o, mkRelayConnection (peerId c) l' (_relayAddress c) (relayPeerId c)
          (rcTrace c)).

(** The condition of the [if] that guards [sendParticle]:
    [nextPeerIds.length !== 1 && nextPeerIds[0] !== this.relayPeerId].
    Indexing an empty array gives [undefined], which is [!==] to any
    string: [nextPeerIds !! 0] is [None] there. *)
Definition sendParticle_rejects (relay : PeerIdB58)
    (nextPeerIds : list PeerIdB58) : bool :=
  negb (Nat.eqb (length nextPeerIds) 1)
  && bool_decide (nextPeerIds !! 0%nat ≠ Some relay).

Definition sendParticle_message (nextPeerIds : list PeerIdB58)
    (stringify : list PeerIdB58 -> string) : string :=
  "Relay connection only accepts peer id of the connected relay. Got: "
  +:+ stringify nextPeerIds +:+ " instead.".

(** [async sendParticle(nextPeerIds, particle)]; [stringify] is
    [JSON.stringify] on an array of strings. *)
Definition sendParticle (stringify : list PeerIdB58 -> string)
    (nextPeerIds : list PeerIdB58) (particle : string)
    : Eff RelayConnection unit :=
  relay <- gets relayPeerId ;;
  if sendParticle_rejects relay nextPeerIds
  then throw (newError (sendParticle_message nextPeerIds stringify))
  else
    addr <- gets _relayAddress ;;
    stream <- rcDialProtocol addr PROTOCOL_NAME ;;
    rcLog (RcPipe stream [list_byte_of_string particle]).

(** The relay policy in the words of the specification: the send is
    permitted only for [nextPeerIds == [relayPeerId]]. *)
Definition permitted_by_policy (relay : PeerIdB58)
    (nextPeerIds : list PeerIdB58) : bool :=
  bool_decide (nextPeerIds = [relay]).

End Connection.
Arguments RelayConnection L : clear implicits.

(** A libp2p node whose dial always succeeds with stream [0]. *)
#[global] Instance dialingLibp2p : Libp2p unit := {
  dialProtocol := fun _ _ => ret 0%nat
}.

Definition demoConnection : RelayConnection unit :=
  mkRelayConnection "12D3KooWClient" tt "/dns4/relay/tcp/9000/wss"
    "12D3KooWRelay" [].

Definition demoStringify (l : list PeerIdB58) : string :=
  "[" +:+ String.concat "," l +:+ "]".

End RelayConnection.

(** ** Particles and queue items *)

Module Particle.

(** [IParticle] *)
Record IParticle : Type := mkParticle {
  id : string;
  initPeerId : PeerIdB58;
  timestamp : Z;
  ttl : Z;
  script : string;
  data : bytes;
  signature : bytes
}.

(** Modelled from the spec: [cloneWithNewData] of [particle/Particle.js],
    which is not among the sources: a new particle identical to [p]
    except that [data] is the given bytes. *)
Definition cloneWithNewData (p : IParticle) (newData : bytes) : IParticle :=
  mkParticle (id p) (initPeerId p) (timestamp p) (ttl p) (script p)
    newData (signature p).

(** Modelled from the spec: [hasExpired] of [particle/Particle.js], which
    is not among the sources: [now > p.timestamp + p.ttl]. *)
Definition hasExpiredAt (now : Z) (p : IParticle) : bool :=
  timestamp p + ttl p <? now.

(** Modelled from the spec: [getActualTTL] of [particle/Particle.js],
    which is not among the sources: the remaining milliseconds. *)
Definition getActualTTLAt (now : Z) (p : IParticle) : Z :=
  timestamp p + ttl p - now.

End Particle.

(** [ResultCodes] of [jsServiceHost/interfaces.js] *)
Inductive ResultCodes : Type := success | error.

(** [CallServiceResult]: what a service handler returns. *)
Record CallServiceResult : Type := mkCallServiceResult {
  csrRetCode : ResultCodes;
  csrResult : JSONValue
}.

(** An entry of the AVM's [CallResultsArray]: the result is carried as a
    string (the output of [jsonify]). *)
Record CallResult : Type := mkCallResult {
  crResult : string;
  crRetCode : ResultCodes
}.

Definition CallResultsArray := list (Z * CallResult).

(** [SecurityTetraplet] of [@fluencelabs/avm] *)
Record SecurityTetraplet : Type := mkTetraplet {
  peer_pk : string;
  service_id : string;
  function_name : string;
  json_path : string
}.

(** [CallRequest] of [@fluencelabs/avm] *)
Record CallRequest : Type := mkCallRequest {
  crServiceId : string;
  functionName : string;
  arguments : list JSONValue;
  crTetraplets : list (list SecurityTetraplet)
}.

(** [InterpreterResult] of [@fluencelabs/avm] *)
Record InterpreterResult : Type := mkInterpreterResult {
  retCode : Z;
  errorMessage : string;
  irData : bytes;
  nextPeerPks : list PeerIdB58;
  callRequests : list (Z * CallRequest)
}.

(** The value of [avmCallResult], of type [InterpreterResult | Error]. *)
Inductive AvmCallResult : Type :=
| AvmResult (r : InterpreterResult)
| AvmError (e : ErrorValue).

(** [ParticleContext] and [CallServiceData] *)
Record ParticleContext : Type := mkParticleContext {
  pcParticleId : string;
  pcInitPeerId : PeerIdB58;
  pcTimestamp : Z;
  pcTtl : Z;
  pcSignature : bytes;
  pcTetraplets : list (list SecurityTetraplet)
}.

Record CallServiceData : Type := mkCallServiceData {
  fnName : string;
  args : list JSONValue;
  serviceId : string;
  tetraplets : list (list SecurityTetraplet);
  particleContext : ParticleContext
}.

(** Modelled from the spec: [getParticleContext] of
    [jsServiceHost/serviceUtils.js], which is not among the sources: the
    particle's identity fields and signature with the call's tetraplets. *)
Definition getParticleContext (p : Particle.IParticle)
    (t : list (list SecurityTetraplet)) : ParticleContext :=
  mkParticleContext (Particle.id p) (Particle.initPeerId p)
    (Particle.timestamp p) (Particle.ttl p) (Particle.signature p) t.

(** Completion callbacks are closures in the source. They are named here
    by what they close over: nothing (the no-op callbacks given to
    particles from the network), the [resolve] or [reject] of a promise,
    or a function of the caller. *)
Inductive SuccessCallback : Type :=
| NoopSuccess
| PromiseResolve (promise : nat)
| CallerSuccess (name : nat).

Inductive ErrorCallback : Type :=
| NoopError
| PromiseReject (promise : nat)
| CallerError (name : nat).

(** [ParticleQueueItem] *)
Record ParticleQueueItem : Type := mkQueueItem {
  particle : Particle.IParticle;
  callResults : CallResultsArray;
  onSuccess : SuccessCallback;
  onError : ErrorCallback
}.

(** [ParticleQueueItem & { result: Error | InterpreterResult }]: an item
    after the interpretation stage. *)
Record InterpretedItem : Type := mkInterpretedItem {
  queueItem : ParticleQueueItem;
  result : AvmCallResult
}.

(** ** Service handlers *)

(** A function passed by the caller as an argument of an Aqua function. *)
Definition ArgCallbackFunction : Type :=
  list JSONValue -> ParticleContext -> outcome JSONValue.

(** Service handlers are closures in the source; the ones the sources
    build are named by their constructor and what they close over. *)
Inductive Handler : Type :=
| UserHandler (f : ArgCallbackFunction)
| InjectValue (v : JSONValue)
| ResponseHandler (resolve : SuccessCallback)
| ErrorHandlingHandler (reject : ErrorCallback)
| InjectRelay
| OtherHandler (f : CallServiceData -> outcome CallServiceResult).

(** [ServiceDescription] *)
Record ServiceDescription : Type := mkServiceDescription {
  sdServiceId : string;
  sdFnName : string;
  sdHandler : Handler
}.

(** ** The injected collaborators *)

(** The run parameters and buffers given to [serializeAvmArgs]. *)
Record AvmInvokeArgs : Type := mkAvmInvokeArgs {
  avmInitPeerId : PeerIdB58;
  avmCurrentPeerId : PeerIdB58;
  avmTimestamp : Z;
  avmTtl : Z;
  avmParticleId : string;
  avmSecretKeyBytes : bytes;
  avmScript : string;
  avmPrevData : bytes;
  avmData : bytes;
  avmCallResults : CallResultsArray
}.

(** The argument of [marineHost.callService]: a JSON array, or the output
    of [serializeAvmArgs] of [@fluencelabs/avm], kept as the values it was
    built from (the key format is always [Ed25519]). *)
Inductive MarineArgs : Type :=
| JsonArgs (a : list JSONValue)
| serializeAvmArgs (a : AvmInvokeArgs).

(** [IMarineHost] *)
Class IMarineHost (MS : Type) := {
  marine_start : Eff MS unit;
  marine_stop : Eff MS unit;
  marine_createService : bytes -> string -> Eff MS unit;
  marine_removeService : string -> Eff MS unit;
  marine_hasService : string -> Eff MS bool;
  marine_callService : string -> string -> MarineArgs -> Eff MS JSONValue
}.

(** [IJsServiceHost] *)
Class IJsServiceHost (JS : Type) := {
  js_registerGlobalHandler : string -> string -> Handler -> Eff JS unit;
  js_registerParticleScopeHandler :
    string -> string -> string -> Handler -> Eff JS unit;
  js_removeParticleScopeHandlers : string -> Eff JS unit;
  js_hasService : string -> Eff JS bool;
  js_callService : CallServiceData -> Eff JS (option CallServiceResult)
}.

(** [IConnection]; [conn_subscribe] is [particleSource.subscribe]. *)
Class IConnection (CS : Type) := {
  conn_start : Eff CS unit;
  conn_stop : Eff CS unit;
  conn_supportsRelay : Eff CS bool;
  conn_getRelayPeerId : Eff CS PeerIdB58;
  conn_sendParticle : list PeerIdB58 -> Particle.IParticle -> Eff CS unit;
  conn_subscribe : Eff CS unit
}.

(** [KeyPair]: what [getPeerId()] and [toEd25519PrivateKey()] return. *)
Record KeyPair : Type := mkKeyPair {
  getPeerId : PeerIdB58;
  toEd25519PrivateKey : bytes
}.

(** Functions of other packages and of [util/utils.js] that the engine
    calls and that are not among the sources. *)
Class Externals := {
  (** [jsonify] of [util/utils.js] *)
  jsonify : JSONValue -> string;
  (** [getErrorMessage] of [util/utils.js] *)
  getErrorMessage : Thrown -> string;
  (** [String(v)] on a thrown value that is not an [Error] *)
  js_String : JSONValue -> string;
  (** [JSON.parse] and [JSON.stringify] *)
  JSON_parse : string -> outcome JSONValue;
  JSON_stringify : JSONValue -> string;
  (** [deserializeAvmResult] of [@fluencelabs/avm] *)
  deserializeAvmResult : JSONValue -> outcome InterpreterResult;
  (** [Particle.createNew(script, initPeerId, ttl, keyPair)], given the
      time of the call *)
  Particle_createNew :
    string -> PeerIdB58 -> Z -> KeyPair -> Z -> outcome Particle.IParticle
}.

(** ** The peer *)

(** [PeerConfig] *)
Record PeerConfig : Type := mkPeerConfig {
  defaultTtlMs : Z;
  debug_printParticleId : bool
}.

Definition DEFAULT_CONFIG : PeerConfig := mkPeerConfig 7000 false.

(** The calls that leave the engine, and the writes of [isInitialized],
    which code running between two steps of an [async] function can see.
    Calls to the [logger] are left out. *)
Inductive Effect : Type :=
| MarineStart
| MarineStop
| MarineCreateService (wasm : bytes) (sid : string)
| MarineRemoveService (sid : string)
| MarineHasService (sid : string)
| MarineCallService (sid fn : string) (a : MarineArgs)
| JsRegisterParticleScopeHandler (particleId sid fn : string) (h : Handler)
| JsRemoveParticleScopeHandlers (particleId : string)
| JsHasService (sid : string)
| JsCallService (req : CallServiceData)
| ConnectionSubscribe
| ConnectionStart
| ConnectionStop
| ConnectionSupportsRelay
| ConnectionGetRelayPeerId
| ConnectionSendParticle (nextPeerIds : list PeerIdB58)
    (p : Particle.IParticle)
| AssignIsInitialized (b : bool)
| IncomingNext (item : ParticleQueueItem)
| CallOnSuccess (cb : SuccessCallback) (v : JSONValue)
| CallOnError (cb : ErrorCallback) (e : ErrorValue)
| RejectPromise (promise : nat) (reason : Thrown)
| SetTimeout (item : ParticleQueueItem) (delay : Z)
| ConsoleLog (label : string) (value : string).

Section Peer.
Context {MS JS CS : Type}.

(** The fields of [FluencePeer]. [_incomingParticles] holds the items
    given to [Subject.next], oldest first; [dateNow n] is what the
    [n]-th call of [Date.now()] returns and [clockReads] counts the
    calls made; [trace] is the effect trace. *)
Record FluencePeer : Type := mkFluencePeer {
  config : PeerConfig;
  keyPair : KeyPair;
  marineHost : MS;
  jsServiceHost : JS;
  connection : CS;
  _incomingParticles : list ParticleQueueItem;
  _timeouts : list (ParticleQueueItem * Z);
  _particleSourceSubscription : bool;
  isInitialized : bool;
  printParticleId : bool;
  promisesCreated : nat;
  dateNow : nat -> Z;
  clockReads : nat;
  trace : list Effect
}.

Definition set_marineHost (x : MS) (p : FluencePeer) : FluencePeer :=
  mkFluencePeer (config p) (keyPair p) x (jsServiceHost p) (connection p)
    (_incomingParticles p) (_timeouts p) (_particleSourceSubscription p)
    (isInitialized p) (printParticleId p) (promisesCreated p) (dateNow p)
    (clockReads p) (trace p).

Definition set_jsServiceHost (x : JS) (p : FluencePeer) : FluencePeer :=
  mkFluencePeer (config p) (keyPair p) (marineHost p) x (connection p)
    (_incomingParticles p) (_timeouts p) (_particleSourceSubscription p)
    (isInitialized p) (printParticleId p) (promisesCreated p) (dateNow p)
    (clockReads p) (trace p).

Definition set_connection (x : CS) (p : FluencePeer) : FluencePeer :=
  mkFluencePeer (config p) (keyPair p) (marineHost p) (jsServiceHost p) x
    (_incomingParticles p) (_timeouts p) (_particleSourceSubscription p)
    (isInitialized p) (printParticleId p) (promisesCreated p) (dateNow p)
    (clockReads p) (trace p).

Definition set_incomingParticles (x : list ParticleQueueItem)
    (p : FluencePeer) : FluencePeer :=
  mkFluencePeer (config p) (keyPair p) (marineHost p) (jsServiceHost p)
    (connection p) x (_timeouts p) (_particleSourceSubscription p)
    (isInitialized p) (printParticleId p) (promisesCreated p) (dateNow p)
    (clockReads p) (trace p).

Definition set_timeouts (x : list (ParticleQueueItem * Z))
    (p : FluencePeer) : FluencePeer :=
  mkFluencePeer (config p) (keyPair p) (marineHost p) (jsServiceHost p)
    (connection p) (_incomingParticles p) x (_particleSourceSubscription p)
    (isInitialized p) (printParticleId p) (promisesCreated p) (dateNow p)
    (clockReads p) (trace p).

Definition set_particleSourceSubscription (x : bool)
    (p : FluencePeer) : FluencePeer :=
  mkFluencePeer (config p) (keyPair p) (marineHost p) (jsServiceHost p)
    (connection p) (_incomingParticles p) (_timeouts p) x
    (isInitialized p) (printParticleId p) (promisesCreated p) (dateNow p)
    (clockReads p) (trace p).

Definition set_isInitialized (x : bool) (p : FluencePeer) : FluencePeer :=
  mkFluencePeer (config p) (keyPair p) (marineHost p) (jsServiceHost p)
    (connection p) (_incomingParticles p) (_timeouts p)
    (_particleSourceSubscription p) x (printParticleId p)
    (promisesCreated p) (dateNow p) (clockReads p) (trace p).

Definition set_printParticleId (x : bool) (p : FluencePeer) : FluencePeer :=
  mkFluencePeer (config p) (keyPair p) (marineHost p) (jsServiceHost p)
    (connection p) (_incomingParticles p) (_timeouts p)
    (_particleSourceSubscription p) (isInitialized p) x
    (promisesCreated p) (dateNow p) (clockReads p) (trace p).

Definition set_promisesCreated (x : nat) (p : FluencePeer) : FluencePeer :=
  mkFluencePeer (config p) (keyPair p) (marineHost p) (jsServiceHost p)
    (connection p) (_incomingParticles p) (_timeouts p)
    (_particleSourceSubscription p) (isInitialized p) (printParticleId p)
    x (dateNow p) (clockReads p) (trace p).

Definition set_clockReads (x : nat) (p : FluencePeer) : FluencePeer :=
  mkFluencePeer (config p) (keyPair p) (marineHost p) (jsServiceHost p)
    (connection p) (_incomingParticles p) (_timeouts p)
    (_particleSourceSubscription p) (isInitialized p) (printParticleId p)
    (promisesCreated p) (dateNow p) x (trace p).

Definition set_trace (x : list Effect) (p : FluencePeer) : FluencePeer :=
  mkFluencePeer (config p) (keyPair p) (marineHost p) (jsServiceHost p)
    (connection p) (_incomingParticles p) (_timeouts p)
    (_particleSourceSubscription p) (isInitialized p) (printParticleId p)
    (promisesCreated p) (dateNow p) (clockReads p) x.

(** *** Primitive steps *)

Definition emit (e : Effect) : Eff FluencePeer unit :=
  modify (fun p => set_trace (trace p ++ [e]) p).

(** A call of a method of [this.marineHost], recorded as [e]. *)
Definition callMarine {A} (e : Effect) (op : Eff MS A)
    : Eff FluencePeer A :=
  emit e ;;
  fun p => let '(o, m) := op (marineHost p) in (o, set_marineHost m p).

(** A call of a method of [this.jsServiceHost], recorded as [e]. *)
Definition callJsHost {A} (e : Effect) (op : Eff JS A)
    : Eff FluencePeer A :=
  emit e ;;
  fun p => let '(o, j) := op (jsServiceHost p) in (o, set_jsServiceHost j p).

(** A call of a method of [this.connection], recorded as [e]. *)
Definition callConnection {A} (e : Effect) (op : Eff CS A)
    : Eff FluencePeer A :=
  emit e ;;
  fun p => let '(o, c) := op (connection p) in (o, set_connection c p).

(** [this.isInitialized = b] *)
Definition assignIsInitialized (b : bool) : Eff FluencePeer unit :=
  emit (AssignIsInitialized b) ;; modify (set_isInitialized b).

(** [this._incomingParticles.next(item)]: the item is recorded as given
    to the subject. What the pipeline subscribed to the subject then does
    with it, part of which happens before [next] returns, is
    [processItem], which is run apart. *)
Definition incomingNext (item : ParticleQueueItem) : Eff FluencePeer unit :=
  emit (IncomingNext item) ;;
  modify (fun p => set_incomingParticles (_incomingParticles p ++ [item]) p).

(** [cb(e)] for an [onError] callback *)
Definition callOnError (cb : ErrorCallback) (e : ErrorValue)
    : Eff FluencePeer unit :=
  emit (CallOnError cb e).

(** [Date.now()] *)
Definition Date_now : Eff FluencePeer Z :=
  fun p => (Returned (dateNow p (clockReads p)),
            set_clockReads (S (clockReads p)) p).

(** [hasExpired(p)] and [getActualTTL(p)] read the clock. *)
Definition hasExpired (p : Particle.IParticle) : Eff FluencePeer bool :=
  now <- Date_now ;; ret (Particle.hasExpiredAt now p).

Definition getActualTTL (p : Particle.IParticle) : Eff FluencePeer Z :=
  now <- Date_now ;; ret (Particle.getActualTTLAt now p).

End Peer.
Arguments FluencePeer : clear implicits.

(** ** The engine: methods of [FluencePeer] *)

(** The double-quote character of the template literals. *)
Definition dquote : string := String (Ascii.ascii_of_nat 34) EmptyString.

(** The per-group variables of the closure given to [mergeMap]. *)
Record GroupState : Type := mkGroupState {
  prevData : bytes;
  firstRun : bool
}.

(** [let prevData = Buffer.from([]); let firstRun = true;] *)
Definition newGroup : GroupState := mkGroupState [] true.

(** The object [parseAst] resolves to. *)
Record ParseAstResult : Type := mkParseAstResult {
  parseSuccess : bool;
  parseData : JSONValue
}.

Section Engine.
Context {MS JS CS : Type}.
Context `{!IMarineHost MS} `{!IJsServiceHost JS} `{!IConnection CS}.
Context `{!Externals}.

Local Abbreviation Peer := (FluencePeer MS JS CS).

(** [_startParticleProcessing()]: the subscription to
    [connection.particleSource]. The pipeline that the method builds over
    [_incomingParticles] is given stage by stage below. *)
Definition _startParticleProcessing : Eff Peer unit :=
  callConnection ConnectionSubscribe conn_subscribe ;;
  modify (set_particleSourceSubscription true).

(** The [next] handler of that subscription. *)
Definition onParticleFromSource (p : Particle.IParticle) : Eff Peer unit :=
  incomingNext (mkQueueItem p [] NoopSuccess NoopError).

(** [async start()] *)
Definition start : Eff Peer unit :=
  dbg <- gets (fun p => debug_printParticleId (config p)) ;;
  (if dbg then modify (set_printParticleId true) else ret tt) ;;
  callMarine MarineStart marine_start ;;
  _startParticleProcessing ;;
  assignIsInitialized true ;;
  callConnection ConnectionStart conn_start.

(** [async registerMarineService(wasm, serviceId)] *)
Definition registerMarineService (wasm : bytes) (sid : string)
    : Eff Peer unit :=
  has <- callJsHost (JsHasService sid) (js_hasService sid) ;;
  if has
  then throw (newError ("Service with '" +:+ sid +:+ "' id already exists"))
  else callMarine (MarineCreateService wasm sid)
         (marine_createService wasm sid).

(** [internals.parseAst(air)]. The first statement builds an [Error]
    and drops it: there is no [throw] in front of [new Error(...)]. *)
Definition parseAst (air : string) : Eff Peer ParseAstResult :=
  init <- gets isInitialized ;;
  (if negb init
   then let _ := newError "Can't use avm: peer is not initialized" in ret tt
   else ret tt) ;;
  res <- callMarine (MarineCallService "avm" "ast" (JsonArgs [JString air]))
           (marine_callService "avm" "ast" (JsonArgs [JString air])) ;;
  match res with
  | JString s =>
      tryCatch
        (if String.prefix "error" s
         then ret (mkParseAstResult false res)
         else parsed <- liftOutcome (JSON_parse s) ;;
              ret (mkParseAstResult true parsed))
        (fun err =>
           throw (newError ("Failed to call avm. Result: " +:+ s
                            +:+ ". Error: " +:+ getErrorMessage err)))
  | _ =>
      throw (newError
               ("Call to avm:ast expected to return string. Actual return: "
                +:+ JSON_stringify res))
  end.

(** [internals.initiateParticle(particle, onSuccess, onError)] *)
Definition initiateParticle (p : Particle.IParticle)
    (onS : SuccessCallback) (onE : ErrorCallback) : Eff Peer unit :=
  init <- gets isInitialized ;;
  if negb init
  then throw (newError "Cannot initiate new particle: peer is not initialized")
  else
    pp <- gets printParticleId ;;
    (if pp then emit (ConsoleLog "Particle id: " (Particle.id p))
     else ret tt) ;;
    incomingNext (mkQueueItem p [] onS onE).

(** [internals.createNewParticle(script, ttl = this.config.defaultTtlMs)] *)
Definition createNewParticle (scr : string) (ttl : option Z)
    : Eff Peer Particle.IParticle :=
  cfg <- gets config ;;
  kp <- gets keyPair ;;
  now <- Date_now ;;
  liftOutcome
    (Particle_createNew scr (getPeerId kp) (default (defaultTtlMs cfg) ttl)
       kp now).

(** [internals.getRelayPeerId()] *)
Definition getRelayPeerId : Eff Peer PeerIdB58 :=
  supports <- callConnection ConnectionSupportsRelay conn_supportsRelay ;;
  if supports
  then callConnection ConnectionGetRelayPeerId conn_getRelayPeerId
  else throw (newError "Relay is not supported by the current connection").

(** [internals.regHandler.forParticle]: the bound
    [jsServiceHost.registerParticleScopeHandler]. *)
Definition regHandler_forParticle (particleId sid fn : string) (h : Handler)
    : Eff Peer unit :=
  callJsHost (JsRegisterParticleScopeHandler particleId sid fn h)
    (js_registerParticleScopeHandler particleId sid fn h).

(** [_expireParticle(item)] *)
Definition expirationMessage (p : Particle.IParticle) : string :=
  "Particle expired after ttl of " +:+ numberToString (Particle.ttl p)
  +:+ "ms (particle id: " +:+ Particle.id p +:+ ")".

Definition _expireParticle (item : ParticleQueueItem) : Eff Peer unit :=
  let particleId := Particle.id (particle item) in
  callJsHost (JsRemoveParticleScopeHandlers particleId)
    (js_removeParticleScopeHandlers particleId) ;;
  callOnError (onError item)
    (mkError ExpirationError (expirationMessage (particle item))).

(** [filterExpiredParticles(onParticleExpiration)] applied to one item:
    the [tap] and then the [filter], each with its own call of
    [hasExpired]. [None] is an item the [filter] does not let through.
    [T extends ParticleQueueItem] is given by [toItem]. *)
Definition filterExpiredParticles {T : Type} (toItem : T -> ParticleQueueItem)
    (onParticleExpiration : T -> Eff Peer unit) (x : T)
    : Eff Peer (option T) :=
  expired <- hasExpired (particle (toItem x)) ;;
  (if expired then onParticleExpiration x else ret tt) ;;
  expired' <- hasExpired (particle (toItem x)) ;;
  ret (if negb expired' then Some x else None).

(** The arguments of [serializeAvmArgs] for [item] and the group's
    [prevData]. *)
Definition avmArgsOf (kp : KeyPair) (prev : bytes) (item : ParticleQueueItem)
    : AvmInvokeArgs :=
  let p := particle item in
  mkAvmInvokeArgs (Particle.initPeerId p) (getPeerId kp)
    (Particle.timestamp p) (Particle.ttl p) (Particle.id p)
    (toEd25519PrivateKey kp) (Particle.script p) prev (Particle.data p)
    (callResults item).

(** [e instanceof Error ? e : new Error(String(e))] *)
Definition asError (e : Thrown) : ErrorValue :=
  match e with
  | ThrownError err => err
  | ThrownValue v => mkError PlainError (js_String v)
  end.

(** The [try]/[catch] around the call of the interpreter. *)
Definition invokeAvm (a : AvmInvokeArgs) : Eff Peer AvmCallResult :=
  tryCatch
    (res <- callMarine
              (MarineCallService "avm" "invoke" (serializeAvmArgs a))
              (marine_callService "avm" "invoke" (serializeAvmArgs a)) ;;
     r <- liftOutcome (deserializeAvmResult res) ;;
     ret (AvmResult r))
    (fun e => ret (AvmError (asError e))).

(** The assignment [prevData = newData] and its condition. *)
Definition swapPrevData (g : GroupState) (r : AvmCallResult) : GroupState :=
  match r with
  | AvmResult ir =>
      if retCode ir =? 0 then mkGroupState (irData ir) (firstRun g) else g
  | AvmError _ => g
  end.

(** The body of the [concatMap] of a signature group, which runs for one
    item at a time: [None] is the [null] returned when the peer has been
    stopped. *)
Definition interpretItem (g : GroupState) (item : ParticleQueueItem)
    : Eff Peer (GroupState * option InterpretedItem) :=
  g1 <- (if firstRun g
         then delay <- getActualTTL (particle item) ;;
              emit (SetTimeout item delay) ;;
              modify (fun p => set_timeouts (_timeouts p ++ [(item, delay)]) p) ;;
              ret (mkGroupState (prevData g) false)
         else ret g) ;;
  init <- gets isInitialized ;;
  if negb init then ret (g1, None)
  else
    kp <- gets keyPair ;;
    avmCallResult <- invokeAvm (avmArgsOf kp (prevData g1) item) ;;
    ret (swapPrevData g1 avmCallResult,
         Some (mkInterpretedItem item avmCallResult)).

(** The items of one signature group, in the order [concatMap] takes
    them. *)
Fixpoint runGroup (g : GroupState) (items : list ParticleQueueItem)
    : Eff Peer (GroupState * list (option InterpretedItem)) :=
  match items with
  | [] => ret (g, [])
  | item :: rest =>
      r <- interpretItem g item ;;
      rs <- runGroup (fst r) rest ;;
      ret (fst rs, snd r :: snd rs)
  end.

(** [_execSingleCallRequest(req)] *)
Definition noServiceMessage (req : CallServiceData) : string :=
  "No service found for service call: serviceId='" +:+ serviceId req
  +:+ "', fnName='" +:+ fnName req +:+ "' args='"
  +:+ jsonify (JArray (args req)) +:+ "'".

Definition _execSingleCallRequest (req : CallServiceData)
    : Eff Peer CallServiceResult :=
  has <- callMarine (MarineHasService (serviceId req))
           (marine_hasService (serviceId req)) ;;
  if has
  then
    r <- callMarine
           (MarineCallService (serviceId req) (fnName req) (JsonArgs (args req)))
           (marine_callService (serviceId req) (fnName req)
              (JsonArgs (args req))) ;;
    ret (mkCallServiceResult success r)
  else
    res <- callJsHost (JsCallService req) (js_callService req) ;;
    match res with
    | None => ret (mkCallServiceResult error (JString (noServiceMessage req)))
    | Some r => ret r
    end.

(** The [.catch] attached to [_execSingleCallRequest(req)]. *)
Definition serviceCallFailedMessage (req : CallServiceData) (err : Thrown)
    : string :=
  "Service call failed. fnName=" +:+ dquote +:+ fnName req +:+ dquote
  +:+ " serviceId=" +:+ dquote +:+ serviceId req +:+ dquote
  +:+ " error: " +:+ getErrorMessage err.

Definition onCallRequestFailure (req : CallServiceData) (err : Thrown)
    : CallServiceResult :=
  match err with
  | ThrownError (mkError ServiceError msg) =>
      mkCallServiceResult error (JString msg)
  | _ => mkCallServiceResult error (JString (serviceCallFailedMessage req err))
  end.

Definition execCallRequest (req : CallServiceData)
    : Eff Peer CallServiceResult :=
  tryCatch (_execSingleCallRequest req)
    (fun err => ret (onCallRequestFailure req err)).

(** The [.then] attached after it. *)
Definition isResponseCall (req : CallServiceData) : bool :=
  String.eqb (serviceId req) "callbackSrv"
  && String.eqb (fnName req) "response".

Definition onCallRequestDone (item : InterpretedItem) (key : Z)
    (req : CallServiceData) (res : CallServiceResult) : Eff Peer unit :=
  if isResponseCall req
  then ret tt
  else
    let serviceResult := mkCallResult (jsonify (csrResult res)) (csrRetCode res) in
    let newParticle :=
      Particle.cloneWithNewData (particle (queueItem item)) [] in
    incomingNext
      (mkQueueItem newParticle [(key, serviceResult)]
         (onSuccess (queueItem item)) (onError (queueItem item))).

(** The body of the [for] over [item.result.callRequests]. *)
Definition requestOf (item : InterpretedItem) (cr : CallRequest)
    : CallServiceData :=
  mkCallServiceData (functionName cr) (arguments cr) (crServiceId cr)
    (crTetraplets cr)
    (getParticleContext (particle (queueItem item)) (crTetraplets cr)).

Definition handleCallRequest (item : InterpretedItem)
    (entry : Z * CallRequest) : Eff Peer unit :=
  let req := requestOf item (snd entry) in
  res <- execCallRequest req ;;
  onCallRequestDone item (fst entry) req res.

(** The messages of the errors given to [onError]. *)
Definition interpretationFailedMessage (msg : string)
    (p : Particle.IParticle) : string :=
  "Script interpretation failed: " +:+ msg +:+ "  (particle id: "
  +:+ Particle.id p +:+ ")".

Definition sendFailedMessage (p : Particle.IParticle) (e : Thrown) : string :=
  "Could not send particle: (particle id: " +:+ Particle.id p
  +:+ ", message: " +:+ getErrorMessage e +:+ ")".

(** The sending of the particle to the next peers, with its [.catch]. *)
Definition sendFurther (item : InterpretedItem) (r : InterpreterResult)
    : Eff Peer unit :=
  let newParticle :=
    Particle.cloneWithNewData (particle (queueItem item)) (irData r) in
  tryCatch
    (callConnection (ConnectionSendParticle (nextPeerPks r) newParticle)
       (conn_sendParticle (nextPeerPks r) newParticle))
    (fun e =>
       callOnError (onError (queueItem item))
         (mkError SendError (sendFailedMessage (particle (queueItem item)) e))).

(** The body of the last [mergeMap]: what is done with an interpreted
    item. The send and the call requests are run here one after the
    other, each to its end, which is one of the orders in which their
    promises can settle; [runCallRequests] runs the call requests as the
    loop starts them, all before any goes on, and in any order of
    settlement. *)
Definition dispatch (item : InterpretedItem) : Eff Peer unit :=
  init <- gets isInitialized ;;
  if negb init then ret tt
  else
    match result item with
    | AvmError e =>
        callOnError (onError (queueItem item))
          (mkError InterpreterError
             (interpretationFailedMessage (message e)
                (particle (queueItem item))))
    | AvmResult r =>
        if negb (retCode r =? 0)
        then
          callOnError (onError (queueItem item))
            (mkError InterpreterError
               (interpretationFailedMessage (errorMessage r)
                  (particle (queueItem item))))
        else
          (if (0 <? length (nextPeerPks r))%nat
           then sendFurther item r else ret tt) ;;
          (if (0 <? length (callRequests r))%nat
           then forEach (callRequests r) (handleCallRequest item)
           else ret tt)
    end.

(** One item through the stages of its signature group: the
    interpretation, the [filter] of [null], the second expiration filter
    and the dispatch. *)
Definition afterInterpretation (x : option InterpretedItem)
    : Eff Peer unit :=
  match x with
  | None => ret tt
  | Some it =>
      kept <- filterExpiredParticles queueItem
                (fun i => _expireParticle (queueItem i)) it ;;
      match kept with
      | None => ret tt
      | Some it' => dispatch it'
      end
  end.

(** One item through the whole pipeline, from the first expiration
    filter on; [g] is the state of the item's signature group. *)
Definition processItem (g : GroupState) (item : ParticleQueueItem)
    : Eff Peer GroupState :=
  kept <- filterExpiredParticles (fun i => i) _expireParticle item ;;
  match kept with
  | None => ret g
  | Some item' =>
      r <- interpretItem g item' ;;
      afterInterpretation (snd r) ;;
      ret (fst r)
  end.

End Engine.

(** ** [callAquaFunction] *)

(** A value of [args]: a JSON value or a function ([typeof argVal ===
    "function"]). *)
Inductive ArgValue : Type :=
| ArgJson (v : JSONValue)
| ArgFunction (f : ArgCallbackFunction).

(** [CallAquaFunctionConfig] *)
Record CallAquaFunctionConfig : Type := mkCallAquaFunctionConfig {
  cfgTtl : option Z
}.

(** Modelled from the spec: the service constructors of
    [compilerSupport/services.js], which is not among the sources. A
    function argument becomes a service that invokes the function and
    returns its result, any other argument a service returning the literal
    value; [callbackSrv.response] resolves the promise with its first
    argument; [errorHandlingSrv.error] rejects it; [getDataSrv.-relay-]
    returns the relay peer id. *)
Definition userHandlerService (sid fn : string) (f : ArgCallbackFunction)
    : ServiceDescription :=
  mkServiceDescription sid fn (UserHandler f).

Definition injectValueService (sid fn : string) (v : JSONValue)
    : ServiceDescription :=
  mkServiceDescription sid fn (InjectValue v).

Definition responseService (resolve : SuccessCallback) : ServiceDescription :=
  mkServiceDescription "callbackSrv" "response" (ResponseHandler resolve).

Definition errorHandlingService (reject : ErrorCallback) : ServiceDescription :=
  mkServiceDescription "errorHandlingSrv" "error" (ErrorHandlingHandler reject).

Definition injectRelayService : ServiceDescription :=
  mkServiceDescription "getDataSrv" "-relay-" InjectRelay.

Section CallFunction.
Context {MS JS CS : Type}.
Context `{!IMarineHost MS} `{!IJsServiceHost JS} `{!IConnection CS}.
Context `{!Externals}.

Local Abbreviation Peer := (FluencePeer MS JS CS).

(** Modelled from the spec: [registerParticleScopeService] of
    [compilerSupport/services.js], which is not among the sources: the
    service is registered in the scope of the particle, through
    [internals.regHandler.forParticle]. *)
Definition registerParticleScopeService (p : Particle.IParticle)
    (service : ServiceDescription) : Eff Peer unit :=
  regHandler_forParticle (Particle.id p) (sdServiceId service)
    (sdFnName service) (sdHandler service).

(** The service built for one entry of [args]. *)
Definition argService (entry : string * ArgValue) : ServiceDescription :=
  match snd entry with
  | ArgFunction f => userHandlerService "callbackSrv" (fst entry) f
  | ArgJson v => injectValueService "getDataSrv" (fst entry) v
  end.

(** The executor given to [new Promise]. *)
Definition callAquaFunction_executor (p : Particle.IParticle)
    (args : list (string * ArgValue)) (fireAndForget : bool)
    (resolve : SuccessCallback) (reject : ErrorCallback) : Eff Peer unit :=
  forEach args (fun entry => registerParticleScopeService p (argService entry)) ;;
  (if negb fireAndForget
   then registerParticleScopeService p (responseService resolve)
   else ret tt) ;;
  registerParticleScopeService p injectRelayService ;;
  registerParticleScopeService p (errorHandlingService reject) ;;
  initiateParticle p resolve reject.

(** [new Promise(executor)]: the promise is named by a fresh number; an
    executor that throws rejects it. *)
Definition newPromise
    (executor : SuccessCallback -> ErrorCallback -> Eff Peer unit)
    : Eff Peer nat :=
  n <- gets promisesCreated ;;
  modify (set_promisesCreated (S n)) ;;
  tryCatch (executor (PromiseResolve n) (PromiseReject n))
    (fun e => emit (RejectPromise n e)) ;;
  ret n.

(** [callAquaFunction({script, config = {}, peer, args, fireAndForget =
    false})]; [args] is [Object.entries(args)]. The result is the
    promise the function returns. *)
Definition callAquaFunction (scr : string)
    (config : option CallAquaFunctionConfig)
    (args : list (string * ArgValue)) (fireAndForget : option bool)
    : Eff Peer nat :=
  let config := default (mkCallAquaFunctionConfig None) config in
  let fireAndForget := default false fireAndForget in
  p <- createNewParticle scr (cfgTtl config) ;;
  newPromise (callAquaFunction_executor p args fireAndForget).


End CallFunction.

(** ** A JS service host *)

Module JsServiceHost.

(** What running a handler did to the completion callbacks. *)
Inductive Delivery : Type :=
| Resolved (cb : SuccessCallback) (v : JSONValue)
| Rejected (cb : ErrorCallback) (v : JSONValue).

(** Modelled from the spec: the service registry of
    [jsServiceHost/JsServiceHost.js], which is not among the sources:
    [globalHandlers: (serviceId, fnName) -> handler] and
    [particleHandlers: particleId -> (serviceId, fnName) -> handler].
    [relayView] is the answer of [connection.getRelayPeerId()] that the
    relay-injecting handler reads, [deliveries] what handlers have given
    to completion callbacks. *)
Record t : Type := mk {
  globalHandlers : gmap (string * string) Handler;
  particleHandlers : gmap string (gmap (string * string) Handler);
  relayView : PeerIdB58;
  deliveries : list Delivery
}.

Definition empty (relay : PeerIdB58) : t := mk ∅ ∅ relay [].

Definition registerGlobalHandler (sid fn : string) (h : Handler) (s : t) : t :=
  mk (<[(sid, fn) := h]> (globalHandlers s)) (particleHandlers s)
    (relayView s) (deliveries s).

Definition registerParticleScopeHandler (particleId sid fn : string)
    (h : Handler) (s : t) : t :=
  mk (globalHandlers s)
    (<[particleId := <[(sid, fn) := h]>
                       (default ∅ (particleHandlers s !! particleId))]>
       (particleHandlers s))
    (relayView s) (deliveries s).

Definition removeParticleScopeHandlers (particleId : string) (s : t) : t :=
  mk (globalHandlers s) (delete particleId (particleHandlers s))
    (relayView s) (deliveries s).

(** Is some function registered under [sid] in the map [m]? *)
Definition servesIn (sid : string) (m : gmap (string * string) Handler)
    : bool :=
  bool_decide (Exists (fun k => fst k = sid) (map fst (map_to_list m))).

(** [hasService]: is any function registered under the service id? *)
Definition hasService (sid : string) (s : t) : bool :=
  servesIn sid (globalHandlers s)
  || bool_decide (Exists (fun e => servesIn sid (snd e) = true)
                    (map_to_list (particleHandlers s))).

(** Handlers of the particle's scope take precedence over global ones. *)
Definition findHandler (req : CallServiceData) (s : t) : option Handler :=
  let key := (serviceId req, fnName req) in
  match particleHandlers s !! pcParticleId (particleContext req) with
  | Some scope =>
      match scope !! key with
      | Some h => Some h
      | None => globalHandlers s !! key
      end
  | None => globalHandlers s !! key
  end.

Definition firstArgument (req : CallServiceData) : JSONValue :=
  default JNull (args req !! 0%nat).

(** What a handler returns or throws, and what it delivers. *)
Definition runHandler (h : Handler) (req : CallServiceData) (s : t)
    : outcome CallServiceResult * list Delivery :=
  match h with
  | UserHandler f =>
      (match f (args req) (particleContext req) with
       | Returned v => Returned (mkCallServiceResult success v)
       | Threw e => Threw e
       end, [])
  | InjectValue v => (Returned (mkCallServiceResult success v), [])
  | ResponseHandler resolve =>
      (Returned (mkCallServiceResult success (JObject [])),
       [Resolved resolve (firstArgument req)])
  | ErrorHandlingHandler reject =>
      (Returned (mkCallServiceResult success (JObject [])),
       [Rejected reject (firstArgument req)])
  | InjectRelay =>
      (Returned (mkCallServiceResult success (JString (relayView s))), [])
  | OtherHandler f => (f req, [])
  end.

(** [callService]: [None] is the [null] of a call no handler matches; an
    error of the handler comes back as a result with [retCode = error]
    that carries the message. *)
Definition callService `{!Externals} (req : CallServiceData) (s : t)
    : option CallServiceResult * t :=
  match findHandler req s with
  | None => (None, s)
  | Some h =>
      let '(o, ds) := runHandler h req s in
      (Some match o with
            | Returned r => r
            | Threw e => mkCallServiceResult error (JString (getErrorMessage e))
            end,
       mk (globalHandlers s) (particleHandlers s) (relayView s)
         (deliveries s ++ ds))
  end.

#[global] Instance host `{!Externals} : IJsServiceHost t := {
  js_registerGlobalHandler sid fn h := modify (registerGlobalHandler sid fn h);
  js_registerParticleScopeHandler pid sid fn h :=
    modify (registerParticleScopeHandler pid sid fn h);
  js_removeParticleScopeHandlers pid := modify (removeParticleScopeHandlers pid);
  js_hasService sid := gets (hasService sid);
  js_callService req := fun s =>
    let '(r, s') := callService req s in (Returned r, s')
}.

End JsServiceHost.

(** ** Test doubles: a scripted Marine host and a recording connection *)

Module Demo.

(** A Marine host that knows which services it hosts and answers the
    successive calls of [callService] from a script. *)
Record Marine : Type := mkMarine {
  hosted : list string;
  answers : list (outcome JSONValue);
  running : bool
}.

#[global] Instance marineInstance : IMarineHost Marine := {
  marine_start := modify (fun m => mkMarine (hosted m) (answers m) true);
  marine_stop := modify (fun m => mkMarine (hosted m) (answers m) false);
  marine_createService _ sid :=
    modify (fun m => mkMarine (hosted m ++ [sid]) (answers m) (running m));
  marine_removeService sid :=
    modify (fun m => mkMarine (filter (fun s => s ≠ sid) (hosted m))
                       (answers m) (running m));
  marine_hasService sid := gets (fun m => bool_decide (sid ∈ hosted m));
  marine_callService _ _ _ := fun m =>
    match answers m with
    | [] => (Threw (newError "no scripted answer"), m)
    | a :: rest => (a, mkMarine (hosted m) rest (running m))
    end
}.

(** A connection that records what it is asked to send. *)
Record Connection : Type := mkConnection {
  relay : PeerIdB58;
  started : bool;
  subscribed : bool;
  sent : list (list PeerIdB58 * Particle.IParticle)
}.

#[global] Instance connectionInstance : IConnection Connection := {
  conn_start := modify (fun c => mkConnection (relay c) true (subscribed c) (sent c));
  conn_stop := modify (fun c => mkConnection (relay c) false (subscribed c) (sent c));
  conn_supportsRelay := ret true;
  conn_getRelayPeerId := gets relay;
  conn_sendParticle ids p :=
    modify (fun c => mkConnection (relay c) (started c) (subscribed c)
                       (sent c ++ [(ids, p)]));
  conn_subscribe := modify (fun c => mkConnection (relay c) (started c) true (sent c))
}.

(** The interpreter result a scripted answer stands for: the array
    [[retCode, errorMessage, data]]. *)
Definition decodeResult (v : JSONValue) : outcome InterpreterResult :=
  match v with
  | JArray [JNumber rc; JString msg; JString d] =>
      Returned (mkInterpreterResult rc msg (list_byte_of_string d) [] [])
  | _ => Threw (newError "malformed interpreter result")
  end.

Definition render (v : JSONValue) : string :=
  match v with
  | JString s => s
  | JNumber n => numberToString n
  | JNull => "null"
  | JBool true => "true"
  | JBool false => "false"
  | JArray _ => "[...]"
  | JObject _ => "{...}"
  end.

#[global] Instance externalsInstance : Externals := {
  jsonify := render;
  getErrorMessage e :=
    match e with
    | ThrownError err => message err
    | ThrownValue v => render v
    end;
  js_String := render;
  JSON_parse s := Returned (JString s);
  JSON_stringify := render;
  deserializeAvmResult := decodeResult;
  Particle_createNew scr peer ttl _ now :=
    Returned (Particle.mkParticle "particle-1" peer now ttl scr [] [])
}.

Definition keys : KeyPair := mkKeyPair "12D3KooWClient" [].

Definition clock (n : nat) : Z := 1000 + Z.of_nat n.

(** A peer as its constructor leaves it, over the given hosts. *)
Definition peerOver (m : Marine) (j : JsServiceHost.t) : FluencePeer Marine JsServiceHost.t Connection :=
  mkFluencePeer DEFAULT_CONFIG keys m j
    (mkConnection "12D3KooWRelay" false false [])
    [] [] false false false 0 clock 0 [].

Definition idleMarine : Marine := mkMarine [] [] false.

Definition freshPeer : FluencePeer Marine JsServiceHost.t Connection :=
  peerOver idleMarine (JsServiceHost.empty "12D3KooWRelay").

(** The same peer after [start()]. *)
Definition startedPeer : FluencePeer Marine JsServiceHost.t Connection :=
  snd (start freshPeer).

Definition someParticle : Particle.IParticle :=
  Particle.mkParticle "particle-7" "12D3KooWClient" 900 7000
    "(null)" [] [].

(** A particle that is past its time to live on the clock of the
    demonstration peers. *)
Definition staleParticle : Particle.IParticle :=
  Particle.mkParticle "particle-8" "12D3KooWClient" 900 50
    "(null)" [] [].

Definition someItem : ParticleQueueItem :=
  mkQueueItem someParticle [] (CallerSuccess 1) (CallerError 1).

Definition staleItem : ParticleQueueItem :=
  mkQueueItem staleParticle [] (CallerSuccess 2) (CallerError 2).

End Demo.

(** ** Reading an effect trace *)

(** Does some effect satisfying [P] come before a later one satisfying
    [Q]? *)
Fixpoint followedBy (P Q : Effect -> bool) (tr : list Effect) : bool :=
  match tr with
  | [] => false
  | e :: rest => (P e && existsb Q rest) || followedBy P Q rest
  end.

Definition isConnectionStart (e : Effect) : bool :=
  match e with ConnectionStart => true | _ => false end.

Definition isAssignInitialized (b : bool) (e : Effect) : bool :=
  match e with AssignIsInitialized b' => Bool.eqb b b' | _ => false end.

Definition isMarineCall (e : Effect) : bool :=
  match e with
  | MarineStart | MarineStop | MarineCreateService _ _
  | MarineRemoveService _ | MarineHasService _ | MarineCallService _ _ _ => true
  | _ => false
  end.

(** The order of the lifecycle sentence of the specification: the flag is
    set after the connection has been started, and not before. *)
Definition initializedOnlyAfterConnectionStart (tr : list Effect) : bool :=
  followedBy isConnectionStart (isAssignInitialized true) tr
  && negb (followedBy (isAssignInitialized true) isConnectionStart tr).

(** The arguments with which the interpreter was invoked, oldest first:
    the calls [callService("avm", "invoke", serializeAvmArgs(...))]. *)
Definition avmInvocationOf (e : Effect) : option AvmInvokeArgs :=
  match e with
  | MarineCallService sid fn (serializeAvmArgs a) =>
      if String.eqb sid "avm" && String.eqb fn "invoke" then Some a else None
  | _ => None
  end.

Definition avmInvocations (tr : list Effect) : list AvmInvokeArgs :=
  omap avmInvocationOf tr.

(** The results the interpretation stage attached to the items it let
    through. *)
Definition interpretationResults (outs : list (option InterpretedItem))
    : list AvmCallResult :=
  omap (fun o => result <$> o) outs.

(** The critical-section rule in the words of the specification: after an
    invocation that observed [observed] and ended in [r], [prevData] is the
    returned data if the invocation returned with [retCode = 0], and
    [observed] untouched otherwise. *)
Definition prevDataAfter (observed : bytes) (r : AvmCallResult) : bytes :=
  match r with
  | AvmResult ir => if retCode ir =? 0 then irData ir else observed
  | AvmError _ => observed
  end.

(** Successive invocations of one group, each with its result: the first
    observes [prev], every next one what the rule leaves. *)
Fixpoint threaded (prev : bytes) (invs : list AvmInvokeArgs)
    (rs : list AvmCallResult) : Prop :=
  match invs, rs with
  | [], [] => True
  | a :: invs', r :: rs' =>
      avmPrevData a = prev ∧ threaded (prevDataAfter prev r) invs' rs'
  | _, _ => False
  end.

(** ** Demonstration runs of the pipeline *)

Module DemoRun.

(** The interpreter succeeds with data [A], fails with [retCode = 1],
    crashes, succeeds with data [C], and then has nothing left to say. *)
Definition interpreterAnswers : list (outcome JSONValue) :=
  [Returned (JArray [JNumber 0; JString "ok"; JString "A"]);
   Returned (JArray [JNumber 1; JString "failed"; JString "B"]);
   Threw (newError "worker crashed");
   Returned (JArray [JNumber 0; JString "ok"; JString "C"])].

Definition interpretingPeer
    : FluencePeer Demo.Marine JsServiceHost.t Demo.Connection :=
  snd (start (Demo.peerOver (Demo.mkMarine [] interpreterAnswers false)
                (JsServiceHost.empty "12D3KooWRelay"))).

Definition fiveItems : list ParticleQueueItem :=
  [Demo.someItem; Demo.someItem; Demo.someItem; Demo.someItem; Demo.someItem].

(** A peer whose JS host has handlers in the scope of the stale particle
    and of another one. *)
Definition peerWithScopes
    : FluencePeer Demo.Marine JsServiceHost.t Demo.Connection :=
  snd (start
         (Demo.peerOver Demo.idleMarine
            (JsServiceHost.registerParticleScopeHandler "particle-8"
               "getDataSrv" "x" (InjectValue (JNumber 1))
               (JsServiceHost.registerParticleScopeHandler "particle-7"
                  "getDataSrv" "y" (InjectValue (JNumber 2))
                  (JsServiceHost.empty "12D3KooWRelay"))))).

End DemoRun.

(** The trace entry of the registration of a service in the scope of a
    particle. *)
Definition registrationOf (p : Particle.IParticle) (s : ServiceDescription)
    : Effect :=
  JsRegisterParticleScopeHandler (Particle.id p) (sdServiceId s) (sdFnName s)
    (sdHandler s).

Module DemoCalls.

(** An item whose interpretation failed. *)
Definition failedItem : InterpretedItem :=
  mkInterpretedItem Demo.someItem (AvmError (mkError PlainError "boom")).

(** An item the interpreter answered with two call requests. *)
Definition responseRequest : CallRequest :=
  mkCallRequest "callbackSrv" "response" [JString "done"] [].

Definition dataRequest : CallRequest :=
  mkCallRequest "getDataSrv" "x" [] [].

Definition answeredItem : InterpretedItem :=
  mkInterpretedItem Demo.someItem
    (AvmResult (mkInterpreterResult 0 "ok" (list_byte_of_string "D") []
                  [(1, responseRequest); (2, dataRequest)])).

(** A running peer whose Marine host has the service [greeting] and one
    answer ready, and whose JS host has [getDataSrv.x] in the scope of the
    particle of [Demo.someItem]. *)
Definition servingPeer
    : FluencePeer Demo.Marine JsServiceHost.t Demo.Connection :=
  snd (start
         (Demo.peerOver
            (Demo.mkMarine ["greeting"] [Returned (JString "hi")] false)
            (JsServiceHost.registerParticleScopeHandler "particle-7"
               "getDataSrv" "x" (InjectValue (JNumber 42))
               (JsServiceHost.empty "12D3KooWRelay")))).

Definition greetingCall : CallServiceData :=
  mkCallServiceData "hello" [JString "x"] "greeting" []
    (getParticleContext Demo.someParticle []).

Definition unknownCall : CallServiceData :=
  mkCallServiceData "nope" [JNumber 1] "nowhere" []
    (getParticleContext Demo.someParticle []).

(** The same peer with a Marine host that has no answer left: its
    [callService] throws. *)
Definition silentPeer
    : FluencePeer Demo.Marine JsServiceHost.t Demo.Connection :=
  snd (start
         (Demo.peerOver (Demo.mkMarine ["greeting"] [] false)
            (JsServiceHost.empty "12D3KooWRelay"))).

(** A running peer whose interpreter crashes, and the same peer after
    the interpretation of [Demo.someItem] and after the second expiration
    filter. *)
Definition crashingPeer
    : FluencePeer Demo.Marine JsServiceHost.t Demo.Connection :=
  snd (start
         (Demo.peerOver (Demo.mkMarine [] [Threw (newError "boom")] false)
            (JsServiceHost.empty "12D3KooWRelay"))).

Definition peerAfterCrash
    : FluencePeer Demo.Marine JsServiceHost.t Demo.Connection :=
  snd (interpretItem newGroup Demo.someItem crashingPeer).

Definition peerAfterRefilter
    : FluencePeer Demo.Marine JsServiceHost.t Demo.Connection :=
  snd (filterExpiredParticles queueItem
         (fun i => _expireParticle (queueItem i)) failedItem peerAfterCrash).

Definition echo : ArgCallbackFunction :=
  fun a _ => Returned (JArray a).

Definition demoArgs : list (string * ArgValue) :=
  [("x", ArgJson (JNumber 42)); ("onEvent", ArgFunction echo)].

End DemoCalls.

(** ** Waiting for the client library ([getFluenceInterface]) *)

Module LoadClient.

Definition REJECT_MESSAGE : string :=
  "Could not load Fluence JS Client library.
If you are using Node.js that probably means that you forgot in install or import the @fluencelabs/js-client.node package.
If you are using a browser, then you probably forgot to add the <script> tag to your HTML.
Please refer to the documentation page for more details: https://fluence.dev/docs/build/js-client/installation
".

Definition POLL_PEER_TIMEOUT : Z := 5000.

Definition POLL_PEER_INTERVAL : Z := 100.

Section Polling.
(** [PublicFluenceInterface]; a value of it is an object, hence truthy. *)
Context {I : Type}.

(** How a promise was settled. *)
Inductive Settlement : Type :=
| Resolved (v : I)
| Rejected (reason : string).

(** The variables of the executor given to [new Promise]: [hits], whether
    the interval set by [setInterval] is still there, and the promise
    itself, which keeps its first settlement. *)
Record Poll : Type := mkPoll {
  hits : Z;
  intervalSet : bool;
  promise : option Settlement
}.

(** [resolve(v)] and [reject(r)]: without effect on a settled promise. *)
Definition settle (x : Settlement) (s : Poll) : Poll :=
  mkPoll (hits s) (intervalSet s)
    (match promise s with None => Some x | Some y => Some y end).

(** [clearInterval(interval)] *)
Definition clearInterval (s : Poll) : Poll :=
  mkPoll (hits s) false (promise s).

(** One run of the callback given to [setInterval]; [res] is what
    [getFluenceInterfaceFromGlobalThis()] returns in it. *)
Definition callback (res : option I) (s : Poll) : Poll :=
  let s1 :=
    if hits s =? 0 then settle (Rejected REJECT_MESSAGE) (clearInterval s)
    else s in
  let s2 :=
    match res with
    | Some v => settle (Resolved v) (clearInterval s1)
    | None => s1
    end in
  mkPoll (hits s2 - 1) (intervalSet s2) (promise s2).

(** A period of the timer: the callback runs if the interval is still
    set. *)
Definition tick (res : option I) (s : Poll) : Poll :=
  if intervalSet s then callback res s else s.

(** What [getFluenceInterface()] returns: a promise already resolved with
    the interface found at the call, or a pending promise with its
    interval. *)
Inductive Started : Type :=
| Immediate (v : I)
| Polling (s : Poll).

Definition getFluenceInterface (optimisticResult : option I) : Started :=
  match optimisticResult with
  | Some v => Immediate v
  | None =>
      Polling (mkPoll (POLL_PEER_TIMEOUT / POLL_PEER_INTERVAL) true None)
  end.

(** The periods of the timer, oldest first, each with what the global
    object holds then. *)
Definition run (reads : list (option I)) (s : Poll) : Poll :=
  fold_left (fun acc res => tick res acc) reads s.

(** The poll as [getFluenceInterface] sets it up. *)
Definition initialPoll : Poll :=
  mkPoll (POLL_PEER_TIMEOUT / POLL_PEER_INTERVAL) true None.

(** The state of a poll after [n] periods: still waiting, with [hits]
    counted down, or settled with the interval cleared. *)
Definition pollInvariant (n : nat) (s : Poll) : Prop :=
  (intervalSet s = true ∧ promise s = None
   ∧ hits s = 50 - Z.of_nat n ∧ 0 <= hits s)
  ∨ (intervalSet s = false ∧ promise s ≠ None ∧ -1 <= hits s).

End Polling.
Arguments Settlement I : clear implicits.
Arguments Poll I : clear implicits.
Arguments Started I : clear implicits.

End LoadClient.

(** ** A libp2p node that can fail to dial *)

Module RelayConnectionDemo.
Import RelayConnection.

(** The state is whether the relay can be reached: a dial throws when it
    cannot. *)
#[global] Instance reachability : Libp2p bool := {
  dialProtocol := fun _ _ reachable =>
    if reachable then (Returned 7%nat, reachable)
    else (Threw (newError "dial timeout"), reachable)
}.

Definition unreachableConnection : RelayConnection bool :=
  mkRelayConnection "12D3KooWClient" false "/dns4/relay/tcp/9000/wss"
    "12D3KooWRelay" [].

End RelayConnectionDemo.

(** ** Stopping the peer *)

(** What [stop()] does to objects that are not fields of the peer's state
    above: the subscription to the particle source, the subject
    [_incomingParticles] and the timers. *)
Record Teardown : Type := mkTeardown {
  unsubscribed : bool;
  incomingCompleted : bool;
  clearedTimeouts : list (ParticleQueueItem * Z)
}.

Definition noTeardown : Teardown := mkTeardown false false [].

Section Stop.
Context {MS JS CS : Type}.
Context `{!IMarineHost MS} `{!IJsServiceHost JS} `{!IConnection CS}.

Local Abbreviation Peer := (FluencePeer MS JS CS).

(** A step on the peer alone. *)
Definition onPeer {A} (c : Eff Peer A) : Eff (Peer * Teardown) A :=
  fun w => let '(o, p') := c (fst w) in (o, (p', snd w)).

Definition onTeardown (f : Teardown -> Teardown) : Eff (Peer * Teardown) unit :=
  modify (fun w => (fst w, f (snd w))).

(** [clearTimeout(timeout)] *)
Definition clearTimeout (t : ParticleQueueItem * Z)
    : Eff (Peer * Teardown) unit :=
  onTeardown (fun d => mkTeardown (unsubscribed d) (incomingCompleted d)
                         (clearedTimeouts d ++ [t])).

(** [_stopParticleProcessing()]: the timers are cleared; the array
    [_timeouts] keeps them. *)
Definition _stopParticleProcessing : Eff (Peer * Teardown) unit :=
  ts <- gets (fun w => _timeouts (fst w)) ;;
  forEach ts clearTimeout.

(** [async stop()]. Between the completion of [_incomingParticles] and
    [_stopParticleProcessing()] the method awaits the end of the pipeline,
    which is no step of this model. *)
Definition stop : Eff (Peer * Teardown) unit :=
  sub <- gets (fun w => _particleSourceSubscription (fst w)) ;;
  (if sub
   then onTeardown (fun d => mkTeardown true (incomingCompleted d)
                               (clearedTimeouts d))
   else ret tt) ;;
  onTeardown (fun d => mkTeardown (unsubscribed d) true (clearedTimeouts d)) ;;
  _stopParticleProcessing ;;
  onPeer (callMarine MarineStop marine_stop) ;;
  onPeer (callConnection ConnectionStop conn_stop) ;;
  onPeer (assignIsInitialized false).

End Stop.

(** ** Test doubles that fail *)

Module Faulty.

(** A Marine host whose [start] and [stop] fail when told to; it hosts
    nothing. *)
Record Marine : Type := mkMarine {
  startFails : bool;
  stopFails : bool
}.

#[global] Instance marineInstance : IMarineHost Marine := {
  marine_start := fun m =>
    if startFails m then (Threw (newError "marine: start failed"), m)
    else (Returned tt, m);
  marine_stop := fun m =>
    if stopFails m then (Threw (newError "marine: stop failed"), m)
    else (Returned tt, m);
  marine_createService _ _ := ret tt;
  marine_removeService _ := ret tt;
  marine_hasService _ := ret false;
  marine_callService _ _ _ := throw (newError "marine: no such service")
}.

(** A connection whose [start], [stop] and [sendParticle] fail when told
    to, and which has a relay only when told so. *)
Record Connection : Type := mkConnection {
  connStartFails : bool;
  connStopFails : bool;
  sendFails : bool;
  relayOf : option PeerIdB58
}.

#[global] Instance connectionInstance : IConnection Connection := {
  conn_start := fun c =>
    if connStartFails c then (Threw (newError "connection: start failed"), c)
    else (Returned tt, c);
  conn_stop := fun c =>
    if connStopFails c then (Threw (newError "connection: stop failed"), c)
    else (Returned tt, c);
  conn_supportsRelay := gets (fun c => bool_decide (is_Some (relayOf c)));
  conn_getRelayPeerId := fun c =>
    match relayOf c with
    | Some r => (Returned r, c)
    | None => (Threw (newError "connection: no relay"), c)
    end;
  conn_sendParticle _ _ := fun c =>
    if sendFails c then (Threw (newError "connection: send failed"), c)
    else (Returned tt, c);
  conn_subscribe := ret tt
}.

Definition peerOver (m : Marine) (c : Connection)
    : FluencePeer Marine JsServiceHost.t Connection :=
  mkFluencePeer DEFAULT_CONFIG Demo.keys m
    (JsServiceHost.empty "12D3KooWRelay") c
    [] [] false false false 0 Demo.clock 0 [].

Definition soundConnection : Connection :=
  mkConnection false false false (Some "12D3KooWRelay").

(** A running peer with two timers, whose Marine host cannot stop. *)
Definition runningPeer (m : Marine) (c : Connection)
    : FluencePeer Marine JsServiceHost.t Connection :=
  set_timeouts [(Demo.someItem, 6900); (Demo.staleItem, 10)]
    (set_particleSourceSubscription true
       (set_isInitialized true (peerOver m c))).

End Faulty.

(** ** Kinds of effects *)

(** The effects of the execution of a call request. *)
Definition callEffect (e : Effect) : bool :=
  match e with
  | MarineHasService _ | MarineCallService _ _ _ | JsCallService _
  | IncomingNext _ => true
  | _ => false
  end.

(** The effects of the dispatch of an item. *)
Definition dispatchEffect (e : Effect) : bool :=
  match e with
  | ConnectionSendParticle _ _ | CallOnError _ _ => true
  | _ => callEffect e
  end.

(** The effects of the pipeline as a whole. *)
Definition pipelineEffect (e : Effect) : bool :=
  match e with
  | SetTimeout _ _ | JsRemoveParticleScopeHandlers _ => true
  | _ => dispatchEffect e
  end.

Definition isSendParticle (e : Effect) : bool :=
  match e with ConnectionSendParticle _ _ => true | _ => false end.

Definition isCallOnError (e : Effect) : bool :=
  match e with CallOnError _ _ => true | _ => false end.

Definition isCallOnSuccess (e : Effect) : bool :=
  match e with CallOnSuccess _ _ => true | _ => false end.

Section EffectFrames.
Context {MS JS CS : Type}.

(** A computation only adds to the trace, and only effects of the kind
    [P]. *)
Definition emitsOnly {A} (P : Effect -> bool)
    (c : Eff (FluencePeer MS JS CS) A) : Prop :=
  forall p,
    exists new, trace (snd (c p)) = trace p ++ new
                ∧ Forall (fun e => P e = true) new.

(** A computation leaves the queue of incoming particles alone. *)
Definition keepsQueue {A} (c : Eff (FluencePeer MS JS CS) A) : Prop :=
  forall p, _incomingParticles (snd (c p)) = _incomingParticles p.

(** A computation does not throw. *)
Definition returns {A} (c : Eff (FluencePeer MS JS CS) A) : Prop :=
  forall p, exists a, fst (c p) = Returned a.

End EffectFrames.

(** ** The outcome of a dispatch, read off the interpreter result *)

Section DispatchOutcome.
Context {CS : Type} `{!IConnection CS} `{!Externals}.

(** What the sending of the particle adds to the trace: nothing when
    there is no next peer, else the call of [connection.sendParticle] and,
    when that call fails, the call of [onError] with a [SendError]. *)
Definition sendPart (it : InterpretedItem) (r : InterpreterResult) (c : CS)
    : list Effect :=
  match nextPeerPks r with
  | [] => []
  | _ :: _ =>
      let newParticle :=
        Particle.cloneWithNewData (particle (queueItem it)) (irData r) in
      ConnectionSendParticle (nextPeerPks r) newParticle
      :: match fst (conn_sendParticle (nextPeerPks r) newParticle c) with
         | Returned _ => []
         | Threw e =>
             [CallOnError (onError (queueItem it))
                (mkError SendError
                   ("Could not send particle: (particle id: "
                    +:+ Particle.id (particle (queueItem it))
                    +:+ ", message: " +:+ getErrorMessage e +:+ ")"))]
         end
  end.

(** The call requests whose result comes back to the queue. *)
Definition comesBack (it : InterpretedItem) (entry : Z * CallRequest) : bool :=
  negb (isResponseCall (requestOf it (snd entry))).

(** The item that carries the result [res] of the call request [entry]
    back to the queue. *)
Definition resultItem (it : InterpretedItem) (entry : Z * CallRequest)
    (res : CallServiceResult) : ParticleQueueItem :=
  mkQueueItem (Particle.cloneWithNewData (particle (queueItem it)) [])
    [(fst entry, mkCallResult (jsonify (csrResult res)) (csrRetCode res))]
    (onSuccess (queueItem it)) (onError (queueItem it)).

End DispatchOutcome.

Module DemoDispatch.

(** An item the interpreter answered with a next peer and three call
    requests: the response call, a call of [getDataSrv.x] and a call of a
    service nobody has. *)
Definition strayRequest : CallRequest :=
  mkCallRequest "nowhere" "nope" [JNumber 1] [].

Definition forwardedItem : InterpretedItem :=
  mkInterpretedItem Demo.someItem
    (AvmResult
       (mkInterpreterResult 0 "ok" (list_byte_of_string "D")
          ["12D3KooWRelay"]
          [(1, DemoCalls.responseRequest); (2, DemoCalls.dataRequest);
           (3, strayRequest)])).

Definition forwardedResult : InterpreterResult :=
  mkInterpreterResult 0 "ok" (list_byte_of_string "D") ["12D3KooWRelay"]
    [(1, DemoCalls.responseRequest); (2, DemoCalls.dataRequest);
     (3, strayRequest)].

(** A running peer whose connection cannot send. *)
Definition muteConnection : Faulty.Connection :=
  Faulty.mkConnection false false true (Some "12D3KooWRelay").

Definition mutePeer
    : FluencePeer Faulty.Marine JsServiceHost.t Faulty.Connection :=
  Faulty.runningPeer (Faulty.mkMarine false false) muteConnection.

End DemoDispatch.

(** ** The registrations of a function call *)

(** The trace entries of the registrations that the executor of
    [callAquaFunction] makes for a particle, in the order of the source;
    [n] names the promise. *)
Definition registrationsOf (part : Particle.IParticle)
    (args : list (string * ArgValue)) (fireAndForget : bool) (n : nat)
    : list Effect :=
  map (fun entry => registrationOf part (argService entry)) args
  ++ (if fireAndForget then []
      else [registrationOf part (responseService (PromiseResolve n))])
  ++ [registrationOf part injectRelayService;
      registrationOf part (errorHandlingService (PromiseReject n))].

(** ** External functions that fail *)

Module Strict.

(** A [JSON.parse] that knows three literals and throws on anything
    else. *)
Definition parse (s : string) : outcome JSONValue :=
  if String.eqb s "null" then Returned JNull
  else if String.eqb s "true" then Returned (JBool true)
  else if String.eqb s "false" then Returned (JBool false)
  else Threw (newError ("Unexpected token in JSON: " +:+ s)).

(** The external functions of [Demo], with that [JSON.parse] and a
    [Particle.createNew] that fails for a key pair without a private
    key. *)
Definition externals : Externals := {|
  jsonify := Demo.render;
  getErrorMessage e :=
    match e with
    | ThrownError err => message err
    | ThrownValue v => Demo.render v
    end;
  js_String := Demo.render;
  JSON_parse := parse;
  JSON_stringify := Demo.render;
  deserializeAvmResult := Demo.decodeResult;
  Particle_createNew scr peer ttl kp now :=
    match toEd25519PrivateKey kp with
    | [] => Threw (newError "key pair cannot sign")
    | _ => Returned (Particle.mkParticle "particle-1" peer now ttl scr [] [])
    end
|}.

(** A Marine host that is running and answers the next call with [v]. *)
Definition answering (v : JSONValue)
    : FluencePeer Demo.Marine JsServiceHost.t Demo.Connection :=
  Demo.peerOver (Demo.mkMarine [] [Returned v] true)
    (JsServiceHost.empty "12D3KooWRelay").

End Strict.

(** ** The entry points of the compiled code ([v5_callFunction],
    [v5_registerService]) *)

Module ApiV5.

(** A value as the two functions meet it in [args]: [undefined], a JSON
    value, a function, a service implementation (an object whose
    properties are functions), or an instance of [FluencePeer], named by
    a number. *)
Inductive JsValue : Type :=
| VUndefined
| VJson (v : JSONValue)
| VFunction (f : ArgCallbackFunction)
| VImpl (methods : list (string * ArgCallbackFunction))
| VPeer (peer : nat).

(** [typeof v] *)
Definition typeof (v : JsValue) : string :=
  match v with
  | VUndefined => "undefined"
  | VJson JNull => "object"
  | VJson (JBool _) => "boolean"
  | VJson (JNumber _) => "number"
  | VJson (JString _) => "string"
  | VJson (JArray _) => "object"
  | VJson (JObject _) => "object"
  | VFunction _ => "function"
  | VImpl _ => "object"
  | VPeer _ => "object"
  end.

(** [v === null] and [Array.isArray(v)] *)
Definition isNull (v : JsValue) : bool :=
  match v with VJson JNull => true | _ => false end.

Definition Array_isArray (v : JsValue) : bool :=
  match v with VJson (JArray _) => true | _ => false end.

(** [fields[k]] for the fields of an object, which has each key once.
    The keys looked up are not names of properties that objects inherit
    from [Object.prototype]. *)
Fixpoint fieldOf {A} (k : string) (fields : list (string * A)) : option A :=
  match fields with
  | [] => None
  | (k', v) :: rest => if String.eqb k k' then Some v else fieldOf k rest
  end.

(** [v[k]] for a [v] that is an object, not [null] and not an array: a
    property of a JSON object or of a service implementation is its
    field; [FluencePeer] declares no property of the names read here. *)
Definition getProperty (v : JsValue) (k : string) : JsValue :=
  match v with
  | VJson (JObject fields) =>
      match fieldOf k fields with
      | Some x => VJson x
      | None => VUndefined
      end
  | VImpl methods =>
      match fieldOf k methods with
      | Some f => VFunction f
      | None => VUndefined
      end
  | _ => VUndefined
  end.

(** [isAquaConfig(config)] *)
Definition isAquaConfig (config : JsValue) : bool :=
  String.eqb (typeof config) "object"
  && negb (isNull config)
  && negb (Array_isArray config)
  && existsb (String.eqb (typeof (getProperty config "ttl")))
       ["undefined"; "number"].

(** [args.pop()]: the value returned, and [args] afterwards. *)
Definition pop (args : list JsValue) : JsValue * list JsValue :=
  (List.last args VUndefined, removelast args).

(** The choice of the peer, common to the two functions: [args[0]] when
    it is an instance of [FluencePeer], which is then taken off [args],
    and [Fluence.defaultClient] otherwise. *)
Definition choosePeer (defaultClient : option nat) (args : list JsValue)
    : option nat * list JsValue :=
  match args with
  | VPeer peer :: rest => (Some peer, rest)
  | _ => (defaultClient, args)
  end.

Definition NO_CLIENT_MESSAGE : string :=
  "Could not register Aqua service because the client is not initialized. Did you forget to call Fluence.connect()?".

(** [Object.fromEntries(entries)]: a key met again takes the new value
    at the place of the first. *)
Fixpoint setField {A} (k : string) (v : A) (fields : list (string * A))
    : list (string * A) :=
  match fields with
  | [] => [(k, v)]
  | (k', v') :: rest =>
      if String.eqb k k' then (k, v) :: rest else (k', v') :: setField k v rest
  end.

Definition Object_fromEntries {A} (entries : list (string * A))
    : list (string * A) :=
  fold_left (fun o e => setField (fst e) (snd e) o) entries [].

(** Sequencing of calls that may throw, and [xs.map(f)] for an [f] that
    may throw. *)
Definition andThen {A B} (o : outcome A) (k : A -> outcome B) : outcome B :=
  match o with
  | Returned a => k a
  | Threw e => Threw e
  end.

Fixpoint mapThrowing {A B} (f : A -> outcome B) (xs : list A)
    : outcome (list B) :=
  match xs with
  | [] => Returned []
  | x :: rest =>
      andThen (f x) (fun y =>
      andThen (mapThrowing f rest) (fun ys => Returned (y :: ys)))
  end.

(** What the two functions use and the sources do not hold: the schemas
    of [@fluencelabs/interfaces], of which only the [tag] is read, the
    conversions of [compilerSupport/conversions.js], [Object.entries],
    and the [TypeError] the runtime throws when a property of [undefined]
    is read. *)
Class Conversions (Schema : Type) := {
  tagIsArrow : Schema -> bool;
  wrapFunction : JsValue -> option Schema -> outcome JsValue;
  ts2aqua : JsValue -> Schema -> outcome JSONValue;
  Object_entries : JsValue -> outcome (list (string * JsValue));
  readOfUndefined : Thrown
}.

Section Definitions.
Context {Schema : Type} `{!Conversions Schema}.

(** [def.arrow.domain]: [nil], or a product with [fields]. *)
Inductive Domain : Type :=
| DomainNil
| DomainFields (fields : list (string * Schema)).

(** [def.arrow.codomain]: [nil], or an unlabeled product with [items]. *)
Inductive Codomain : Type :=
| CodomainNil
| CodomainItems (items : list Schema).

(** [FunctionCallDef], as [v5_callFunction] reads it: [arrowKeys] is
    [Object.keys(def.arrow)]. *)
Record FunctionCallDef : Type := mkFunctionCallDef {
  arrowKeys : list string;
  domain : Domain;
  codomain : Codomain
}.

(** The schema given to [aqua2ts]: an item of the codomain, or the
    codomain. *)
Inductive ReturnSchema : Type :=
| ItemSchema (s : Schema)
| CodomainSchema (c : Codomain).

(** The argument of [callAquaFunction]. *)
Record CallAquaFunctionArgs : Type := mkCallAquaFunctionArgs {
  caScript : string;
  caPeer : nat;
  caArgs : list (string * JsValue);
  caConfig : JsValue;
  caFireAndForget : bool
}.

(** The callback of [args.slice(0, schemaArgCount).map(...)], for the
    argument at the place of [name] in [argNames]. *)
Definition convertArg (schemaFunctionArgs : list (string * Schema))
    (entry : JsValue * string) : outcome (string * JsValue) :=
  let '(arg, name) := entry in
  match fieldOf name schemaFunctionArgs with
  | None => Threw readOfUndefined
  | Some argSchema =>
      if tagIsArrow argSchema
      then
        if negb (String.eqb (typeof arg) "function")
        then Threw (newError "Argument and schema don't match")
        else andThen (wrapFunction arg (Some argSchema)) (fun wrappedFunction =>
             Returned (name, wrappedFunction))
      else
        if String.eqb (typeof arg) "function"
        then Threw (newError "Argument and schema don't match")
        else andThen (ts2aqua arg argSchema) (fun v =>
             Returned (name, VJson v))
  end.

(** [v5_callFunction(args, def, script)], given [Fluence.defaultClient].
    The function ends with [aqua2ts(await callAquaFunction(...),
    returnSchema)]: the result here is the argument of that call of
    [callAquaFunction] and the schema its result is converted with. *)
Definition v5_callFunction (defaultClient : option nat) (args : list JsValue)
    (def : FunctionCallDef) (script : string)
    : outcome (CallAquaFunctionArgs * ReturnSchema) :=
  let argNames := arrowKeys def in
  let schemaArgCount := length argNames in
  let schemaFunctionArgs :=
    match domain def with
    | DomainNil => []
    | DomainFields fields => fields
    end in
  let '(peer, args) := choosePeer defaultClient args in
  match peer with
  | None => Threw (newError NO_CLIENT_MESSAGE)
  | Some peer =>
      let '(config, args) :=
        if (schemaArgCount <? length args)%nat then pop args
        else (VUndefined, args) in
      if negb (isAquaConfig config)
      then Threw (newError "Config should be object type")
      else
        andThen
          (mapThrowing (convertArg schemaFunctionArgs)
             (zip (take schemaArgCount args) argNames))
          (fun entries =>
             let callArgs := Object_fromEntries entries in
             let returnTypeVoid :=
               match codomain def with
               | CodomainNil => true
               | CodomainItems items => (length items =? 0)%nat
               end in
             let returnSchema :=
               match codomain def with
               | CodomainItems [item] => ItemSchema item
               | c => CodomainSchema c
               end in
             Returned
               (mkCallAquaFunctionArgs script peer callArgs config
                  returnTypeVoid,
                returnSchema))
  end.

(** [def.functions]: [nil], or a product with [fields]. *)
Inductive Functions : Type :=
| FunctionsNil
| FunctionsFields (fields : list (string * Schema)).

(** [ServiceDef] *)
Record ServiceDef : Type := mkServiceDef {
  defaultServiceId : option string;
  functions : Functions
}.

(** The argument of [registerService]. *)
Record RegisterServiceArgs : Type := mkRegisterServiceArgs {
  rsService : list (string * JsValue);
  rsPeer : nat;
  rsServiceId : string
}.

(** [v5_registerService(args, def)], given [Fluence.defaultClient]. The
    function ends with the call of [registerService]: the result here is
    the argument of that call. *)
Definition v5_registerService (defaultClient : option nat)
    (args : list JsValue) (def : ServiceDef) : outcome RegisterServiceArgs :=
  let '(serviceImpl, args) := pop args in
  let serviceId := defaultServiceId def in
  let '(peer, args) := choosePeer defaultClient args in
  match peer with
  | None => Threw (newError NO_CLIENT_MESSAGE)
  | Some peer =>
      andThen
        (if (length args =? 2)%nat
         then
           match nth 0 args VUndefined with
           | VJson (JString s) => Returned (Some s)
           | other =>
               Threw (newError ("Service ID should be of type string. "
                                +:+ typeof other +:+ " provided."))
           end
         else Returned serviceId)
        (fun serviceId =>
           match serviceId with
           | None => Threw (newError "Service ID is not provided")
           | Some serviceId =>
               let serviceSchema :=
                 match functions def with
                 | FunctionsNil => []
                 | FunctionsFields fields => fields
                 end in
               andThen (Object_entries serviceImpl) (fun entries =>
               andThen
                 (mapThrowing
                    (fun entry =>
                       andThen
                         (wrapFunction (snd entry)
                            (fieldOf (fst entry) serviceSchema))
                         (fun wrapped => Returned (fst entry, wrapped)))
                    entries)
                 (fun wrapped =>
                    Returned
                      (mkRegisterServiceArgs (Object_fromEntries wrapped) peer
                         serviceId)))
           end)
  end.

End Definitions.

Arguments Domain : clear implicits.
Arguments Codomain : clear implicits.
Arguments FunctionCallDef : clear implicits.
Arguments ReturnSchema : clear implicits.
Arguments Functions : clear implicits.
Arguments ServiceDef : clear implicits.

End ApiV5.

(** ** Definitions and conversions for the demonstrations of the entry
    points *)

Module DemoV5.
Import ApiV5.

(** Schemas are their tags; the conversions leave values as they are;
    [Object.entries] gives the methods of an implementation and the
    fields of a JSON object, and throws on [undefined] and [null]. *)
#[global] Instance conversions : Conversions string := {
  tagIsArrow s := String.eqb s "arrow";
  wrapFunction v _ := Returned v;
  ts2aqua v _ :=
    match v with
    | VJson j => Returned j
    | _ => Threw (newError "ts2aqua: not a JSON value")
    end;
  Object_entries v :=
    match v with
    | VImpl methods => Returned (map (fun m => (fst m, VFunction (snd m))) methods)
    | VJson (JObject fields) => Returned (map (fun f => (fst f, VJson (snd f))) fields)
    | VUndefined | VJson JNull =>
        Threw (newError "Cannot convert undefined or null to object")
    | _ => Returned []
    end;
  readOfUndefined :=
    newError "Cannot read properties of undefined (reading 'tag')"
}.

(** The definition of a function of one argument [x], as the compiler
    writes it: the arrow has the keys [tag], [domain] and [codomain]. *)
Definition oneArgument : FunctionCallDef string :=
  mkFunctionCallDef ["tag"; "domain"; "codomain"]
    (DomainFields [("x", "scalar")]) (CodomainItems ["scalar"]).

(** A definition whose domain has fields of the names of the keys of its
    arrow. *)
Definition keysAsFields : FunctionCallDef string :=
  mkFunctionCallDef ["tag"; "domain"; "codomain"]
    (DomainFields [("tag", "scalar"); ("domain", "scalar");
                   ("codomain", "arrow")])
    CodomainNil.

Definition someConfig : JsValue := VJson (JObject [("ttl", JNumber 5000)]).

(** The definition of the service [sig], and an implementation of one
    of its functions. *)
Definition sigDef : ServiceDef string :=
  mkServiceDef (Some "sig")
    (FunctionsFields [("get_peer_id", "arrow"); ("sign", "arrow");
                      ("verify", "arrow")]).

Definition anonymousDef : ServiceDef string :=
  mkServiceDef None (FunctionsFields [("get_peer_id", "arrow")]).

Definition sigImpl : JsValue :=
  VImpl [("get_peer_id", fun _ _ => Returned (JString "12D3KooWClient"))].

(** What [v5_callFunction] calls [callAquaFunction] with for
    [keysAsFields] and the arguments [1], [2], a function and
    [someConfig], and what [v5_registerService] calls [registerService]
    with for [sigDef] and the arguments: a peer, [my-sig], [null] and
    [sigImpl]. *)
Definition keysCall : CallAquaFunctionArgs :=
  mkCallAquaFunctionArgs "(null)" 0
    [("tag", VJson (JNumber 1)); ("domain", VJson (JNumber 2));
     ("codomain", VFunction DemoCalls.echo)]
    someConfig true.

Definition sigRegistration : RegisterServiceArgs :=
  mkRegisterServiceArgs
    [("get_peer_id",
      VFunction (fun _ _ => Returned (JString "12D3KooWClient")))]
    3 "my-sig".

End DemoV5.

(** ** RelayConnection: the incoming streams *)

Module RelayConnectionIncoming.

(** What the handler that [connect] registers for the protocol does to
    its surroundings: the calls of [onIncomingParticle] and of the
    logger. *)
Inductive StreamEffect : Type :=
| HandlerCall (msg : string)
| LogError (text : string)
| LogDebug (text : string).

(** The decoded [stream.source]: the messages it yields and, when the
    iteration ends with an error, that error. *)
Record Source : Type := mkSource {
  yielded : list string;
  failure : option Thrown
}.

(** The messages [onIncomingParticle] was called with, oldest first. *)
Definition handlerCalls (seen : list StreamEffect) : list string :=
  omap (fun e => match e with HandlerCall m => Some m | _ => None end) seen.

Definition isLogDebug (e : StreamEffect) : bool :=
  match e with LogDebug _ => true | _ => false end.

Section Handler.
Context {U : Type}.

(** The [ParticleHandler] given to [connect], over the state [U] of its
    owner, and the conversion of a thrown value by [text + e]. *)
Variable onIncomingParticle : string -> Eff U unit.
Variable String_of : Thrown -> string.

Record Receiver : Type := mkReceiver {
  owner : U;
  seen : list StreamEffect
}.

Definition see (e : StreamEffect) : Eff Receiver unit :=
  modify (fun r => mkReceiver (owner r) (seen r ++ [e])).

(** [onIncomingParticle(msg)] *)
Definition callHandler (msg : string) : Eff Receiver unit :=
  see (HandlerCall msg) ;;
  fun r =>
    let '(o, u) := onIncomingParticle msg (owner r) in
    (o, mkReceiver u (seen r)).

(** The body of [for await (const msg of source)]. *)
Definition onMessage (msg : string) : Eff Receiver unit :=
  tryCatch (callHandler msg)
    (fun e => see (LogError ("error on handling a new incoming message: "
                             +:+ String_of e))).

(** The function at the end of the [pipe] of an incoming stream. *)
Definition consume (source : Source) : Eff Receiver unit :=
  tryCatch
    (forEach (yielded source) onMessage ;;
     match failure source with
     | Some e => throw e
     | None => ret tt
     end)
    (fun e => see (LogDebug ("connection closed: " +:+ String_of e))).

End Handler.

Arguments Receiver : clear implicits.

(** A handler that counts the messages and throws on the message
    [bad]. *)
Definition countingHandler (msg : string) : Eff nat unit :=
  modify S ;;
  if String.eqb msg "bad" then throw (newError "bad particle") else ret tt.

Definition demoString (e : Thrown) : string :=
  match e with
  | ThrownError err => "Error: " +:+ message err
  | ThrownValue _ => "[value]"
  end.

End RelayConnectionIncoming.

(** ** The answers of the interpreter *)

Section AvmAnswers.
Context {MS : Type} `{!IMarineHost MS} `{!Externals}.

(** [avmCallResult] as the [try]/[catch] around the call of the
    interpreter leaves it, given what the call
    [marineHost.callService("avm", "invoke", args)] settled with: the
    deserialized answer, or the error that the call or
    [deserializeAvmResult] threw. *)
Definition avmCallResultOf (answer : outcome JSONValue) : AvmCallResult :=
  match answer with
  | Returned res =>
      match deserializeAvmResult res with
      | Returned r => AvmResult r
      | Threw e => AvmError (asError e)
      end
  | Threw e => AvmError (asError e)
  end.

(** The Marine host called with successive invocations of the
    interpreter and nothing in between: what each call settles with,
    oldest first, and the host after the last. *)
Fixpoint replayAvm (m : MS) (invs : list AvmInvokeArgs)
    : list (outcome JSONValue) * MS :=
  match invs with
  | [] => ([], m)
  | a :: rest =>
      let '(answer, m1) :=
        marine_callService "avm" "invoke" (serializeAvmArgs a) m in
      let '(answers, m2) := replayAvm m1 rest in
      (answer :: answers, m2)
  end.

End AvmAnswers.

(** ** The call requests of a dispatched item, as they run *)

(** What an execution of [_execSingleCallRequest] waits for at one of
    its [await]s, with what the awaited promise settles with: the answer
    of [marineHost.hasService], of [marineHost.callService] or of
    [jsServiceHost.callService]. *)
Inductive Awaited : Type :=
| HasServiceAnswer (o : outcome bool)
| MarineAnswer (o : outcome JSONValue)
| JsAnswer (o : outcome (option CallServiceResult)).

(** An execution under way: the entry of [callRequests] it was started
    for and what it awaits. *)
Record CallTask : Type := mkCallTask {
  taskEntry : Z * CallRequest;
  awaited : Awaited
}.

(** The executions of the call requests of one item: those under way,
    in the order in which they were started, and those that have
    settled, in the order in which they did, each with its result. *)
Record Executions : Type := mkExecutions {
  underWay : list CallTask;
  settledCalls : list ((Z * CallRequest) * CallServiceResult)
}.


Section CallRequestsUnderWay.
Context {MS JS CS : Type}.
Context `{!IMarineHost MS} `{!IJsServiceHost JS} `{!IConnection CS}.
Context `{!Externals}.

Local Abbreviation Peer := (FluencePeer MS JS CS).

(** A call of a host, made where the code reaches it; what its promise
    settles with is kept for the [await] that reads it. *)
Definition settled {A} (c : Eff Peer A) : Eff Peer (outcome A) :=
  fun p => let '(o, p') := c p in (Returned o, p').

(** One turn of the [for] over [item.result.callRequests]: the request
    is built and [_execSingleCallRequest(req)] is called, which runs up
    to its first [await], on [marineHost.hasService(req.serviceId)]. The
    loop does not wait for the promise. *)
Definition startCallRequest (item : InterpretedItem)
    (entry : Z * CallRequest) : Eff Peer CallTask :=
  let req := requestOf item (snd entry) in
  o <- settled (callMarine (MarineHasService (serviceId req))
                  (marine_hasService (serviceId req))) ;;
  ret (mkCallTask entry (HasServiceAnswer o)).

(** The [for] loop. *)
Fixpoint startCallRequests (item : InterpretedItem)
    (crs : list (Z * CallRequest)) : Eff Peer (list CallTask) :=
  match crs with
  | [] => ret []
  | entry :: rest =>
      t <- startCallRequest item entry ;;
      ts <- startCallRequests item rest ;;
      ret (t :: ts)
  end.

(** [_execSingleCallRequest(req).catch(...)] resumed at its [await]:
    the execution gets to its next [await], or the promise settles with a
    result. *)
Definition advance (item : InterpretedItem) (t : CallTask)
    : Eff Peer (CallTask + CallServiceResult) :=
  let req := requestOf item (snd (taskEntry t)) in
  match awaited t with
  | HasServiceAnswer (Returned true) =>
      o <- settled
             (callMarine
                (MarineCallService (serviceId req) (fnName req)
                   (JsonArgs (args req)))
                (marine_callService (serviceId req) (fnName req)
                   (JsonArgs (args req)))) ;;
      ret (inl (mkCallTask (taskEntry t) (MarineAnswer o)))
  | HasServiceAnswer (Returned false) =>
      o <- settled (callJsHost (JsCallService req) (js_callService req)) ;;
      ret (inl (mkCallTask (taskEntry t) (JsAnswer o)))
  | MarineAnswer (Returned r) => ret (inr (mkCallServiceResult success r))
  | JsAnswer (Returned (Some r)) => ret (inr r)
  | JsAnswer (Returned None) =>
      ret (inr (mkCallServiceResult error (JString (noServiceMessage req))))
  | HasServiceAnswer (Threw e) | MarineAnswer (Threw e) | JsAnswer (Threw e) =>
      ret (inr (onCallRequestFailure req e))
  end.

(** One resumption: of the executions under way, the one at the place
    [i] (counted round) goes on; when its promise settles, the [.then]
    callback runs with the result. With no execution under way nothing
    happens. *)
Definition resume (item : InterpretedItem) (i : nat) (x : Executions)
    : Eff Peer Executions :=
  let k := (i mod length (underWay x))%nat in
  match underWay x !! k with
  | None => ret x
  | Some t =>
      r <- advance item t ;;
      match r with
      | inl t' =>
          ret (mkExecutions
                 (take k (underWay x) ++ t' :: drop (S k) (underWay x))
                 (settledCalls x))
      | inr res =>
          onCallRequestDone item (fst (taskEntry t))
            (requestOf item (snd (taskEntry t))) res ;;
          ret (mkExecutions
                 (take k (underWay x) ++ drop (S k) (underWay x))
                 (settledCalls x ++ [(taskEntry t, res)]))
      end
  end.

(** The resumptions in the order [picks], which stands for the order in
    which the awaited promises settle. *)
Fixpoint resumeAll (item : InterpretedItem) (picks : list nat)
    (x : Executions) : Eff Peer Executions :=
  match picks with
  | [] => ret x
  | i :: rest => x' <- resume item i x ;; resumeAll item rest x'
  end.

(** The part of the dispatch that deals with the call requests: the
    [for] loop, which starts every execution, and then the resumptions. *)
Definition runCallRequests (item : InterpretedItem)
    (crs : list (Z * CallRequest)) (picks : list nat) : Eff Peer Executions :=
  ts <- startCallRequests item crs ;;
  resumeAll item picks (mkExecutions ts []).


End CallRequestsUnderWay.

(** * Properties *)

Module RelayConnectionFacts.
Import RelayConnection.

Section Facts.
Context {L : Type} `{Libp2p L}.

Lemma sendParticle_rejects_spec relay (ids : list PeerIdB58) :
  sendParticle_rejects relay ids = true <->
  length ids ≠ 1%nat ∧ ids !! 0%nat ≠ Some relay.
Proof.
  unfold sendParticle_rejects.
  rewrite andb_true_iff, negb_true_iff, Nat.eqb_neq, bool_decide_eq_true.
  reflexivity.
Qed.

(** The guard lets every one-element list through, whatever the
    peer id in it. *)
Lemma singleton_not_rejected relay (p : PeerIdB58) :
  sendParticle_rejects relay [p] = false.
Proof. reflexivity. Qed.

(** So does it a longer list, provided the relay's id comes first. *)
Lemma list_headed_by_relay_not_rejected relay (rest : list PeerIdB58) :
  sendParticle_rejects relay (relay :: rest) = false.
Proof.
  unfold sendParticle_rejects. cbn.
  rewrite bool_decide_eq_false_2; [apply andb_false_r | tauto].
Qed.

(** The guard and the policy agree on the empty list, on the relay alone
    and on several peers not headed by the relay. *)
Lemma empty_list_rejected relay : sendParticle_rejects relay [] = true.
Proof. reflexivity. Qed.

(** C1 (the code as it is): for a one-element list [[p]], with [p] any
    peer id, the relay's or not, [sendParticle] does not fail at the
    guard: it dials the relay and, when the dial returns a stream,
    pipes the particle into its sink. The specification's relay policy
    rejects [[p]] for every [p] other than the relay's id. *)
Theorem sendParticle_single_foreign_peer_is_sent
    stringify (c : RelayConnection L) (p : PeerIdB58) particle s l' :
  p ≠ relayPeerId c ->
  dialProtocol (_relayAddress c) PROTOCOL_NAME (_lib2p2Peer c)
    = (Returned s, l') ->
  permitted_by_policy (relayPeerId c) [p] = false ∧
  sendParticle stringify [p] particle c =
    (Returned tt,
     mkRelayConnection (peerId c) l' (_relayAddress c) (relayPeerId c)
       (rcTrace c ++ [RcDialProtocol (_relayAddress c) PROTOCOL_NAME;
                      RcPipe s [list_byte_of_string particle]])).
Proof.
  intros Hp Hdial. split.
  - unfold permitted_by_policy. apply bool_decide_eq_false. congruence.
  - unfold sendParticle, bind, gets, rcDialProtocol, rcLog, modify, bind.
    cbn. rewrite Hdial. cbn. rewrite <- app_assoc. reflexivity.
Qed.

End Facts.

Lemma sendParticle_single_foreign_peer_witness :
  permitted_by_policy "12D3KooWRelay" ["12D3KooWOther"] = false ∧
  sendParticle demoStringify ["12D3KooWOther"] "particle" demoConnection =
    (Returned tt,
     mkRelayConnection "12D3KooWClient" tt "/dns4/relay/tcp/9000/wss"
       "12D3KooWRelay"
       [RcDialProtocol "/dns4/relay/tcp/9000/wss" PROTOCOL_NAME;
        RcPipe 0%nat [list_byte_of_string "particle"]]).
Proof.
  apply (sendParticle_single_foreign_peer_is_sent demoStringify
           demoConnection "12D3KooWOther" "particle" 0%nat tt).
  - vm_compute. congruence.
  - reflexivity.
Defined.

End RelayConnectionFacts.

(** ** Running the monad *)

Lemma bind_returned {W A B} (c : Eff W A) (k : A -> Eff W B) w a w' :
  c w = (Returned a, w') -> bind c k w = k a w'.
Proof. intros Hc. unfold bind. rewrite Hc. reflexivity. Qed.

(** ** The lifecycle and the entry points of the peer *)

Ltac eff_unfold :=
  unfold bind, ret, throw, gets, modify, tryCatch, liftOutcome, emit,
    callMarine, callJsHost, callConnection, assignIsInitialized,
    incomingNext, callOnError, Date_now in *.

Section LifecycleFacts.
Context {MS JS CS : Type}.
Context `{!IMarineHost MS} `{!IJsServiceHost JS} `{!IConnection CS}.
Context `{!Externals}.

Local Abbreviation Peer := (FluencePeer MS JS CS).

(** C3 (as the code has it): [start()] starts the Marine host, then
    subscribes to [connection.particleSource], then sets [isInitialized]
    to [true], and only then calls [connection.start()]: the call is made
    in a state [p1] in which [isInitialized] already holds. *)
Theorem start_sets_initialized_before_connection_start (p : Peer) m1 c1 :
  marine_start (marineHost p) = (Returned tt, m1) ->
  conn_subscribe (connection p) = (Returned tt, c1) ->
  exists p1 : Peer,
    start p = callConnection ConnectionStart conn_start p1
    ∧ trace p1 = trace p ++ [MarineStart; ConnectionSubscribe;
                             AssignIsInitialized true]
    ∧ isInitialized p1 = true
    ∧ marineHost p1 = m1
    ∧ connection p1 = c1
    ∧ _particleSourceSubscription p1 = true
    ∧ trace (snd (start p)) = trace p ++ [MarineStart; ConnectionSubscribe;
                                         AssignIsInitialized true;
                                         ConnectionStart]
    ∧ isInitialized (snd (start p)) = true.
Proof.
  intros Hm Hc.
  unfold start, _startParticleProcessing. eff_unfold.
  destruct (debug_printParticleId (config p)); cbn;
    rewrite Hm; cbn; rewrite Hc; cbn;
    match goal with
    | |- context [set_trace (_ ++ [ConnectionStart]) ?P] => exists P
    end; cbn;
    destruct (conn_start c1) as [o c2]; cbn;
    repeat rewrite <- app_assoc; cbn;
    repeat split; reflexivity.
Qed.

(** C9 (the code as it is): on a peer that is not initialized,
    [initiateParticle] throws before it enqueues anything, and leaves the
    peer as it was; [parseAst] does not throw there: the [Error] it builds
    is dropped, the [ast] function of the [avm] service is called, and
    what the call gives decides the result. *)
Theorem parseAst_calls_avm_when_not_initialized
    (p : Peer) air part onS onE o m1 :
  isInitialized p = false ->
  marine_callService "avm" "ast" (JsonArgs [JString air]) (marineHost p)
    = (o, m1) ->
  initiateParticle part onS onE p
    = (Threw (newError "Cannot initiate new particle: peer is not initialized"),
       p)
  ∧ exists r (p' : Peer),
      parseAst air p = (r, p')
      ∧ trace p' = trace p
                   ++ [MarineCallService "avm" "ast" (JsonArgs [JString air])]
      ∧ marineHost p' = m1
      ∧ (forall e, o = Threw e -> r = Threw e)
      ∧ (forall s, o = Returned (JString s) -> String.prefix "error" s = true ->
           r = Returned (mkParseAstResult false (JString s))).
Proof.
  intros Hinit Hcall. split.
  - unfold initiateParticle. eff_unfold. rewrite Hinit. reflexivity.
  - unfold parseAst. eff_unfold. rewrite Hinit. cbn. rewrite Hcall.
    destruct o as [v|e]; cbn.
    + destruct v; cbn;
        try (eexists; eexists; split; [reflexivity|]; cbn;
             repeat split; try reflexivity; intros; congruence).
      destruct (String.prefix "error" s) eqn:Hpre; cbn.
      * eexists; eexists; split; [reflexivity|]; cbn.
        repeat split; try reflexivity; intros; congruence.
      * destruct (JSON_parse s); cbn;
          (eexists; eexists; split; [reflexivity|]; cbn;
           repeat split; try reflexivity; intros; congruence).
    + eexists; eexists; split; [reflexivity|]; cbn.
      repeat split; try reflexivity; intros; congruence.
Qed.

(** C10: [registerMarineService(wasm, serviceId)] asks the JS service
    host, and only it, whether the service id is taken. When it is, the
    method throws and the Marine host is not called; when it is not,
    [marineHost.createService] is called, whatever the Marine host
    already holds, and its outcome is the outcome of the method. *)
Theorem registerMarineService_guard_consults_js_host_only
    (p : Peer) wasm sid b j1 :
  js_hasService sid (jsServiceHost p) = (Returned b, j1) ->
  (b = true ->
     exists p' : Peer,
       registerMarineService wasm sid p
         = (Threw (newError ("Service with '" +:+ sid +:+ "' id already exists")),
            p')
       ∧ trace p' = trace p ++ [JsHasService sid]
       ∧ marineHost p' = marineHost p)
  ∧ (b = false ->
       forall o m2,
         marine_createService wasm sid (marineHost p) = (o, m2) ->
         exists p' : Peer,
           registerMarineService wasm sid p = (o, p')
           ∧ trace p' = trace p ++ [JsHasService sid;
                                    MarineCreateService wasm sid]
           ∧ marineHost p' = m2).
Proof.
  intros Hhas. split; intros ->.
  - unfold registerMarineService. eff_unfold. cbn. rewrite Hhas. cbn.
    eexists; split; [reflexivity|]. cbn. split; reflexivity.
  - intros o m2 Hcreate.
    unfold registerMarineService. eff_unfold. cbn. rewrite Hhas. cbn.
    rewrite Hcreate. cbn.
    eexists; split; [reflexivity|]. cbn.
    rewrite <- app_assoc. split; reflexivity.
Qed.

End LifecycleFacts.

(** The lifecycle on the demonstration peer. *)
Lemma start_order_witness :
  exists p1 : FluencePeer Demo.Marine JsServiceHost.t Demo.Connection,
    start Demo.freshPeer = callConnection ConnectionStart conn_start p1
    ∧ trace p1 = trace Demo.freshPeer
                 ++ [MarineStart; ConnectionSubscribe; AssignIsInitialized true]
    ∧ isInitialized p1 = true
    ∧ marineHost p1 = Demo.mkMarine [] [] true
    ∧ connection p1 = Demo.mkConnection "12D3KooWRelay" false true []
    ∧ _particleSourceSubscription p1 = true
    ∧ trace (snd (start Demo.freshPeer))
      = trace Demo.freshPeer ++ [MarineStart; ConnectionSubscribe;
                                 AssignIsInitialized true; ConnectionStart]
    ∧ isInitialized (snd (start Demo.freshPeer)) = true.
Proof.
  apply (start_sets_initialized_before_connection_start Demo.freshPeer);
    reflexivity.
Defined.

(** C3 as the specification words it does not hold: in the trace of
    [start()] the flag is set before the connection is started, not
    after. *)
Lemma start_flips_flag_after_connection_counterexample :
  start Demo.freshPeer
    = (Returned tt, Demo.startedPeer)
  ∧ trace Demo.startedPeer
    = [MarineStart; ConnectionSubscribe; AssignIsInitialized true;
       ConnectionStart]
  ∧ initializedOnlyAfterConnectionStart (trace Demo.startedPeer) = false.
Proof. repeat split. Qed.

Lemma parseAst_not_initialized_witness :
  initiateParticle Demo.someParticle NoopSuccess NoopError
      (Demo.peerOver (Demo.mkMarine [] [Returned (JString "error: no")] true)
         (JsServiceHost.empty "12D3KooWRelay"))
    = (Threw (newError "Cannot initiate new particle: peer is not initialized"),
       Demo.peerOver (Demo.mkMarine [] [Returned (JString "error: no")] true)
         (JsServiceHost.empty "12D3KooWRelay"))
  ∧ exists r (p' : FluencePeer Demo.Marine JsServiceHost.t Demo.Connection),
      parseAst "(null)"
        (Demo.peerOver (Demo.mkMarine [] [Returned (JString "error: no")] true)
           (JsServiceHost.empty "12D3KooWRelay")) = (r, p')
      ∧ trace p' = [] ++ [MarineCallService "avm" "ast"
                            (JsonArgs [JString "(null)"])]
      ∧ marineHost p' = Demo.mkMarine [] [] true
      ∧ (forall e, Returned (JString "error: no") = Threw e -> r = Threw e)
      ∧ (forall s, Returned (JString "error: no") = Returned (JString s) ->
           String.prefix "error" s = true ->
           r = Returned (mkParseAstResult false (JString s))).
Proof.
  apply (parseAst_calls_avm_when_not_initialized
           (Demo.peerOver (Demo.mkMarine [] [Returned (JString "error: no")] true)
              (JsServiceHost.empty "12D3KooWRelay"))
           "(null)" Demo.someParticle NoopSuccess NoopError
           (Returned (JString "error: no")) (Demo.mkMarine [] [] true));
    reflexivity.
Defined.

Lemma registerMarineService_marine_only_witness :
  exists p' : FluencePeer Demo.Marine JsServiceHost.t Demo.Connection,
    registerMarineService [] "greeting"
      (Demo.peerOver (Demo.mkMarine ["greeting"] [] true)
         (JsServiceHost.empty "12D3KooWRelay"))
      = (Returned tt, p')
    ∧ trace p' = [] ++ [JsHasService "greeting";
                        MarineCreateService [] "greeting"]
    ∧ marineHost p' = Demo.mkMarine ["greeting"; "greeting"] [] true.
Proof.
  assert (Hjs : js_hasService "greeting"
                  (jsServiceHost
                     (Demo.peerOver (Demo.mkMarine ["greeting"] [] true)
                        (JsServiceHost.empty "12D3KooWRelay")))
                = (Returned false, JsServiceHost.empty "12D3KooWRelay"))
    by (vm_compute; reflexivity).
  exact (proj2 (registerMarineService_guard_consults_js_host_only
                  (Demo.peerOver (Demo.mkMarine ["greeting"] [] true)
                     (JsServiceHost.empty "12D3KooWRelay"))
                  [] "greeting" false (JsServiceHost.empty "12D3KooWRelay")
                  Hjs) eq_refl (Returned tt)
               (Demo.mkMarine ["greeting"; "greeting"] [] true) eq_refl).
Defined.

(** ** The dispatch stage and the call requests *)

Section DispatchFacts.
Context {MS JS CS : Type}.
Context `{!IMarineHost MS} `{!IJsServiceHost JS} `{!IConnection CS}.
Context `{!Externals}.

Local Abbreviation Peer := (FluencePeer MS JS CS).

(** On a stopped peer the dispatch stage does nothing at all. *)
Lemma dispatch_stopped (it : InterpretedItem) (p : Peer) :
  isInitialized p = false -> dispatch it p = (Returned tt, p).
Proof. intros Hs. unfold dispatch. eff_unfold. rewrite Hs. reflexivity. Qed.

(** An expiration filter does not touch the flag, and what it lets
    through is the item it was given. *)
Lemma filterExpiredParticles_keeps_flag {T : Type}
    (toItem : T -> ParticleQueueItem) (x : T) (p : Peer) o (p' : Peer) :
  filterExpiredParticles toItem (fun y => _expireParticle (toItem y)) x p
    = (o, p') ->
  isInitialized p' = isInitialized p
  ∧ (forall y, o = Returned (Some y) -> y = x).
Proof.
  unfold filterExpiredParticles, hasExpired, _expireParticle.
  eff_unfold. cbn.
  destruct (Particle.hasExpiredAt _ _); cbn.
  - destruct (js_removeParticleScopeHandlers _ _) as [[[] | e] j1]; cbn.
    + destruct (Particle.hasExpiredAt _ _); cbn;
        intros [= <- <-]; (split; [reflexivity|]); intros y [=]; congruence.
    + intros [= <- <-]. split; [reflexivity|]. intros y [=].
  - destruct (Particle.hasExpiredAt _ _); cbn;
      intros [= <- <-]; (split; [reflexivity|]); intros y [=]; congruence.
Qed.

(** A failed interpretation at the dispatch of a running peer. *)
Lemma dispatch_failure_on_running_peer
    (it : InterpretedItem) (p : Peer) (msg : string) :
  isInitialized p = true ->
  (exists e, result it = AvmError e ∧ msg = message e)
  ∨ (exists r, result it = AvmResult r ∧ retCode r ≠ 0 ∧ msg = errorMessage r) ->
  dispatch it p
    = (Returned tt,
       set_trace
         (trace p
          ++ [CallOnError (onError (queueItem it))
                (mkError InterpreterError
                   ("Script interpretation failed: " +:+ msg
                    +:+ "  (particle id: "
                    +:+ Particle.id (particle (queueItem it)) +:+ ")"))])
         p).
Proof.
  intros Hinit Hres. unfold dispatch. eff_unfold. rewrite Hinit. cbn.
  destruct Hres as [(e & -> & ->) | (r & -> & Hrc & ->)].
  - reflexivity.
  - destruct (Z.eqb_spec (retCode r) 0) as [Heq | _]; [contradiction|].
    reflexivity.
Qed.

(** [_execSingleCallRequest] with its [.catch] always comes back with a
    result: nothing it calls can make it throw. It gives nothing to
    [_incomingParticles]. *)
Lemma execCallRequest_returns (req : CallServiceData) (p : Peer) :
  exists res p',
    execCallRequest req p = (Returned res, p')
    ∧ _incomingParticles p' = _incomingParticles p.
Proof.
  unfold execCallRequest, _execSingleCallRequest. eff_unfold. cbn.
  destruct (marine_hasService _ _) as [[[] | e] m1]; cbn.
  - destruct (marine_callService _ _ _ _) as [[v | e] m2]; cbn; eauto.
  - destruct (js_callService _ _) as [[[r |] | e] j1]; cbn; eauto.
  - eauto.
Qed.

(** C5: the resolution order of a call request. (1) When the Marine host
    has the service, the call goes to Marine and the JS host is not
    asked; the value comes back with [retCode = success]. (2) Otherwise
    the JS host is asked; its result is passed on, and its [null] becomes
    an error result whose text names the service id, the function and the
    arguments. (3) Whatever one of these calls throws becomes an error
    result: the message of a [ServiceError], or for any other value the
    text [Service call failed] with the function, the service id and the
    error message. *)
Theorem execCallRequest_resolution_order (req : CallServiceData) (p : Peer) :
  (forall m1 v m2,
     marine_hasService (serviceId req) (marineHost p) = (Returned true, m1) ->
     marine_callService (serviceId req) (fnName req) (JsonArgs (args req)) m1
       = (Returned v, m2) ->
     exists p' : Peer,
       execCallRequest req p = (Returned (mkCallServiceResult success v), p')
       ∧ trace p' = trace p
                    ++ [MarineHasService (serviceId req);
                        MarineCallService (serviceId req) (fnName req)
                          (JsonArgs (args req))]
       ∧ marineHost p' = m2
       ∧ jsServiceHost p' = jsServiceHost p)
  ∧ (forall m1 r j1,
       marine_hasService (serviceId req) (marineHost p) = (Returned false, m1) ->
       js_callService req (jsServiceHost p) = (Returned r, j1) ->
       exists p' : Peer,
         execCallRequest req p
           = (Returned
                match r with
                | Some res => res
                | None =>
                    mkCallServiceResult error
                      (JString
                         ("No service found for service call: serviceId='"
                          +:+ serviceId req +:+ "', fnName='" +:+ fnName req
                          +:+ "' args='" +:+ jsonify (JArray (args req))
                          +:+ "'"))
                end, p')
         ∧ trace p' = trace p
                      ++ [MarineHasService (serviceId req); JsCallService req]
         ∧ marineHost p' = m1
         ∧ jsServiceHost p' = j1)
  ∧ (forall err,
       (exists m1, marine_hasService (serviceId req) (marineHost p)
                   = (Threw err, m1))
       ∨ (exists m1 m2,
            marine_hasService (serviceId req) (marineHost p)
              = (Returned true, m1)
            ∧ marine_callService (serviceId req) (fnName req)
                (JsonArgs (args req)) m1 = (Threw err, m2))
       ∨ (exists m1 j1,
            marine_hasService (serviceId req) (marineHost p)
              = (Returned false, m1)
            ∧ js_callService req (jsServiceHost p) = (Threw err, j1)) ->
       exists p' : Peer,
         execCallRequest req p
           = (Returned
                (mkCallServiceResult error
                   (JString
                      match err with
                      | ThrownError (mkError ServiceError m) => m
                      | _ =>
                          "Service call failed. fnName=" +:+ dquote
                          +:+ fnName req +:+ dquote +:+ " serviceId="
                          +:+ dquote +:+ serviceId req +:+ dquote
                          +:+ " error: " +:+ getErrorMessage err
                      end)), p')).
Proof.
  repeat split.
  - intros m1 v m2 Hhas Hcall.
    unfold execCallRequest, _execSingleCallRequest. eff_unfold. cbn.
    rewrite Hhas. cbn. rewrite Hcall. cbn.
    eexists; split; [reflexivity|]. cbn. rewrite <- app_assoc.
    repeat split; reflexivity.
  - intros m1 r j1 Hhas Hcall.
    unfold execCallRequest, _execSingleCallRequest. eff_unfold. cbn.
    rewrite Hhas. cbn. rewrite Hcall.
    destruct r as [res |]; cbn;
      (eexists; split; [reflexivity|]; cbn; rewrite <- app_assoc;
       repeat split; reflexivity).
  - intros err Hthrow.
    assert (Hfail : onCallRequestFailure req err
                    = mkCallServiceResult error
                        (JString
                           match err with
                           | ThrownError (mkError ServiceError m) => m
                           | _ => serviceCallFailedMessage req err
                           end)).
    { destruct err as [[[] m] | v]; reflexivity. }
    unfold serviceCallFailedMessage in Hfail. rewrite <- Hfail.
    unfold execCallRequest, _execSingleCallRequest. eff_unfold. cbn.
    destruct Hthrow as [(m1 & Hhas) | [(m1 & m2 & Hhas & Hcall)
                                      | (m1 & j1 & Hhas & Hcall)]];
      rewrite Hhas; cbn; try rewrite Hcall; cbn; eauto.
Qed.

(** C6: when a call request is done, nothing is enqueued if it went to
    [callbackSrv] / [response]; for any other request one item is given
    to [_incomingParticles]: the particle cloned with empty [data], the
    single call result [(key, {result: jsonify(res.result), retCode})],
    and the [onSuccess] and [onError] of the item the request came from.
    Every call request gets there: its execution always completes with
    some result [res]. *)
Theorem call_request_result_is_reenqueued
    (it : InterpretedItem) (key : Z) (cr : CallRequest) (p : Peer) :
  exists (res : CallServiceResult) (p1 : Peer),
    execCallRequest (requestOf it cr) p = (Returned res, p1)
    ∧ _incomingParticles p1 = _incomingParticles p
    ∧ (crServiceId cr = "callbackSrv" ∧ functionName cr = "response" ->
       handleCallRequest it (key, cr) p = (Returned tt, p1))
    ∧ (¬ (crServiceId cr = "callbackSrv" ∧ functionName cr = "response") ->
       let reenqueued :=
         mkQueueItem
           (Particle.cloneWithNewData (particle (queueItem it)) [])
           [(key, mkCallResult (jsonify (csrResult res)) (csrRetCode res))]
           (onSuccess (queueItem it)) (onError (queueItem it)) in
       handleCallRequest it (key, cr) p
         = (Returned tt,
            set_incomingParticles (_incomingParticles p1 ++ [reenqueued])
              (set_trace (trace p1 ++ [IncomingNext reenqueued]) p1))).
Proof.
  destruct (execCallRequest_returns (requestOf it cr) p)
    as (res & p1 & Hexec & Hqueue).
  exists res, p1. split; [exact Hexec|]. split; [exact Hqueue|].
  unfold handleCallRequest, onCallRequestDone, isResponseCall. cbn.
  rewrite !(bind_returned _ _ _ _ _ Hexec). split.
  - intros [-> ->]. reflexivity.
  - intros Hne.
    destruct (String.eqb_spec (crServiceId cr) "callbackSrv") as [Hs | Hs];
      destruct (String.eqb_spec (functionName cr) "response") as [Hf | Hf];
      cbn; try (exfalso; apply Hne; split; assumption);
      eff_unfold; cbn; reflexivity.
Qed.

End DispatchFacts.

(** ** The interpretation stage of a signature group *)

Lemma threaded_length prev invs rs :
  threaded prev invs rs -> length invs = length rs.
Proof.
  revert prev rs. induction invs as [|a invs IH]; intros prev [|r rs] Ht;
    cbn in *; try contradiction; [reflexivity|].
  destruct Ht as [_ Ht]. f_equal. eapply IH, Ht.
Qed.

Lemma threaded_first prev invs rs a :
  threaded prev invs rs -> invs !! 0%nat = Some a -> avmPrevData a = prev.
Proof.
  destruct invs as [|a' invs], rs as [|r rs]; cbn; try contradiction;
    try discriminate.
  intros [Ha _] [= ->]. exact Ha.
Qed.

Lemma threaded_consecutive prev invs rs i a ra b :
  threaded prev invs rs ->
  invs !! i = Some a -> rs !! i = Some ra -> invs !! S i = Some b ->
  avmPrevData b = prevDataAfter (avmPrevData a) ra.
Proof.
  revert prev invs rs. induction i as [|i IH]; intros prev invs rs Ht Ha Hr Hb.
  - destruct invs as [|a' invs], rs as [|r rs]; cbn in *;
      try contradiction; try discriminate.
    injection Ha as ->. injection Hr as ->. destruct Ht as [Hobs Ht].
    rewrite Hobs. eapply threaded_first; [exact Ht | exact Hb].
  - destruct invs as [|a' invs], rs as [|r rs]; cbn in *;
      try contradiction; try discriminate.
    destruct Ht as [_ Ht]. eapply IH; eassumption.
Qed.

Lemma avmInvocations_app tr1 tr2 :
  avmInvocations (tr1 ++ tr2) = avmInvocations tr1 ++ avmInvocations tr2.
Proof. apply omap_app. Qed.

Section InterpretationFacts.
Context {MS JS CS : Type}.
Context `{!IMarineHost MS} `{!IJsServiceHost JS} `{!IConnection CS}.
Context `{!Externals}.

Local Abbreviation Peer := (FluencePeer MS JS CS).

(** The call of the interpreter never throws: what is thrown is caught and
    becomes the result. It adds one invocation to the trace and leaves the
    flag and the key pair alone. *)
Lemma invokeAvm_returns (a : AvmInvokeArgs) (p : Peer) :
  exists r p',
    invokeAvm a p = (Returned r, p')
    ∧ trace p' = trace p
                 ++ [MarineCallService "avm" "invoke" (serializeAvmArgs a)]
    ∧ isInitialized p' = isInitialized p
    ∧ keyPair p' = keyPair p.
Proof.
  unfold invokeAvm. eff_unfold. cbn.
  destruct (marine_callService _ _ _ _) as [[v | e] m1]; cbn.
  - destruct (deserializeAvmResult v); cbn;
      (eexists; eexists; split; [reflexivity|]; cbn; repeat split; reflexivity).
  - eexists; eexists; split; [reflexivity|]; cbn; repeat split; reflexivity.
Qed.

(** One run of the body of [concatMap]. *)
Lemma interpretItem_step (g : GroupState) (item : ParticleQueueItem) (p : Peer) :
  exists g1 o (p' : Peer) new,
    interpretItem g item p = (Returned (g1, o), p')
    ∧ trace p' = trace p ++ new
    ∧ isInitialized p' = isInitialized p
    ∧ keyPair p' = keyPair p
    ∧ match o with
      | None =>
          isInitialized p = false
          ∧ avmInvocations new = [] ∧ prevData g1 = prevData g
      | Some it =>
          isInitialized p = true
          ∧ queueItem it = item
          ∧ avmInvocations new = [avmArgsOf (keyPair p) (prevData g) item]
          ∧ prevData g1 = prevDataAfter (prevData g) (result it)
      end.
Proof.
  unfold interpretItem.
  destruct (firstRun g) eqn:Hfirst.
  - unfold getActualTTL. eff_unfold. cbn.
    destruct (isInitialized p) eqn:Hinit; cbn.
    + match goal with
      | |- context [invokeAvm ?a ?q] =>
          destruct (invokeAvm_returns a q) as (r & p' & Hrun & Htr & Hi & Hk)
      end.
      cbn in *. rewrite Hrun.
      eexists _, _, _, _. split; [reflexivity|]. cbn.
      rewrite Htr, <- app_assoc. split; [reflexivity|].
      rewrite Hk. repeat split; try reflexivity; try congruence.
      destruct r as [ir|e]; cbn; [destruct (retCode ir =? 0)|]; reflexivity.
    + eexists _, _, _, _. split; [reflexivity|]. cbn.
      repeat split; try reflexivity; congruence.
  - eff_unfold. cbn.
    destruct (isInitialized p) eqn:Hinit; cbn.
    + match goal with
      | |- context [invokeAvm ?a ?q] =>
          destruct (invokeAvm_returns a q) as (r & p' & Hrun & Htr & Hi & Hk)
      end.
      cbn in *. rewrite Hrun.
      eexists _, _, _, _. split; [reflexivity|]. cbn.
      rewrite Htr. split; [reflexivity|].
      rewrite Hk. repeat split; try reflexivity; try congruence.
      destruct r as [ir|e]; cbn; [destruct (retCode ir =? 0)|]; reflexivity.
    + exists g, None, p, []. cbn. rewrite app_nil_r.
      repeat split; try reflexivity; congruence.
Qed.

(** The items of a group, one after the other. *)
Lemma runGroup_threaded (items : list ParticleQueueItem) :
  forall (g : GroupState) (p : Peer),
  exists g' outs (p' : Peer) new,
    runGroup g items p = (Returned (g', outs), p')
    ∧ trace p' = trace p ++ new
    ∧ isInitialized p' = isInitialized p
    ∧ threaded (prevData g) (avmInvocations new) (interpretationResults outs)
    ∧ prevData g'
      = fold_left prevDataAfter (interpretationResults outs) (prevData g).
Proof.
  induction items as [|item rest IH]; intros g p.
  - exists g, [], p, []. cbn. rewrite app_nil_r. repeat split; reflexivity.
  - destruct (interpretItem_step g item p)
      as (g1 & o & p1 & new1 & Hstep & Htr1 & Hi1 & _ & Ho).
    destruct (IH g1 p1) as (g2 & outs & p2 & new2 & Hrun & Htr2 & Hi2 & Hth & Hfin).
    exists g2, (o :: outs), p2, (new1 ++ new2).
    split.
    { cbn [runGroup]. rewrite (bind_returned _ _ _ _ _ Hstep). cbn [fst snd].
      rewrite (bind_returned _ _ _ _ _ Hrun). reflexivity. }
    split. { rewrite Htr2, Htr1, app_assoc. reflexivity. }
    split. { congruence. }
    rewrite avmInvocations_app.
    destruct o as [it|]; cbn [interpretationResults omap fmap option_fmap option_map].
    + destruct Ho as (_ & _ & Hinv & Hprev). rewrite Hinv. cbn.
      rewrite <- Hprev. repeat split; assumption.
    + destruct Ho as (_ & Hinv & Hprev). rewrite Hinv. cbn.
      rewrite <- Hprev. split; assumption.
Qed.

(** The call of the interpreter, with what the Marine host answered:
    the result is what the [try]/[catch] makes of the answer, and the
    host and the trace are all that changes. *)
Lemma invokeAvm_answer (a : AvmInvokeArgs) (p : Peer) :
  invokeAvm a p
  = (Returned
       (avmCallResultOf
          (fst (marine_callService "avm" "invoke" (serializeAvmArgs a)
                  (marineHost p)))),
     set_marineHost
       (snd (marine_callService "avm" "invoke" (serializeAvmArgs a)
               (marineHost p)))
       (set_trace
          (trace p ++ [MarineCallService "avm" "invoke" (serializeAvmArgs a)])
          p)).
Proof.
  unfold invokeAvm, avmCallResultOf. eff_unfold. cbn.
  destruct (marine_callService _ _ _ _) as [[v | e] m1]; cbn;
    [destruct (deserializeAvmResult v); cbn|]; reflexivity.
Qed.

(** One run of the body of [concatMap], with the answer of the Marine
    host. *)
Lemma interpretItem_answer (g : GroupState) (item : ParticleQueueItem)
    (p : Peer) :
  exists g1 o (p' : Peer) new,
    interpretItem g item p = (Returned (g1, o), p')
    ∧ trace p' = trace p ++ new
    ∧ isInitialized p' = isInitialized p
    ∧ keyPair p' = keyPair p
    ∧ match o with
      | None =>
          isInitialized p = false
          ∧ avmInvocations new = [] ∧ prevData g1 = prevData g
          ∧ marineHost p' = marineHost p
      | Some it =>
          let call :=
            marine_callService "avm" "invoke"
              (serializeAvmArgs (avmArgsOf (keyPair p) (prevData g) item))
              (marineHost p) in
          isInitialized p = true
          ∧ queueItem it = item
          ∧ avmInvocations new = [avmArgsOf (keyPair p) (prevData g) item]
          ∧ prevData g1 = prevDataAfter (prevData g) (result it)
          ∧ result it = avmCallResultOf (fst call)
          ∧ marineHost p' = snd call
      end.
Proof.
  unfold interpretItem.
  destruct (firstRun g) eqn:Hfirst.
  - unfold getActualTTL. eff_unfold. cbn.
    destruct (isInitialized p) eqn:Hinit; cbn.
    + rewrite invokeAvm_answer. cbn.
      eexists _, _, _, _. split; [reflexivity|]. cbn.
      rewrite <- app_assoc. split; [reflexivity|].
      repeat split; try reflexivity; try assumption.
      destruct (avmCallResultOf _) as [ir|e]; cbn;
        [destruct (retCode ir =? 0)|]; reflexivity.
    + eexists _, _, _, _. split; [reflexivity|]. cbn.
      repeat split; try reflexivity; congruence.
  - eff_unfold. cbn.
    destruct (isInitialized p) eqn:Hinit; cbn.
    + rewrite invokeAvm_answer. cbn.
      eexists _, _, _, _. split; [reflexivity|]. cbn.
      split; [reflexivity|].
      repeat split; try reflexivity; try assumption.
      destruct (avmCallResultOf _) as [ir|e]; cbn;
        [destruct (retCode ir =? 0)|]; reflexivity.
    + exists g, None, p, []. cbn. rewrite app_nil_r.
      repeat split; try reflexivity; congruence.
Qed.

Lemma replayAvm_cons (m : MS) a rest :
  replayAvm m (a :: rest)
  = (fst (marine_callService "avm" "invoke" (serializeAvmArgs a) m)
     :: fst (replayAvm
               (snd (marine_callService "avm" "invoke" (serializeAvmArgs a) m))
               rest),
     snd (replayAvm
            (snd (marine_callService "avm" "invoke" (serializeAvmArgs a) m))
            rest)).
Proof.
  cbn. destruct (marine_callService _ _ _ _) as [answer m1]. cbn.
  destruct (replayAvm m1 rest). reflexivity.
Qed.

(** The items of a group, one after the other, with the answers of the
    Marine host: the results attached to the items are what the
    [try]/[catch] makes of the answers the host gives to the invocations
    in the trace, and these invocations are all that happens to the
    host. *)
Lemma runGroup_answers (items : list ParticleQueueItem) :
  forall (g : GroupState) (p : Peer),
  exists g' outs (p' : Peer) new,
    runGroup g items p = (Returned (g', outs), p')
    ∧ trace p' = trace p ++ new
    ∧ isInitialized p' = isInitialized p
    ∧ threaded (prevData g) (avmInvocations new) (interpretationResults outs)
    ∧ prevData g'
      = fold_left prevDataAfter (interpretationResults outs) (prevData g)
    ∧ interpretationResults outs
      = map avmCallResultOf
          (fst (replayAvm (marineHost p) (avmInvocations new)))
    ∧ marineHost p' = snd (replayAvm (marineHost p) (avmInvocations new))
    ∧ (isInitialized p = true -> length (avmInvocations new) = length items).
Proof.
  induction items as [|item rest IH]; intros g p.
  - exists g, [], p, []. cbn. rewrite app_nil_r. repeat split; reflexivity.
  - destruct (interpretItem_answer g item p)
      as (g1 & o & p1 & new1 & Hstep & Htr1 & Hi1 & _ & Ho).
    destruct (IH g1 p1)
      as (g2 & outs & p2 & new2 & Hrun & Htr2 & Hi2 & Hth & Hfin & Hres
          & Hm & Hlen).
    exists g2, (o :: outs), p2, (new1 ++ new2).
    split.
    { cbn [runGroup]. rewrite (bind_returned _ _ _ _ _ Hstep). cbn [fst snd].
      rewrite (bind_returned _ _ _ _ _ Hrun). reflexivity. }
    split. { rewrite Htr2, Htr1, app_assoc. reflexivity. }
    split. { congruence. }
    rewrite avmInvocations_app.
    destruct o as [it|];
      cbn [interpretationResults omap fmap option_fmap option_map].
    + destruct Ho as (Hrunning & _ & Hinv & Hprev & Hit & Hm1).
      rewrite Hinv. cbn [app]. rewrite replayAvm_cons. cbn [fst snd map].
      rewrite <- Hm1. fold (interpretationResults outs).
      split. { cbn. rewrite <- Hprev. split; [reflexivity | exact Hth]. }
      split. { cbn. rewrite <- Hprev. exact Hfin. }
      split. { rewrite <- Hit, <- Hres. reflexivity. }
      split. { exact Hm. }
      intros _. cbn. f_equal. apply Hlen. congruence.
    + destruct Ho as (Hstopped & Hinv & Hprev & Hm1).
      rewrite Hinv. cbn [app]. rewrite <- Hm1. fold (interpretationResults outs).
      rewrite <- Hprev.
      split; [exact Hth|]. split; [exact Hfin|]. split; [exact Hres|].
      split; [exact Hm|]. intros Hrunning. congruence.
Qed.

(** C2: within one signature group the interpreter is invoked for the
    items one after the other, once for each item on a running peer, and
    these invocations are all that happens to the Marine host. The result
    attached to an item is what came of its invocation: the deserialized
    answer of the Marine host, or the error when the call or the
    deserialization threw. The first invocation observes the group's
    [prevData], and every next one observes the data returned by the
    invocation before it when that one returned with [retCode = 0], and
    otherwise (the invocation threw, or returned another [retCode])
    exactly the [prevData] that invocation observed. The group's
    [prevData] at the end follows the same rule. *)
Theorem prevData_updated_only_on_success
    (g : GroupState) (items : list ParticleQueueItem) (p : Peer) :
  exists g' outs (p' : Peer) new,
    runGroup g items p = (Returned (g', outs), p')
    ∧ trace p' = trace p ++ new
    ∧ length (avmInvocations new) = length (interpretationResults outs)
    ∧ (forall a, avmInvocations new !! 0%nat = Some a ->
         avmPrevData a = prevData g)
    ∧ (forall i a ra b,
         avmInvocations new !! i = Some a ->
         interpretationResults outs !! i = Some ra ->
         avmInvocations new !! S i = Some b ->
         avmPrevData b
         = match ra with
           | AvmResult r =>
               if retCode r =? 0 then irData r else avmPrevData a
           | AvmError _ => avmPrevData a
           end)
    ∧ prevData g'
      = fold_left
          (fun observed ra =>
             match ra with
             | AvmResult r => if retCode r =? 0 then irData r else observed
             | AvmError _ => observed
             end)
          (interpretationResults outs) (prevData g)
    ∧ interpretationResults outs
      = map avmCallResultOf
          (fst (replayAvm (marineHost p) (avmInvocations new)))
    ∧ marineHost p' = snd (replayAvm (marineHost p) (avmInvocations new))
    ∧ (forall i a answer b,
         avmInvocations new !! i = Some a ->
         fst (replayAvm (marineHost p) (avmInvocations new)) !! i
           = Some answer ->
         avmInvocations new !! S i = Some b ->
         avmPrevData b
         = match answer with
           | Returned res =>
               match deserializeAvmResult res with
               | Returned r =>
                   if retCode r =? 0 then irData r else avmPrevData a
               | Threw _ => avmPrevData a
               end
           | Threw _ => avmPrevData a
           end)
    ∧ (isInitialized p = true ->
       length (avmInvocations new) = length items).
Proof.
  destruct (runGroup_answers items g p)
    as (g' & outs & p' & new & Hrun & Htr & _ & Hth & Hfin & Hres & Hm & Hlen).
  exists g', outs, p', new. repeat split; try assumption.
  - eapply threaded_length, Hth.
  - intros a. eapply threaded_first, Hth.
  - intros i a ra b Ha Hr Hb.
    exact (threaded_consecutive _ _ _ _ _ _ _ Hth Ha Hr Hb).
  - intros i a answer b Ha Hanswer Hb.
    assert (Hr : interpretationResults outs !! i
                 = Some (avmCallResultOf answer)).
    { rewrite Hres, list_lookup_fmap, Hanswer. reflexivity. }
    rewrite (threaded_consecutive _ _ _ _ _ _ _ Hth Ha Hr Hb).
    unfold avmCallResultOf, prevDataAfter.
    destruct answer as [res|e]; [|reflexivity].
    destruct (deserializeAvmResult res); reflexivity.
Qed.

(** C4: a dispatched item, that is an item that the interpretation stage
    has given a result and the second expiration filter has let through,
    whose result is an [Error], or an [InterpreterResult] with a [retCode]
    other than [0], has its [onError] called once, with an
    [InterpreterError] whose message carries the interpreter's message
    and the particle id; nothing else happens: the only change to the peer
    is that one call in the trace, so no particle is sent and no call
    request is executed. *)
Theorem dispatch_interpreter_failure_is_terminal
    (g g1 : GroupState) (item : ParticleQueueItem) (it kept : InterpretedItem)
    (p p1 p2 : Peer) (msg : string) :
  interpretItem g item p = (Returned (g1, Some it), p1) ->
  filterExpiredParticles queueItem (fun i => _expireParticle (queueItem i)) it p1
    = (Returned (Some kept), p2) ->
  (exists e, result kept = AvmError e ∧ msg = message e)
  ∨ (exists r, result kept = AvmResult r ∧ retCode r ≠ 0
               ∧ msg = errorMessage r) ->
  kept = it
  ∧ queueItem kept = item
  ∧ dispatch kept p2
    = (Returned tt,
       set_trace
         (trace p2
          ++ [CallOnError (onError item)
                (mkError InterpreterError
                   ("Script interpretation failed: " +:+ msg
                    +:+ "  (particle id: "
                    +:+ Particle.id (particle item) +:+ ")"))])
         p2).
Proof.
  intros Hinterp Hfilter Hfail.
  destruct (interpretItem_step g item p)
    as (g1' & o & p1' & new & Hstep & _ & Hflag & _ & Ho).
  rewrite Hinterp in Hstep. injection Hstep as <- <- <-.
  destruct Ho as (Hrunning & Hitem & _).
  destruct (filterExpiredParticles_keeps_flag _ _ _ _ _ Hfilter)
    as (Hflag2 & Hsame).
  specialize (Hsame kept eq_refl). subst kept.
  split; [reflexivity|]. split; [exact Hitem|].
  rewrite <- Hitem.
  apply dispatch_failure_on_running_peer; [congruence | exact Hfail].
Qed.

End InterpretationFacts.

(** The rule on a scripted interpreter: the [prevData] that the five
    invocations observe. *)
Example prevData_observed_by_scripted_run :
  map avmPrevData
    (avmInvocations
       (trace (snd (runGroup newGroup DemoRun.fiveItems
                      DemoRun.interpretingPeer))))
  = [[]; list_byte_of_string "A"; list_byte_of_string "A";
     list_byte_of_string "A"; list_byte_of_string "C"].
Proof. vm_compute. reflexivity. Qed.

Lemma prevData_scripted_run_witness :
  exists g' outs
    (p' : FluencePeer Demo.Marine JsServiceHost.t Demo.Connection) new,
    runGroup newGroup DemoRun.fiveItems DemoRun.interpretingPeer
      = (Returned (g', outs), p')
    ∧ trace p' = trace DemoRun.interpretingPeer ++ new
    ∧ length (avmInvocations new) = length (interpretationResults outs)
    ∧ (forall a, avmInvocations new !! 0%nat = Some a ->
         avmPrevData a = prevData newGroup)
    ∧ (forall i a ra b,
         avmInvocations new !! i = Some a ->
         interpretationResults outs !! i = Some ra ->
         avmInvocations new !! S i = Some b ->
         avmPrevData b
         = match ra with
           | AvmResult r =>
               if retCode r =? 0 then irData r else avmPrevData a
           | AvmError _ => avmPrevData a
           end)
    ∧ prevData g'
      = fold_left
          (fun observed ra =>
             match ra with
             | AvmResult r => if retCode r =? 0 then irData r else observed
             | AvmError _ => observed
             end)
          (interpretationResults outs) (prevData newGroup)
    ∧ interpretationResults outs
      = map avmCallResultOf
          (fst (replayAvm (marineHost DemoRun.interpretingPeer)
                  (avmInvocations new)))
    ∧ marineHost p'
      = snd (replayAvm (marineHost DemoRun.interpretingPeer)
               (avmInvocations new))
    ∧ (forall i a answer b,
         avmInvocations new !! i = Some a ->
         fst (replayAvm (marineHost DemoRun.interpretingPeer)
                (avmInvocations new)) !! i
           = Some answer ->
         avmInvocations new !! S i = Some b ->
         avmPrevData b
         = match answer with
           | Returned res =>
               match deserializeAvmResult res with
               | Returned r =>
                   if retCode r =? 0 then irData r else avmPrevData a
               | Threw _ => avmPrevData a
               end
           | Threw _ => avmPrevData a
           end)
    ∧ (isInitialized DemoRun.interpretingPeer = true ->
       length (avmInvocations new) = length DemoRun.fiveItems).
Proof.
  exact (prevData_updated_only_on_success newGroup DemoRun.fiveItems
           DemoRun.interpretingPeer).
Defined.

(** The same run read from the side of the Marine host: the four
    scripted answers are consumed, and the results attached to the five
    items are what the [try]/[catch] makes of them and of the failure of
    the fifth call. *)
Example results_follow_interpreter_answers :
  let r := runGroup newGroup DemoRun.fiveItems DemoRun.interpretingPeer in
  Demo.answers (marineHost (snd r)) = []
  ∧ match fst r with
    | Returned (g', outs) =>
        interpretationResults outs
        = [AvmResult (mkInterpreterResult 0 "ok" (list_byte_of_string "A") [] []);
           AvmResult (mkInterpreterResult 1 "failed" (list_byte_of_string "B")
                        [] []);
           AvmError (mkError PlainError "worker crashed");
           AvmResult (mkInterpreterResult 0 "ok" (list_byte_of_string "C") [] []);
           AvmError (mkError PlainError "no scripted answer")]
        ∧ prevData g' = list_byte_of_string "C"
    | Threw _ => False
    end.
Proof. vm_compute. repeat split. Qed.

(** ** Expiration *)

Section ExpirationFacts.
Context {MS CS : Type}.
Context `{!IMarineHost MS} `{!IConnection CS} `{!Externals}.

Local Abbreviation Peer := (FluencePeer MS JsServiceHost.t CS).

(** Once past its time to live, a particle stays so on a clock that does
    not run backwards. *)
Lemma hasExpiredAt_mono (now now' : Z) (part : Particle.IParticle) :
  now <= now' ->
  Particle.hasExpiredAt now part = true ->
  Particle.hasExpiredAt now' part = true.
Proof.
  unfold Particle.hasExpiredAt. intros Hle Hexp.
  apply Z.ltb_lt in Hexp. apply Z.ltb_lt. lia.
Qed.

(** C7: an item whose particle has expired when an expiration filter
    looks at it, be it the filter before the interpretation or the one
    after the invocation of the interpreter (the item then carries a
    result [r]), is handed to [_expireParticle]: the handlers of the
    particle's scope are removed from the JS service host, those of other
    particles stay, and the item's [onError] is called with an
    [ExpirationError] whose message names the ttl and the particle id.
    The filter drops the item: nothing else is added to the trace, so
    there is neither an interpretation nor a dispatch for it. The clock is
    read twice by the filter and must not run backwards in between. *)
Theorem expired_item_is_reported_and_dropped
    (p : Peer) (item : ParticleQueueItem) (g : GroupState) (r : AvmCallResult) :
  Particle.hasExpiredAt (dateNow p (clockReads p)) (particle item) = true ->
  dateNow p (clockReads p) <= dateNow p (S (clockReads p)) ->
  exists p' : Peer,
    processItem g item p = (Returned g, p')
    ∧ afterInterpretation (Some (mkInterpretedItem item r)) p = (Returned tt, p')
    ∧ trace p'
      = trace p
        ++ [JsRemoveParticleScopeHandlers (Particle.id (particle item));
            CallOnError (onError item)
              (mkError ExpirationError
                 ("Particle expired after ttl of "
                  +:+ numberToString (Particle.ttl (particle item))
                  +:+ "ms (particle id: " +:+ Particle.id (particle item)
                  +:+ ")"))]
    ∧ JsServiceHost.particleHandlers (jsServiceHost p')
        !! Particle.id (particle item) = None
    ∧ (forall other, other ≠ Particle.id (particle item) ->
         JsServiceHost.particleHandlers (jsServiceHost p') !! other
         = JsServiceHost.particleHandlers (jsServiceHost p) !! other)
    ∧ JsServiceHost.globalHandlers (jsServiceHost p')
      = JsServiceHost.globalHandlers (jsServiceHost p)
    ∧ marineHost p' = marineHost p
    ∧ connection p' = connection p
    ∧ _incomingParticles p' = _incomingParticles p.
Proof.
  intros Hexp Hclock.
  pose proof (hasExpiredAt_mono _ _ _ Hclock Hexp) as Hexp'.
  unfold processItem, afterInterpretation, filterExpiredParticles,
    hasExpired, _expireParticle.
  eff_unfold. cbn. rewrite Hexp. cbn. rewrite Hexp'. cbn.
  eexists. split; [reflexivity|]. split; [reflexivity|]. cbn.
  rewrite <- app_assoc. repeat split; try reflexivity.
  - apply lookup_delete_eq.
  - intros other Hne. apply lookup_delete_ne. congruence.
Qed.

End ExpirationFacts.

Lemma expired_item_witness :
  exists p' : FluencePeer Demo.Marine JsServiceHost.t Demo.Connection,
    processItem newGroup Demo.staleItem DemoRun.peerWithScopes
      = (Returned newGroup, p')
    ∧ afterInterpretation
        (Some (mkInterpretedItem Demo.staleItem
                 (AvmError (mkError PlainError "late"))))
        DemoRun.peerWithScopes = (Returned tt, p')
    ∧ trace p'
      = trace DemoRun.peerWithScopes
        ++ [JsRemoveParticleScopeHandlers "particle-8";
            CallOnError (CallerError 2)
              (mkError ExpirationError
                 ("Particle expired after ttl of " +:+ numberToString 50
                  +:+ "ms (particle id: " +:+ "particle-8" +:+ ")"))]
    ∧ JsServiceHost.particleHandlers (jsServiceHost p') !! "particle-8" = None
    ∧ (forall other, other ≠ "particle-8" ->
         JsServiceHost.particleHandlers (jsServiceHost p') !! other
         = JsServiceHost.particleHandlers (jsServiceHost DemoRun.peerWithScopes)
             !! other)
    ∧ JsServiceHost.globalHandlers (jsServiceHost p')
      = JsServiceHost.globalHandlers (jsServiceHost DemoRun.peerWithScopes)
    ∧ marineHost p' = marineHost DemoRun.peerWithScopes
    ∧ connection p' = connection DemoRun.peerWithScopes
    ∧ _incomingParticles p' = _incomingParticles DemoRun.peerWithScopes.
Proof.
  apply (expired_item_is_reported_and_dropped DemoRun.peerWithScopes
           Demo.staleItem newGroup (AvmError (mkError PlainError "late")));
    vm_compute; [reflexivity | discriminate].
Defined.

(** The message of that demonstration, and the scope that is left. *)
Example expiration_message_of_stale_item :
  expirationMessage Demo.staleParticle
  = "Particle expired after ttl of 50ms (particle id: particle-8)".
Proof. vm_compute. reflexivity. Qed.

(** ** [callAquaFunction] *)


Section CallFunctionFacts.
Context {MS JS CS : Type}.
Context `{!IMarineHost MS} `{!IJsServiceHost JS} `{!IConnection CS}.
Context `{!Externals}.

Local Abbreviation Peer := (FluencePeer MS JS CS).




End CallFunctionFacts.

(** ** The claims on the demonstration peers *)

Lemma dispatch_failure_witness :
  DemoCalls.failedItem = DemoCalls.failedItem
  ∧ queueItem DemoCalls.failedItem = Demo.someItem
  ∧ dispatch DemoCalls.failedItem DemoCalls.peerAfterRefilter
    = (Returned tt,
       set_trace
         (trace DemoCalls.peerAfterRefilter
          ++ [CallOnError (onError Demo.someItem)
                (mkError InterpreterError
                   ("Script interpretation failed: " +:+ "boom"
                    +:+ "  (particle id: "
                    +:+ Particle.id (particle Demo.someItem) +:+ ")"))])
         DemoCalls.peerAfterRefilter).
Proof.
  apply (dispatch_interpreter_failure_is_terminal newGroup
           (mkGroupState [] false) Demo.someItem DemoCalls.failedItem
           DemoCalls.failedItem DemoCalls.crashingPeer
           DemoCalls.peerAfterCrash DemoCalls.peerAfterRefilter "boom").
  - vm_compute. reflexivity.
  - vm_compute. reflexivity.
  - left. exists (mkError PlainError "boom"). split; reflexivity.
Defined.

(** The trace of that item through the pipeline: the timer of the group,
    the invocation that crashes, the call of [onError]. *)
Example trace_of_crashed_interpretation :
  trace (snd (processItem newGroup Demo.someItem DemoCalls.crashingPeer))
  = trace DemoCalls.crashingPeer
    ++ [SetTimeout Demo.someItem 6898;
        MarineCallService "avm" "invoke"
          (serializeAvmArgs
             (avmArgsOf Demo.keys [] Demo.someItem));
        CallOnError (CallerError 1)
          (mkError InterpreterError
             "Script interpretation failed: boom  (particle id: particle-7)")].
Proof. vm_compute. reflexivity. Qed.

Lemma resolution_order_witness :
  (exists p' : FluencePeer Demo.Marine JsServiceHost.t Demo.Connection,
     execCallRequest DemoCalls.greetingCall DemoCalls.servingPeer
       = (Returned (mkCallServiceResult success (JString "hi")), p')
     ∧ trace p' = trace DemoCalls.servingPeer
                  ++ [MarineHasService "greeting";
                      MarineCallService "greeting" "hello"
                        (JsonArgs [JString "x"])]
     ∧ marineHost p' = Demo.mkMarine ["greeting"] [] true
     ∧ jsServiceHost p' = jsServiceHost DemoCalls.servingPeer)
  ∧ (exists p' : FluencePeer Demo.Marine JsServiceHost.t Demo.Connection,
       execCallRequest DemoCalls.unknownCall DemoCalls.servingPeer
         = (Returned
              (mkCallServiceResult error
                 (JString
                    ("No service found for service call: serviceId='"
                     +:+ "nowhere" +:+ "', fnName='" +:+ "nope"
                     +:+ "' args='" +:+ jsonify (JArray [JNumber 1])
                     +:+ "'"))), p')
       ∧ trace p' = trace DemoCalls.servingPeer
                    ++ [MarineHasService "nowhere";
                        JsCallService DemoCalls.unknownCall]
       ∧ marineHost p' = marineHost DemoCalls.servingPeer
       ∧ jsServiceHost p' = jsServiceHost DemoCalls.servingPeer)
  ∧ (exists p' : FluencePeer Demo.Marine JsServiceHost.t Demo.Connection,
       execCallRequest DemoCalls.greetingCall DemoCalls.silentPeer
         = (Returned
              (mkCallServiceResult error
                 (JString
                    ("Service call failed. fnName=" +:+ dquote +:+ "hello"
                     +:+ dquote +:+ " serviceId=" +:+ dquote +:+ "greeting"
                     +:+ dquote +:+ " error: " +:+ "no scripted answer"))),
            p')).
Proof.
  pose proof (execCallRequest_resolution_order DemoCalls.greetingCall
                DemoCalls.servingPeer) as (Hmarine & _ & _).
  pose proof (execCallRequest_resolution_order DemoCalls.unknownCall
                DemoCalls.servingPeer) as (_ & Hjs & _).
  pose proof (execCallRequest_resolution_order DemoCalls.greetingCall
                DemoCalls.silentPeer) as (_ & _ & Hthrow).
  split; [|split].
  - apply (Hmarine (Demo.mkMarine ["greeting"] [Returned (JString "hi")] true));
      reflexivity.
  - apply (Hjs (marineHost DemoCalls.servingPeer) None
             (jsServiceHost DemoCalls.servingPeer));
      vm_compute; reflexivity.
  - apply (Hthrow (newError "no scripted answer")).
    right. left. exists (Demo.mkMarine ["greeting"] [] true),
                   (Demo.mkMarine ["greeting"] [] true).
    split; reflexivity.
Defined.

Lemma reenqueue_witness :
  (exists res (p1 : FluencePeer Demo.Marine JsServiceHost.t Demo.Connection),
     execCallRequest
       (requestOf DemoCalls.answeredItem DemoCalls.responseRequest)
       DemoCalls.servingPeer = (Returned res, p1)
     ∧ _incomingParticles p1 = _incomingParticles DemoCalls.servingPeer
     ∧ handleCallRequest DemoCalls.answeredItem (1, DemoCalls.responseRequest)
         DemoCalls.servingPeer = (Returned tt, p1))
  ∧ (exists res (p1 : FluencePeer Demo.Marine JsServiceHost.t Demo.Connection),
       execCallRequest
         (requestOf DemoCalls.answeredItem DemoCalls.dataRequest)
         DemoCalls.servingPeer = (Returned res, p1)
       ∧ _incomingParticles p1 = _incomingParticles DemoCalls.servingPeer
       ∧ handleCallRequest DemoCalls.answeredItem (2, DemoCalls.dataRequest)
           DemoCalls.servingPeer
         = (Returned tt,
            set_incomingParticles
              (_incomingParticles p1
               ++ [mkQueueItem
                     (Particle.cloneWithNewData Demo.someParticle [])
                     [(2, mkCallResult (jsonify (csrResult res))
                            (csrRetCode res))]
                     (CallerSuccess 1) (CallerError 1)])
              (set_trace
                 (trace p1
                  ++ [IncomingNext
                        (mkQueueItem
                           (Particle.cloneWithNewData Demo.someParticle [])
                           [(2, mkCallResult (jsonify (csrResult res))
                                  (csrRetCode res))]
                           (CallerSuccess 1) (CallerError 1))])
                 p1))).
Proof.
  split.
  - destruct (call_request_result_is_reenqueued DemoCalls.answeredItem 1
                DemoCalls.responseRequest DemoCalls.servingPeer)
      as (res & p1 & Hexec & Hqueue & Hresponse & _).
    exists res, p1. repeat split; try assumption.
    apply Hresponse. split; reflexivity.
  - destruct (call_request_result_is_reenqueued DemoCalls.answeredItem 2
                DemoCalls.dataRequest DemoCalls.servingPeer)
      as (res & p1 & Hexec & Hqueue & _ & Hother).
    exists res, p1. repeat split; try assumption.
    apply Hother. intros [Hsid _]. discriminate Hsid.
Defined.

(** What the demonstration peer has in its queue after the dispatch of the
    answered item: the [response] request leaves nothing, the other one
    comes back with the value of [getDataSrv.x]. *)
Example queue_after_dispatch :
  _incomingParticles (snd (dispatch DemoCalls.answeredItem DemoCalls.servingPeer))
  = [mkQueueItem (Particle.cloneWithNewData Demo.someParticle [])
       [(2, mkCallResult "42" success)] (CallerSuccess 1) (CallerError 1)].
Proof. vm_compute. reflexivity. Qed.



(** The whole call on the demonstration peer: the promise, the queue and
    the scope of the new particle. *)
Example callAquaFunction_run :
  let r := callAquaFunction "(null)" None DemoCalls.demoArgs None
             DemoCalls.servingPeer in
  fst r = Returned 0%nat
  ∧ _incomingParticles (snd r)
    = [mkQueueItem
         (Particle.mkParticle "particle-1" "12D3KooWClient" 1000 7000
            "(null)" [] [])
         [] (PromiseResolve 0) (PromiseReject 0)]
  ∧ (JsServiceHost.particleHandlers (jsServiceHost (snd r)) !! "particle-1")
      ≫= (fun scope => scope !! ("callbackSrv", "response"))
    = Some (ResponseHandler (PromiseResolve 0)).
Proof. vm_compute. repeat split. Qed.

(** ** The JS service host of the specification *)

(** A service id is taken as soon as one function is registered under
    it. *)
Lemma hasService_after_registerGlobalHandler sid fn h (s : JsServiceHost.t) :
  JsServiceHost.hasService sid (JsServiceHost.registerGlobalHandler sid fn h s)
  = true.
Proof.
  unfold JsServiceHost.hasService, JsServiceHost.registerGlobalHandler,
    JsServiceHost.servesIn. cbn.
  apply orb_true_intro. left. apply bool_decide_eq_true.
  apply Exists_exists. exists (sid, fn). split; [|reflexivity].
  apply list_elem_of_fmap. exists ((sid, fn), h). split; [reflexivity|].
  apply elem_of_map_to_list, lookup_insert_eq.
Qed.

(** A handler of the particle's scope shadows the global one. *)
Lemma particle_scope_handler_shadows_global
    (req : CallServiceData) (h : Handler) (s : JsServiceHost.t) :
  JsServiceHost.findHandler req
    (JsServiceHost.registerParticleScopeHandler
       (pcParticleId (particleContext req)) (serviceId req) (fnName req) h s)
  = Some h.
Proof.
  unfold JsServiceHost.findHandler, JsServiceHost.registerParticleScopeHandler.
  cbn. rewrite lookup_insert_eq, lookup_insert_eq. reflexivity.
Qed.

(** What the handlers built by [callAquaFunction] do when they are
    called. *)
Lemma injected_value_is_returned v req (s : JsServiceHost.t) :
  JsServiceHost.runHandler (InjectValue v) req s
  = (Returned (mkCallServiceResult success v), []).
Proof. reflexivity. Qed.

Lemma response_resolves_with_first_argument resolve req a rest
    (s : JsServiceHost.t) :
  args req = a :: rest ->
  snd (JsServiceHost.runHandler (ResponseHandler resolve) req s)
  = [JsServiceHost.Resolved resolve a].
Proof.
  intros Hargs. unfold JsServiceHost.runHandler, JsServiceHost.firstArgument.
  rewrite Hargs. reflexivity.
Qed.

(** * Further properties of the code *)

(** ** Waiting for the client library *)

Module LoadClientFacts.
Import LoadClient.

Section Facts.
Context {I : Type}.

Lemma run_app (a b : list (option I)) (s : Poll I) :
  run (a ++ b) s = run b (run a s).
Proof. unfold run. apply fold_left_app. Qed.

(** With the interval cleared the timer does nothing more. *)
Lemma run_cleared (reads : list (option I)) (s : Poll I) :
  intervalSet s = false -> run reads s = s.
Proof.
  revert s. induction reads as [|r reads IH]; intros s Hs; [reflexivity|].
  cbn. unfold tick at 2. rewrite Hs. apply IH, Hs.
Qed.

(** While the global object stays empty and [hits] is not used up, a
    period only counts down. *)
Lemma run_waiting (n : nat) (h : Z) :
  Z.of_nat n <= h ->
  run (replicate n (@None I)) (mkPoll h true None)
  = mkPoll (h - Z.of_nat n) true None.
Proof.
  revert h. induction n as [|n IH]; intros h Hn.
  - cbn. f_equal. lia.
  - cbn [replicate run fold_left]. unfold tick at 2, callback. cbn.
    destruct (Z.eqb_spec h 0) as [-> | Hne]; [lia|].
    cbn. fold (run (replicate n (@None I)) (mkPoll (h - 1) true None)).
    rewrite IH by lia. f_equal. lia.
Qed.

(** X1: when the interface shows up in the global object at one of the
    first fifty periods of the timer, after [k < 50] periods without it,
    the promise is resolved with the interface found then, the interval
    is cleared, and nothing that the global object holds later changes
    the outcome. *)
Theorem interface_found_in_time_resolves
    (k : nat) (v : I) (later : list (option I)) :
  (k < 50)%nat ->
  run (replicate k None ++ Some v :: later) initialPoll
  = mkPoll (49 - Z.of_nat k) false (Some (Resolved v)).
Proof.
  intros Hk. rewrite run_app. unfold initialPoll.
  change (POLL_PEER_TIMEOUT / POLL_PEER_INTERVAL) with 50.
  rewrite run_waiting by lia.
  change (run (Some v :: later) ?s) with (run later (tick (Some v) s)).
  unfold tick, callback. cbn.
  destruct (Z.eqb_spec (50 - Z.of_nat k) 0) as [Heq | _]; [lia|].
  cbn. rewrite run_cleared by reflexivity. f_equal. lia.
Qed.

(** X2: when the global object is empty at each of the first fifty
    periods, the promise is rejected with [REJECT_MESSAGE] at the
    fifty-first, one period after [POLL_PEER_TIMEOUT] has passed, also
    when the interface is there at that very period: the rejection comes
    first and the promise keeps it. *)
Theorem interface_missing_rejects_at_period_51
    (last : option I) (later : list (option I)) :
  run (replicate 50 None ++ last :: later) initialPoll
  = mkPoll (-1) false (Some (Rejected REJECT_MESSAGE)).
Proof.
  rewrite run_app. unfold initialPoll.
  change (POLL_PEER_TIMEOUT / POLL_PEER_INTERVAL) with 50.
  rewrite run_waiting by lia.
  change (run (last :: later) ?s) with (run later (tick last s)).
  unfold tick, callback. cbn.
  destruct last as [v|]; cbn; rewrite run_cleared by reflexivity; reflexivity.
Qed.

Lemma tick_keeps_invariant (n : nat) (r : option I) (s : Poll I) :
  pollInvariant n s -> pollInvariant (S n) (tick r s).
Proof.
  intros [(Hset & Hp & Hh & Hpos) | (Hset & Hp & Hh)].
  - unfold tick, callback. rewrite Hset.
    destruct s as [h i p]. cbn in *. subst i p.
    destruct (Z.eqb_spec h 0) as [-> | Hne]; destruct r as [v|]; cbn.
    + right. cbn. repeat split; [discriminate | lia].
    + right. cbn. repeat split; [discriminate | lia].
    + right. cbn. repeat split; [discriminate | lia].
    + left. cbn. repeat split; lia.
  - unfold tick. rewrite Hset. right. repeat split; assumption.
Qed.

Lemma run_keeps_invariant (reads : list (option I)) :
  forall (n : nat) (s : Poll I),
    pollInvariant n s -> pollInvariant (n + length reads) (run reads s).
Proof.
  induction reads as [|r reads IH]; intros n s Hinv.
  - cbn. rewrite Nat.add_0_r. exact Hinv.
  - cbn [length]. rewrite Nat.add_succ_r.
    change (run (r :: reads) s) with (run reads (tick r s)).
    apply (IH (S n)), tick_keeps_invariant, Hinv.
Qed.

(** X3: whatever the global object holds from period to period, the
    interval is set exactly as long as the promise is pending; while it
    is, [hits] is fifty less the number of periods gone; and after
    fifty-one periods the promise is settled and the timer is off, so the
    callback never runs more than fifty-one times. *)
Theorem poll_settles_within_51_periods (reads : list (option I)) :
  let s := run reads initialPoll in
  (intervalSet s = true <-> promise s = None)
  ∧ (promise s = None -> hits s = 50 - Z.of_nat (length reads))
  ∧ ((51 <= length reads)%nat -> promise s ≠ None ∧ intervalSet s = false)
  ∧ -1 <= hits s.
Proof.
  intros s.
  assert (Hinv : pollInvariant (length reads) s).
  { apply (run_keeps_invariant reads 0 initialPoll).
    left. split; [reflexivity|]. split; [reflexivity|].
    split; [reflexivity|]. unfold initialPoll. cbn [hits].
    change (POLL_PEER_TIMEOUT / POLL_PEER_INTERVAL) with 50. lia. }
  destruct Hinv as [(Hset & Hp & Hh & Hpos) | (Hset & Hp & Hh)].
  - split; [tauto|]. split; [intros _; exact Hh|].
    split; [intros Hn; exfalso; lia | lia].
  - split; [split; intros Hs; congruence|].
    split; [intros Hnone; contradiction|].
    split; [intros _; split; assumption | exact Hh].
Qed.

End Facts.

Lemma interface_found_in_time_witness :
  run (replicate 3 None ++ Some "fluence" :: [None; Some "other"]) initialPoll
  = mkPoll (49 - Z.of_nat 3) false (Some (Resolved "fluence")).
Proof.
  apply (interface_found_in_time_resolves 3 "fluence" [None; Some "other"]).
  lia.
Defined.

End LoadClientFacts.

(** ** The relay connection *)

Module RelayConnectionMore.
Import RelayConnection.

Section Facts.
Context {L : Type} `{Libp2p L}.

(** The lists the guard of [sendParticle] turns away. *)
Lemma sendParticle_rejects_iff relay (ids : list PeerIdB58) :
  sendParticle_rejects relay ids = true <->
  ids = [] ∨ ((2 <= length ids)%nat ∧ ids !! 0%nat ≠ Some relay).
Proof.
  unfold sendParticle_rejects.
  rewrite andb_true_iff, negb_true_iff, Nat.eqb_neq, bool_decide_eq_true.
  destruct ids as [|a [|b rest]]; cbn; split.
  - intros _. left. reflexivity.
  - intros _. split; [lia | discriminate].
  - intros [Hlen _]. contradiction.
  - intros [Hnil | [Hlen _]]; [discriminate | lia].
  - intros [_ Hhead]. right. split; [lia | exact Hhead].
  - intros [Hnil | [_ Hhead]]; [discriminate|]. split; [lia | exact Hhead].
Qed.

(** X4: [sendParticle] turns away the empty list and every list of two
    or more peer ids whose first is not the relay's. It then throws the
    error that quotes the list, and the connection is left as it was:
    the relay is not dialed and nothing is written. Every other list gets
    as far as the dial. *)
Theorem sendParticle_rejection_leaves_connection_untouched
    stringify (c : RelayConnection L) (ids : list PeerIdB58) particle :
  (ids = [] ∨ ((2 <= length ids)%nat ∧ ids !! 0%nat ≠ Some (relayPeerId c)) ->
   sendParticle stringify ids particle c
   = (Threw
        (newError
           ("Relay connection only accepts peer id of the connected relay. Got: "
            +:+ stringify ids +:+ " instead.")), c))
  ∧ (¬ (ids = [] ∨ ((2 <= length ids)%nat
                    ∧ ids !! 0%nat ≠ Some (relayPeerId c))) ->
     exists rest,
       rcTrace (snd (sendParticle stringify ids particle c))
       = rcTrace c ++ RcDialProtocol (_relayAddress c) PROTOCOL_NAME :: rest).
Proof.
  split; intros Hids.
  - apply sendParticle_rejects_iff in Hids.
    unfold sendParticle, bind, gets. rewrite Hids. reflexivity.
  - assert (Hacc : sendParticle_rejects (relayPeerId c) ids = false).
    { destruct (sendParticle_rejects (relayPeerId c) ids) eqn:Hr;
        [|reflexivity].
      apply sendParticle_rejects_iff in Hr. contradiction. }
    unfold sendParticle, bind, gets, rcDialProtocol, rcLog, modify, bind.
    rewrite Hacc. cbn.
    destruct (dialProtocol _ _ _) as [[s | e] l']; cbn.
    + eexists. rewrite <- app_assoc. reflexivity.
    + exists []. reflexivity.
Qed.

(** X5: when the guard lets the list through and the dial of the relay
    fails, [sendParticle] fails with what the dial threw, and nothing is
    written to any stream: the dial is the only entry added to the
    trace. *)
Theorem sendParticle_dial_failure_writes_nothing
    stringify (c : RelayConnection L) (ids : list PeerIdB58) particle e l' :
  sendParticle_rejects (relayPeerId c) ids = false ->
  dialProtocol (_relayAddress c) PROTOCOL_NAME (_lib2p2Peer c) = (Threw e, l') ->
  sendParticle stringify ids particle c
  = (Threw e,
     mkRelayConnection (peerId c) l' (_relayAddress c) (relayPeerId c)
       (rcTrace c ++ [RcDialProtocol (_relayAddress c) PROTOCOL_NAME])).
Proof.
  intros Hacc Hdial.
  unfold sendParticle, bind, gets, rcDialProtocol, rcLog, modify, bind.
  rewrite Hacc. cbn. rewrite Hdial. reflexivity.
Qed.

End Facts.

Lemma sendParticle_rejection_witness :
  sendParticle demoStringify ["12D3KooWA"; "12D3KooWB"] "particle"
    demoConnection
  = (Threw
       (newError
          ("Relay connection only accepts peer id of the connected relay. Got: "
           +:+ demoStringify ["12D3KooWA"; "12D3KooWB"] +:+ " instead.")),
     demoConnection)
  ∧ exists rest,
      rcTrace (snd (sendParticle demoStringify ["12D3KooWRelay"] "particle"
                      demoConnection))
      = rcTrace demoConnection
        ++ RcDialProtocol (_relayAddress demoConnection) PROTOCOL_NAME :: rest.
Proof.
  split.
  - apply (proj1 (sendParticle_rejection_leaves_connection_untouched
                    demoStringify demoConnection ["12D3KooWA"; "12D3KooWB"]
                    "particle")).
    right. split; [cbn; lia | discriminate].
  - apply (proj2 (sendParticle_rejection_leaves_connection_untouched
                    demoStringify demoConnection ["12D3KooWRelay"]
                    "particle")).
    intros [Hnil | [Hlen _]]; [discriminate | cbn in Hlen; lia].
Defined.

Lemma sendParticle_dial_failure_witness :
  sendParticle demoStringify ["12D3KooWRelay"] "particle"
    RelayConnectionDemo.unreachableConnection
  = (Threw (newError "dial timeout"),
     mkRelayConnection "12D3KooWClient" false "/dns4/relay/tcp/9000/wss"
       "12D3KooWRelay"
       ([] ++ [RcDialProtocol "/dns4/relay/tcp/9000/wss" PROTOCOL_NAME])).
Proof.
  apply (sendParticle_dial_failure_writes_nothing demoStringify
           RelayConnectionDemo.unreachableConnection ["12D3KooWRelay"]
           "particle" (newError "dial timeout") false);
    reflexivity.
Defined.

End RelayConnectionMore.

(** ** Starting and stopping *)

Section StartStopFacts.
Context {MS JS CS : Type}.
Context `{!IMarineHost MS} `{!IJsServiceHost JS} `{!IConnection CS}.
Context `{!Externals}.

Local Abbreviation Peer := (FluencePeer MS JS CS).

(** X6: when [marineHost.start()] fails, [start()] fails with the same
    error before anything else is done: the particle source is not
    subscribed to, the connection is not started, and [isInitialized]
    keeps its value. *)
Theorem start_stops_at_marine_failure (p : Peer) e m1 :
  marine_start (marineHost p) = (Threw e, m1) ->
  exists p' : Peer,
    start p = (Threw e, p')
    ∧ trace p' = trace p ++ [MarineStart]
    ∧ isInitialized p' = isInitialized p
    ∧ _particleSourceSubscription p' = _particleSourceSubscription p
    ∧ connection p' = connection p
    ∧ _incomingParticles p' = _incomingParticles p.
Proof.
  intros Hm. unfold start, _startParticleProcessing. eff_unfold.
  destruct (debug_printParticleId (config p)); cbn; rewrite Hm; cbn;
    (eexists; split; [reflexivity|]; cbn; repeat split; reflexivity).
Qed.

(** On an initialized peer [initiateParticle] gives the particle to the
    queue, with no call result and the callbacks of the caller, and writes
    the particle id to the console exactly when [printParticleId] is
    set. *)
Lemma initiateParticle_on_initialized_peer (p : Peer) part onS onE :
  isInitialized p = true ->
  initiateParticle part onS onE p
  = (Returned tt,
     set_incomingParticles
       (_incomingParticles p ++ [mkQueueItem part [] onS onE])
       (set_trace
          (trace p
           ++ (if printParticleId p
               then [ConsoleLog "Particle id: " (Particle.id part)] else [])
           ++ [IncomingNext (mkQueueItem part [] onS onE)])
          p)).
Proof.
  intros Hinit. unfold initiateParticle. eff_unfold. rewrite Hinit. cbn.
  destruct (printParticleId p); cbn.
  - rewrite <- app_assoc. reflexivity.
  - reflexivity.
Qed.

(** X7: when [connection.start()] fails, [start()] fails with the same
    error, but the peer stays as the steps before left it: subscribed to
    the particle source and with [isInitialized] true, so that
    [initiateParticle] accepts particles on it. *)
Theorem start_failing_at_connection_leaves_peer_initialized
    (p : Peer) m1 c1 e c2 part onS onE :
  marine_start (marineHost p) = (Returned tt, m1) ->
  conn_subscribe (connection p) = (Returned tt, c1) ->
  conn_start c1 = (Threw e, c2) ->
  exists p' : Peer,
    start p = (Threw e, p')
    ∧ isInitialized p' = true
    ∧ _particleSourceSubscription p' = true
    ∧ trace p' = trace p ++ [MarineStart; ConnectionSubscribe;
                             AssignIsInitialized true; ConnectionStart]
    ∧ exists p'' : Peer,
        initiateParticle part onS onE p' = (Returned tt, p'')
        ∧ _incomingParticles p''
          = _incomingParticles p ++ [mkQueueItem part [] onS onE].
Proof.
  intros Hm Hs Hc.
  assert (Hstart : exists p' : Peer,
             start p = (Threw e, p')
             ∧ isInitialized p' = true
             ∧ _particleSourceSubscription p' = true
             ∧ trace p' = trace p ++ [MarineStart; ConnectionSubscribe;
                                      AssignIsInitialized true; ConnectionStart]
             ∧ _incomingParticles p' = _incomingParticles p).
  { unfold start, _startParticleProcessing. eff_unfold.
    destruct (debug_printParticleId (config p)); cbn;
      rewrite Hm; cbn; rewrite Hs; cbn; rewrite Hc; cbn;
      (eexists; split; [reflexivity|]; cbn;
       repeat rewrite <- app_assoc; cbn; repeat split; reflexivity). }
  destruct Hstart as (p' & Hrun & Hinit & Hsub & Htr & Hq).
  exists p'. repeat split; try assumption.
  eexists. split.
  - apply initiateParticle_on_initialized_peer, Hinit.
  - cbn. rewrite Hq. reflexivity.
Qed.

Lemma clear_all_timeouts (ts : list (ParticleQueueItem * Z)) :
  forall (p : Peer) (d : Teardown),
    forEach ts clearTimeout (p, d)
    = (Returned tt,
       (p, mkTeardown (unsubscribed d) (incomingCompleted d)
             (clearedTimeouts d ++ ts))).
Proof.
  induction ts as [|t ts IH]; intros p d.
  - cbn. rewrite app_nil_r. destruct d; reflexivity.
  - cbn [forEach]. unfold bind, clearTimeout at 1, onTeardown, modify. cbn.
    rewrite IH. cbn. rewrite <- app_assoc. reflexivity.
Qed.

(** X8: when the Marine host and the connection stop without error,
    [stop()] unsubscribes from the particle source if there is a
    subscription, completes [_incomingParticles], clears every timer of
    [_timeouts], stops the Marine host and then the connection, and only
    then sets [isInitialized] to false; [initiateParticle] throws on the
    peer it leaves. *)
Theorem stop_tears_down_then_clears_flag
    (p : Peer) (d : Teardown) m1 c1 part onS onE :
  marine_stop (marineHost p) = (Returned tt, m1) ->
  conn_stop (connection p) = (Returned tt, c1) ->
  exists p' : Peer,
    stop (p, d)
    = (Returned tt,
       (p', mkTeardown (unsubscribed d || _particleSourceSubscription p) true
              (clearedTimeouts d ++ _timeouts p)))
    ∧ trace p' = trace p ++ [MarineStop; ConnectionStop;
                             AssignIsInitialized false]
    ∧ isInitialized p' = false
    ∧ marineHost p' = m1
    ∧ connection p' = c1
    ∧ initiateParticle part onS onE p'
      = (Threw (newError "Cannot initiate new particle: peer is not initialized"),
         p').
Proof.
  intros Hm Hc. unfold stop, _stopParticleProcessing, onTeardown, onPeer.
  eff_unfold. cbn [fst snd].
  destruct (_particleSourceSubscription p); cbn [fst snd];
    rewrite clear_all_timeouts; cbn; rewrite Hm; cbn; rewrite Hc; cbn;
    rewrite ?orb_true_r, ?orb_false_r;
    (eexists; split; [reflexivity|]; cbn;
     repeat rewrite <- app_assoc; repeat split; reflexivity).
Qed.

(** X9: when [marineHost.stop()] fails, [stop()] fails with the same
    error after it has completed [_incomingParticles] and cleared the
    timers: the connection is not stopped and [isInitialized] keeps its
    value. When [connection.stop()] fails, the Marine host is stopped and
    [isInitialized] keeps its value as well. *)
Theorem stop_failure_keeps_flag (p : Peer) (d : Teardown) :
  (forall e m1,
     marine_stop (marineHost p) = (Threw e, m1) ->
     exists p' : Peer,
       stop (p, d)
       = (Threw e,
          (p', mkTeardown (unsubscribed d || _particleSourceSubscription p)
                 true (clearedTimeouts d ++ _timeouts p)))
       ∧ trace p' = trace p ++ [MarineStop]
       ∧ connection p' = connection p
       ∧ isInitialized p' = isInitialized p)
  ∧ (forall m1 e c1,
       marine_stop (marineHost p) = (Returned tt, m1) ->
       conn_stop (connection p) = (Threw e, c1) ->
       exists p' : Peer,
         stop (p, d)
         = (Threw e,
            (p', mkTeardown (unsubscribed d || _particleSourceSubscription p)
                   true (clearedTimeouts d ++ _timeouts p)))
         ∧ trace p' = trace p ++ [MarineStop; ConnectionStop]
         ∧ marineHost p' = m1
         ∧ isInitialized p' = isInitialized p).
Proof.
  split.
  - intros e m1 Hm. unfold stop, _stopParticleProcessing, onTeardown, onPeer.
    eff_unfold. cbn [fst snd].
    destruct (_particleSourceSubscription p); cbn [fst snd];
      rewrite clear_all_timeouts; cbn; rewrite Hm; cbn;
      rewrite ?orb_true_r, ?orb_false_r;
      (eexists; split; [reflexivity|]; cbn; repeat split; reflexivity).
  - intros m1 e c1 Hm Hc.
    unfold stop, _stopParticleProcessing, onTeardown, onPeer.
    eff_unfold. cbn [fst snd].
    destruct (_particleSourceSubscription p); cbn [fst snd];
      rewrite clear_all_timeouts; cbn; rewrite Hm; cbn; rewrite Hc; cbn;
      rewrite ?orb_true_r, ?orb_false_r;
      (eexists; split; [reflexivity|]; cbn;
       repeat rewrite <- app_assoc; repeat split; reflexivity).
Qed.

End StartStopFacts.

Lemma start_marine_failure_witness :
  exists p' : FluencePeer Faulty.Marine JsServiceHost.t Faulty.Connection,
    start (Faulty.peerOver (Faulty.mkMarine true false) Faulty.soundConnection)
    = (Threw (newError "marine: start failed"), p')
    ∧ trace p' = [] ++ [MarineStart]
    ∧ isInitialized p' = false
    ∧ _particleSourceSubscription p' = false
    ∧ connection p' = Faulty.soundConnection
    ∧ _incomingParticles p' = [].
Proof.
  apply (start_stops_at_marine_failure
           (Faulty.peerOver (Faulty.mkMarine true false) Faulty.soundConnection)
           (newError "marine: start failed") (Faulty.mkMarine true false)).
  reflexivity.
Defined.

Lemma start_connection_failure_witness :
  exists p' : FluencePeer Faulty.Marine JsServiceHost.t Faulty.Connection,
    start (Faulty.peerOver (Faulty.mkMarine false false)
             (Faulty.mkConnection true false false None))
    = (Threw (newError "connection: start failed"), p')
    ∧ isInitialized p' = true
    ∧ _particleSourceSubscription p' = true
    ∧ trace p' = [] ++ [MarineStart; ConnectionSubscribe;
                        AssignIsInitialized true; ConnectionStart]
    ∧ exists p'' : FluencePeer Faulty.Marine JsServiceHost.t Faulty.Connection,
        initiateParticle Demo.someParticle NoopSuccess NoopError p'
        = (Returned tt, p'')
        ∧ _incomingParticles p''
          = [] ++ [mkQueueItem Demo.someParticle [] NoopSuccess NoopError].
Proof.
  apply (start_failing_at_connection_leaves_peer_initialized
           (Faulty.peerOver (Faulty.mkMarine false false)
              (Faulty.mkConnection true false false None))
           (Faulty.mkMarine false false)
           (Faulty.mkConnection true false false None)
           (newError "connection: start failed")
           (Faulty.mkConnection true false false None));
    reflexivity.
Defined.

Lemma stop_witness :
  exists p' : FluencePeer Faulty.Marine JsServiceHost.t Faulty.Connection,
    stop (Faulty.runningPeer (Faulty.mkMarine false false)
            Faulty.soundConnection, noTeardown)
    = (Returned tt,
       (p', mkTeardown (false || true) true
              ([] ++ [(Demo.someItem, 6900); (Demo.staleItem, 10)])))
    ∧ trace p' = [] ++ [MarineStop; ConnectionStop; AssignIsInitialized false]
    ∧ isInitialized p' = false
    ∧ marineHost p' = Faulty.mkMarine false false
    ∧ connection p' = Faulty.soundConnection
    ∧ initiateParticle Demo.someParticle NoopSuccess NoopError p'
      = (Threw (newError "Cannot initiate new particle: peer is not initialized"),
         p').
Proof.
  apply (stop_tears_down_then_clears_flag
           (Faulty.runningPeer (Faulty.mkMarine false false)
              Faulty.soundConnection)
           noTeardown (Faulty.mkMarine false false) Faulty.soundConnection);
    reflexivity.
Defined.

Lemma stop_failure_witness :
  (exists p' : FluencePeer Faulty.Marine JsServiceHost.t Faulty.Connection,
     stop (Faulty.runningPeer (Faulty.mkMarine false true)
             Faulty.soundConnection, noTeardown)
     = (Threw (newError "marine: stop failed"),
        (p', mkTeardown (false || true) true
               ([] ++ [(Demo.someItem, 6900); (Demo.staleItem, 10)])))
     ∧ trace p' = [] ++ [MarineStop]
     ∧ connection p' = Faulty.soundConnection
     ∧ isInitialized p' = true)
  ∧ (exists p' : FluencePeer Faulty.Marine JsServiceHost.t Faulty.Connection,
       stop (Faulty.runningPeer (Faulty.mkMarine false false)
               (Faulty.mkConnection false true false None), noTeardown)
       = (Threw (newError "connection: stop failed"),
          (p', mkTeardown (false || true) true
                 ([] ++ [(Demo.someItem, 6900); (Demo.staleItem, 10)])))
       ∧ trace p' = [] ++ [MarineStop; ConnectionStop]
       ∧ marineHost p' = Faulty.mkMarine false false
       ∧ isInitialized p' = true).
Proof.
  split.
  - apply (proj1 (stop_failure_keeps_flag
                    (Faulty.runningPeer (Faulty.mkMarine false true)
                       Faulty.soundConnection) noTeardown)
             (newError "marine: stop failed") (Faulty.mkMarine false true)).
    reflexivity.
  - apply (proj2 (stop_failure_keeps_flag
                    (Faulty.runningPeer (Faulty.mkMarine false false)
                       (Faulty.mkConnection false true false None))
                    noTeardown)
             (Faulty.mkMarine false false) (newError "connection: stop failed")
             (Faulty.mkConnection false true false None));
      reflexivity.
Defined.

(** ** What a computation adds to the trace *)

Section EmitsOnly.
Context {MS JS CS : Type}.

Local Abbreviation Peer := (FluencePeer MS JS CS).

Lemma emitsOnly_silent {A} (P : Effect -> bool) (c : Eff Peer A) :
  (forall p, trace (snd (c p)) = trace p) -> emitsOnly P c.
Proof.
  intros Hc p. exists []. rewrite app_nil_r. split; [apply Hc | constructor].
Qed.

Lemma emitsOnly_ret {A} P (a : A) : emitsOnly (MS:=MS) (JS:=JS) (CS:=CS) P (ret a).
Proof. apply emitsOnly_silent. reflexivity. Qed.

Lemma emitsOnly_throw {A} P e :
  emitsOnly (MS:=MS) (JS:=JS) (CS:=CS) (A:=A) P (throw e).
Proof. apply emitsOnly_silent. reflexivity. Qed.

Lemma emitsOnly_emit (P : Effect -> bool) e :
  P e = true -> emitsOnly (MS:=MS) (JS:=JS) (CS:=CS) P (emit e).
Proof.
  intros He p. exists [e]. split; [reflexivity|]. constructor; [exact He|constructor].
Qed.

Lemma emitsOnly_bind {A B} P (c : Eff Peer A) (k : A -> Eff Peer B) :
  emitsOnly P c -> (forall a, emitsOnly P (k a)) -> emitsOnly P (bind c k).
Proof.
  intros Hc Hk p. unfold bind.
  destruct (Hc p) as (n1 & Ht1 & Hf1).
  destruct (c p) as [[a | e] p1]; cbn in *.
  - destruct (Hk a p1) as (n2 & Ht2 & Hf2).
    exists (n1 ++ n2). rewrite Ht2, Ht1, app_assoc.
    split; [reflexivity | apply Forall_app; split; assumption].
  - exists n1. split; assumption.
Qed.

Lemma emitsOnly_tryCatch {A} P (c : Eff Peer A) (h : Thrown -> Eff Peer A) :
  emitsOnly P c -> (forall e, emitsOnly P (h e)) -> emitsOnly P (tryCatch c h).
Proof.
  intros Hc Hh p. unfold tryCatch.
  destruct (Hc p) as (n1 & Ht1 & Hf1).
  destruct (c p) as [[a | e] p1]; cbn in *.
  - exists n1. split; assumption.
  - destruct (Hh e p1) as (n2 & Ht2 & Hf2).
    exists (n1 ++ n2). rewrite Ht2, Ht1, app_assoc.
    split; [reflexivity | apply Forall_app; split; assumption].
Qed.

Lemma emitsOnly_forEach {A} P (xs : list A) (body : A -> Eff Peer unit) :
  (forall x, emitsOnly P (body x)) -> emitsOnly P (forEach xs body).
Proof.
  intros Hb. induction xs as [|x xs IH]; cbn.
  - apply emitsOnly_ret.
  - apply emitsOnly_bind; [apply Hb | intros _; exact IH].
Qed.

Lemma emitsOnly_weaken {A} (P Q : Effect -> bool) (c : Eff Peer A) :
  (forall e, P e = true -> Q e = true) -> emitsOnly P c -> emitsOnly Q c.
Proof.
  intros Hpq Hc p. destruct (Hc p) as (n & Ht & Hf).
  exists n. split; [exact Ht|]. eapply Forall_impl; [exact Hf | exact Hpq].
Qed.

End EmitsOnly.

Section EmitsOnlyHosts.
Context {MS JS CS : Type}.
Context `{!IMarineHost MS} `{!IJsServiceHost JS} `{!IConnection CS}.
Context `{!Externals}.

Local Abbreviation Peer := (FluencePeer MS JS CS).

Lemma emitsOnly_callMarine {A} (P : Effect -> bool) e (op : Eff MS A) :
  P e = true -> emitsOnly (JS:=JS) (CS:=CS) P (callMarine e op).
Proof.
  intros He p. exists [e]. unfold callMarine. eff_unfold. cbn.
  destruct (op (marineHost p)) as [o m]. cbn.
  split; [reflexivity|]. constructor; [exact He | constructor].
Qed.

Lemma emitsOnly_callJsHost {A} (P : Effect -> bool) e (op : Eff JS A) :
  P e = true -> emitsOnly (MS:=MS) (CS:=CS) P (callJsHost e op).
Proof.
  intros He p. exists [e]. unfold callJsHost. eff_unfold. cbn.
  destruct (op (jsServiceHost p)) as [o j]. cbn.
  split; [reflexivity|]. constructor; [exact He | constructor].
Qed.

Lemma emitsOnly_callConnection {A} (P : Effect -> bool) e (op : Eff CS A) :
  P e = true -> emitsOnly (MS:=MS) (JS:=JS) P (callConnection e op).
Proof.
  intros He p. exists [e]. unfold callConnection. eff_unfold. cbn.
  destruct (op (connection p)) as [o c]. cbn.
  split; [reflexivity|]. constructor; [exact He | constructor].
Qed.

Lemma emitsOnly_execCallRequest (req : CallServiceData) :
  emitsOnly (MS:=MS) (JS:=JS) (CS:=CS) callEffect (execCallRequest req).
Proof.
  unfold execCallRequest, _execSingleCallRequest.
  apply emitsOnly_tryCatch; [|intros e; apply emitsOnly_ret].
  apply emitsOnly_bind; [apply emitsOnly_callMarine; reflexivity|].
  intros [].
  - apply emitsOnly_bind; [apply emitsOnly_callMarine; reflexivity|].
    intros v. apply emitsOnly_ret.
  - apply emitsOnly_bind; [apply emitsOnly_callJsHost; reflexivity|].
    intros [r|]; apply emitsOnly_ret.
Qed.

Lemma emitsOnly_incomingNext P item :
  P (IncomingNext item) = true ->
  emitsOnly (MS:=MS) (JS:=JS) (CS:=CS) P (incomingNext item).
Proof.
  intros He p. exists [IncomingNext item]. split; [reflexivity|].
  constructor; [exact He | constructor].
Qed.

Lemma emitsOnly_handleCallRequest (it : InterpretedItem) entry :
  emitsOnly (MS:=MS) (JS:=JS) (CS:=CS) callEffect (handleCallRequest it entry).
Proof.
  unfold handleCallRequest, onCallRequestDone.
  apply emitsOnly_bind; [apply emitsOnly_execCallRequest|].
  intros res. destruct (isResponseCall _).
  - apply emitsOnly_ret.
  - apply emitsOnly_incomingNext. reflexivity.
Qed.

Lemma emitsOnly_sendFurther (it : InterpretedItem) r :
  emitsOnly (MS:=MS) (JS:=JS) (CS:=CS) dispatchEffect (sendFurther it r).
Proof.
  unfold sendFurther.
  apply emitsOnly_tryCatch.
  - apply emitsOnly_callConnection. reflexivity.
  - intros e. apply emitsOnly_emit. reflexivity.
Qed.

Lemma emitsOnly_dispatch (it : InterpretedItem) :
  emitsOnly (MS:=MS) (JS:=JS) (CS:=CS) dispatchEffect (dispatch it).
Proof.
  unfold dispatch.
  apply emitsOnly_bind; [apply emitsOnly_silent; reflexivity|].
  intros init. destruct (negb init); [apply emitsOnly_ret|].
  destruct (result it) as [r | e].
  - destruct (negb (retCode r =? 0)).
    + apply emitsOnly_emit. reflexivity.
    + apply emitsOnly_bind.
      * destruct (0 <? length (nextPeerPks r))%nat;
          [apply emitsOnly_sendFurther | apply emitsOnly_ret].
      * intros _. destruct (0 <? length (callRequests r))%nat;
          [|apply emitsOnly_ret].
        apply emitsOnly_forEach. intros entry.
        eapply emitsOnly_weaken; [|apply emitsOnly_handleCallRequest].
        intros e He. destruct e; try discriminate He; reflexivity.
  - apply emitsOnly_emit. reflexivity.
Qed.

End EmitsOnlyHosts.

(** ** The pipeline as a whole *)

Section PipelineFacts.
Context {MS JS CS : Type}.
Context `{!IMarineHost MS} `{!IJsServiceHost JS} `{!IConnection CS}.
Context `{!Externals}.

Local Abbreviation Peer := (FluencePeer MS JS CS).

Lemma emitsOnly_hasExpired P part :
  emitsOnly (MS:=MS) (JS:=JS) (CS:=CS) P (hasExpired part).
Proof. apply emitsOnly_silent. reflexivity. Qed.

Lemma emitsOnly_expireParticle (item : ParticleQueueItem) :
  emitsOnly (MS:=MS) (JS:=JS) (CS:=CS) pipelineEffect (_expireParticle item).
Proof.
  unfold _expireParticle.
  apply emitsOnly_bind; [apply emitsOnly_callJsHost; reflexivity|].
  intros _. apply emitsOnly_emit. reflexivity.
Qed.

Lemma emitsOnly_filterExpiredParticles {T} (toItem : T -> ParticleQueueItem) x :
  emitsOnly (MS:=MS) (JS:=JS) (CS:=CS) pipelineEffect
    (filterExpiredParticles toItem (fun y => _expireParticle (toItem y)) x).
Proof.
  unfold filterExpiredParticles.
  apply emitsOnly_bind; [apply emitsOnly_hasExpired|]. intros expired.
  apply emitsOnly_bind.
  { destruct expired; [apply emitsOnly_expireParticle | apply emitsOnly_ret]. }
  intros _. apply emitsOnly_bind; [apply emitsOnly_hasExpired|].
  intros expired'. apply emitsOnly_ret.
Qed.

Lemma emitsOnly_interpretItem g item :
  emitsOnly (MS:=MS) (JS:=JS) (CS:=CS) pipelineEffect (interpretItem g item).
Proof.
  unfold interpretItem.
  apply emitsOnly_bind.
  { destruct (firstRun g); [|apply emitsOnly_ret].
    apply emitsOnly_bind; [apply emitsOnly_silent; reflexivity|]. intros delay.
    apply emitsOnly_bind; [apply emitsOnly_emit; reflexivity|]. intros _.
    apply emitsOnly_bind; [apply emitsOnly_silent; reflexivity|]. intros _.
    apply emitsOnly_ret. }
  intros g1. apply emitsOnly_bind; [apply emitsOnly_silent; reflexivity|].
  intros init. destruct (negb init); [apply emitsOnly_ret|].
  apply emitsOnly_bind; [apply emitsOnly_silent; reflexivity|]. intros kp.
  apply emitsOnly_bind; [|intros r; apply emitsOnly_ret].
  unfold invokeAvm. apply emitsOnly_tryCatch; [|intros e; apply emitsOnly_ret].
  apply emitsOnly_bind; [apply emitsOnly_callMarine; reflexivity|]. intros res.
  apply emitsOnly_bind; [apply emitsOnly_silent; reflexivity|]. intros r.
  apply emitsOnly_ret.
Qed.

Lemma pipelineEffect_of_dispatchEffect e :
  dispatchEffect e = true -> pipelineEffect e = true.
Proof. destruct e; cbn; intros He; try discriminate He; reflexivity. Qed.

Lemma emitsOnly_processItem g item :
  emitsOnly (MS:=MS) (JS:=JS) (CS:=CS) pipelineEffect (processItem g item).
Proof.
  unfold processItem.
  apply emitsOnly_bind; [apply (emitsOnly_filterExpiredParticles (fun i => i))|].
  intros [item'|]; [|apply emitsOnly_ret].
  apply emitsOnly_bind; [apply emitsOnly_interpretItem|]. intros r.
  apply emitsOnly_bind; [|intros _; apply emitsOnly_ret].
  unfold afterInterpretation. destruct (snd r) as [it|]; [|apply emitsOnly_ret].
  apply emitsOnly_bind; [apply (emitsOnly_filterExpiredParticles queueItem)|].
  intros [it'|]; [|apply emitsOnly_ret].
  eapply emitsOnly_weaken; [apply pipelineEffect_of_dispatchEffect|].
  apply emitsOnly_dispatch.
Qed.

(** X10: whatever the Marine host, the JS service host and the
    connection do, and whether it ends normally or not, the passage of an
    item through the pipeline only adds to the trace, and what it adds
    are timers, removals of particle-scope handlers, calls of the
    interpreter and of services, sends, calls of [onError] and items given
    back to the queue. In particular the pipeline never calls the
    [onSuccess] of an item and never writes [isInitialized]. *)
Theorem pipeline_never_calls_onSuccess
    (g : GroupState) (item : ParticleQueueItem) (p : Peer) :
  exists new,
    trace (snd (processItem g item p)) = trace p ++ new
    ∧ Forall (fun e => pipelineEffect e = true) new
    ∧ Forall (fun e => isCallOnSuccess e = false) new
    ∧ Forall (fun e => forall b, e ≠ AssignIsInitialized b) new.
Proof.
  destruct (emitsOnly_processItem g item p) as (new & Htr & Hall).
  exists new. repeat split; try assumption.
  - eapply Forall_impl; [exact Hall|].
    intros e He. destruct e; try discriminate He; reflexivity.
  - eapply Forall_impl; [exact Hall|].
    intros e He b ->. discriminate He.
Qed.

(** The sending of the particle to the next peers always comes back, and
    the queue and the flag are as before. *)
Lemma sendStep (it : InterpretedItem) (r : InterpreterResult) (p : Peer) :
  exists p1 : Peer,
    (if (0 <? length (nextPeerPks r))%nat then sendFurther it r else ret tt) p
    = (Returned tt, p1)
    ∧ trace p1 = trace p ++ sendPart it r (connection p)
    ∧ _incomingParticles p1 = _incomingParticles p
    ∧ isInitialized p1 = isInitialized p.
Proof.
  unfold sendPart. destruct (nextPeerPks r) as [|n ns] eqn:Hn; cbn.
  - exists p. rewrite app_nil_r. repeat split; reflexivity.
  - unfold sendFurther. eff_unfold. cbn. rewrite Hn.
    destruct (conn_sendParticle _ _ _) as [[[] | e] c1]; cbn;
      (eexists; split; [reflexivity|]; cbn; rewrite <- ?app_assoc;
       repeat split; reflexivity).
Qed.

(** The execution of one call request always comes back; it gives one
    item to the queue unless the request was the response call. *)
Lemma callStep (it : InterpretedItem) (entry : Z * CallRequest) (p : Peer) :
  exists (res : CallServiceResult) (p1 : Peer),
    handleCallRequest it entry p = (Returned tt, p1)
    ∧ _incomingParticles p1
      = _incomingParticles p
        ++ (if comesBack it entry then [resultItem it entry res] else [])
    ∧ isInitialized p1 = isInitialized p.
Proof.
  destruct (execCallRequest_returns (requestOf it (snd entry)) p)
    as (res & p0 & Hexec & Hq).
  assert (Hflag : isInitialized p0 = isInitialized p).
  { revert Hexec. unfold execCallRequest, _execSingleCallRequest.
    eff_unfold. cbn.
    destruct (marine_hasService _ _) as [[[] | e] m1]; cbn.
    - destruct (marine_callService _ _ _ _) as [[v | e] m2]; cbn;
        intros [= <- <-]; reflexivity.
    - destruct (js_callService _ _) as [[[r0 |] | e] j1]; cbn;
        intros [= <- <-]; reflexivity.
    - intros [= <- <-]. reflexivity. }
  exists res. unfold handleCallRequest, comesBack, resultItem.
  rewrite (bind_returned _ _ _ _ _ Hexec). unfold onCallRequestDone.
  destruct (isResponseCall _); cbn.
  - exists p0. rewrite app_nil_r. repeat split; assumption.
  - eff_unfold. cbn. eexists. split; [reflexivity|]. cbn.
    rewrite Hq. split; [reflexivity | exact Hflag].
Qed.

Lemma callLoop (it : InterpretedItem) (crs : list (Z * CallRequest)) :
  forall p : Peer,
  exists (results : list CallServiceResult) (p1 : Peer),
    forEach crs (handleCallRequest it) p = (Returned tt, p1)
    ∧ length results = length (filter (fun e => comesBack it e = true) crs)
    ∧ _incomingParticles p1
      = _incomingParticles p
        ++ zip_with (resultItem it)
             (filter (fun e => comesBack it e = true) crs) results
    ∧ isInitialized p1 = isInitialized p.
Proof.
  induction crs as [|entry crs IH]; intros p.
  - exists [], p. cbn. rewrite app_nil_r. repeat split; reflexivity.
  - destruct (callStep it entry p) as (res & p0 & Hstep & Hq0 & Hf0).
    destruct (IH p0) as (results & p1 & Hloop & Hlen & Hq1 & Hf1).
    cbn [forEach]. rewrite (bind_returned _ _ _ _ _ Hstep).
    rewrite filter_cons. destruct (comesBack it entry) eqn:Hback.
    + rewrite decide_True by reflexivity.
      exists (res :: results), p1. split; [exact Hloop|]. cbn.
      split; [congruence|]. rewrite Hq1, Hq0, <- app_assoc.
      split; [reflexivity | congruence].
    + rewrite decide_False by discriminate.
      exists results, p1. split; [exact Hloop|].
      split; [exact Hlen|]. rewrite Hq1, Hq0, app_nil_r.
      split; [reflexivity | congruence].
Qed.

(** X11: no failure of the connection, of the Marine host or of the JS
    service host makes the dispatch of an item fail: the stage always
    ends normally, with [isInitialized] as it found it; what goes wrong
    is told to [onError] or fed back to the interpreter as a call
    result. *)
Theorem dispatch_never_throws (it : InterpretedItem) (p : Peer) :
  exists p' : Peer,
    dispatch it p = (Returned tt, p')
    ∧ isInitialized p' = isInitialized p.
Proof.
  unfold dispatch. unfold bind at 1, gets at 1.
  destruct (isInitialized p) eqn:Hinit; cbn [negb].
  2: { exists p. split; [reflexivity | exact Hinit]. }
  destruct (result it) as [r | e].
  - destruct (negb (retCode r =? 0)).
    + eexists. split; [reflexivity|]. exact Hinit.
    + destruct (sendStep it r p) as (p1 & Hsend & _ & _ & Hf1).
      rewrite (bind_returned _ _ _ _ _ Hsend).
      destruct (callLoop it (callRequests r) p1) as (rs & p2 & Hloop & _ & _ & Hf2).
      destruct (callRequests r) as [|c cs]; cbn [length Nat.ltb Nat.leb].
      * exists p1. split; [reflexivity | congruence].
      * exists p2. split; [exact Hloop | congruence].
  - eexists. split; [reflexivity|]. exact Hinit.
Qed.


End PipelineFacts.


(** The sends and the calls of [onError] of that dispatch: one send to
    the relay, which fails, and one [SendError]; the call of the service
    nobody has is not reported to [onError]. *)
Example sends_and_errors_of_mute_dispatch :
  filter (fun e => isSendParticle e || isCallOnError e = true)
    (trace (snd (dispatch DemoDispatch.forwardedItem DemoDispatch.mutePeer)))
  = [ConnectionSendParticle ["12D3KooWRelay"]
       (Particle.cloneWithNewData Demo.someParticle (list_byte_of_string "D"));
     CallOnError (CallerError 1)
       (mkError SendError
          "Could not send particle: (particle id: particle-7, message: connection: send failed)")].
Proof. vm_compute. reflexivity. Qed.

(** ** The interpretation stage: timers, a stopped peer, a crash *)

Section InterpretationMore.
Context {MS JS CS : Type}.
Context `{!IMarineHost MS} `{!IJsServiceHost JS} `{!IConnection CS}.
Context `{!Externals}.

Local Abbreviation Peer := (FluencePeer MS JS CS).

(** The call of the interpreter changes the Marine host and the trace,
    and nothing else. *)
Lemma invokeAvm_frame (a : AvmInvokeArgs) (p : Peer) :
  exists r m,
    invokeAvm a p
    = (Returned r,
       set_marineHost m
         (set_trace
            (trace p ++ [MarineCallService "avm" "invoke" (serializeAvmArgs a)])
            p))
    ∧ (forall e m', marine_callService "avm" "invoke" (serializeAvmArgs a)
                      (marineHost p) = (Threw e, m') ->
                    r = AvmError (asError e))
    ∧ (forall v m' e, marine_callService "avm" "invoke" (serializeAvmArgs a)
                        (marineHost p) = (Returned v, m') ->
                      deserializeAvmResult v = Threw e ->
                      r = AvmError (asError e))
    ∧ (forall v m' ir, marine_callService "avm" "invoke" (serializeAvmArgs a)
                         (marineHost p) = (Returned v, m') ->
                       deserializeAvmResult v = Returned ir ->
                       r = AvmResult ir).
Proof.
  unfold invokeAvm. eff_unfold. cbn.
  destruct (marine_callService _ _ _ _) as [[v | e] m1]; cbn.
  - destruct (deserializeAvmResult v) as [ir | e] eqn:Hd; cbn;
      (eexists; eexists; split; [reflexivity|]);
      (split; [intros ? ? [=]|]); (split; intros ? ? ? [= <- <-]; congruence).
  - eexists; eexists; split; [reflexivity|].
    split; [intros ? ? [= <- <-]; reflexivity|].
    split; intros ? ? ? [=].
Qed.

(** One run of the body of [concatMap], with the timer it arms. *)
Lemma interpretItem_timer (g : GroupState) (item : ParticleQueueItem) (p : Peer) :
  exists g1 o (p' : Peer),
    interpretItem g item p = (Returned (g1, o), p')
    ∧ firstRun g1 = false
    ∧ _timeouts p'
      = _timeouts p
        ++ (if firstRun g
            then [(item, Particle.getActualTTLAt (dateNow p (clockReads p))
                           (particle item))]
            else [])
    ∧ (isInitialized p = false -> o = None ∧ prevData g1 = prevData g
                                  ∧ marineHost p' = marineHost p
                                  ∧ Forall (fun e => isMarineCall e = false)
                                      (drop (length (trace p)) (trace p')))
    ∧ isInitialized p' = isInitialized p.
Proof.
  unfold interpretItem, getActualTTL.
  destruct (firstRun g) eqn:Hfirst; eff_unfold; cbn;
    destruct (isInitialized p) eqn:Hinit; cbn.
  - match goal with
    | |- context [invokeAvm ?a ?q] =>
        destruct (invokeAvm_frame a q) as (r & m & Hrun & _)
    end.
    cbn in Hrun. rewrite Hrun. cbn.
    eexists _, _, _. split; [reflexivity|]. cbn.
    split; [destruct r as [ir|]; cbn; [destruct (retCode ir =? 0)|]; reflexivity|].
    split; [reflexivity|]. split; [discriminate | exact Hinit].
  - eexists _, _, _. split; [reflexivity|]. cbn.
    split; [reflexivity|]. split; [reflexivity|]. split; [|exact Hinit].
    intros _. repeat split.
    rewrite drop_app_length. repeat constructor.
  - match goal with
    | |- context [invokeAvm ?a ?q] =>
        destruct (invokeAvm_frame a q) as (r & m & Hrun & _)
    end.
    cbn in Hrun. rewrite Hrun. cbn.
    eexists _, _, _. split; [reflexivity|]. cbn.
    split; [destruct r as [ir|]; cbn; [destruct (retCode ir =? 0)|];
            cbn; exact Hfirst|].
    split; [rewrite app_nil_r; reflexivity|]. split; [discriminate | exact Hinit].
  - eexists _, _, _. split; [reflexivity|]. cbn.
    split; [exact Hfirst|]. split; [rewrite app_nil_r; reflexivity|].
    split; [|exact Hinit].
    intros _. repeat split. rewrite drop_all. constructor.
Qed.

(** Items of a group that is past its first run arm no timer. *)
Lemma runGroup_after_first_run (items : list ParticleQueueItem) :
  forall (g : GroupState) (p : Peer),
    firstRun g = false ->
    exists g' outs (p' : Peer),
      runGroup g items p = (Returned (g', outs), p')
      ∧ firstRun g' = false
      ∧ _timeouts p' = _timeouts p.
Proof.
  induction items as [|item rest IH]; intros g p Hg.
  - exists g, [], p. repeat split; assumption.
  - destruct (interpretItem_timer g item p)
      as (g1 & o & p1 & Hstep & Hf1 & Ht1 & _).
    destruct (IH g1 p1 Hf1) as (g2 & outs & p2 & Hrun & Hf2 & Ht2).
    exists g2, (o :: outs), p2. cbn [runGroup].
    rewrite (bind_returned _ _ _ _ _ Hstep). cbn [fst snd].
    rewrite (bind_returned _ _ _ _ _ Hrun). split; [reflexivity|].
    split; [exact Hf2|]. rewrite Ht2, Ht1, Hg, app_nil_r. reflexivity.
Qed.

(** X14: a signature group arms one timer in all: the first item that
    comes to it arms a timer for the time to live that is left to its
    particle on the clock, whether the peer is running or stopped, and no
    later item of the group arms another. *)
Theorem group_arms_one_timer
    (item : ParticleQueueItem) (rest : list ParticleQueueItem) (p : Peer) :
  exists g' outs (p' : Peer),
    runGroup newGroup (item :: rest) p = (Returned (g', outs), p')
    ∧ _timeouts p'
      = _timeouts p
        ++ [(item, Particle.getActualTTLAt (dateNow p (clockReads p))
                     (particle item))]
    ∧ firstRun g' = false
    ∧ forall more : list ParticleQueueItem,
        _timeouts (snd (runGroup g' more p')) = _timeouts p'.
Proof.
  destruct (interpretItem_timer newGroup item p)
    as (g1 & o & p1 & Hstep & Hf1 & Ht1 & _).
  destruct (runGroup_after_first_run rest g1 p1 Hf1)
    as (g2 & outs & p2 & Hrun & Hf2 & Ht2).
  exists g2, (o :: outs), p2. cbn [runGroup].
  rewrite (bind_returned _ _ _ _ _ Hstep). cbn [fst snd].
  rewrite (bind_returned _ _ _ _ _ Hrun). split; [reflexivity|].
  split; [rewrite Ht2, Ht1; reflexivity|]. split; [exact Hf2|].
  intros more.
  destruct (runGroup_after_first_run more g2 p2 Hf2)
    as (g3 & outs3 & p3 & Hrun3 & _ & Ht3).
  rewrite Hrun3. exact Ht3.
Qed.

(** X15: on a stopped peer the interpretation stage lets no item
    through and does not call the Marine host: every item of the group
    gets [null], the interpreter is not invoked, and the group's
    [prevData] stays what it was. *)
Theorem stopped_peer_interprets_nothing
    (g : GroupState) (items : list ParticleQueueItem) (p : Peer) :
  isInitialized p = false ->
  exists g' (p' : Peer),
    runGroup g items p = (Returned (g', replicate (length items) None), p')
    ∧ prevData g' = prevData g
    ∧ marineHost p' = marineHost p
    ∧ avmInvocations (drop (length (trace p)) (trace p')) = []
    ∧ isInitialized p' = false.
Proof.
  revert g p. induction items as [|item rest IH]; intros g p Hstop.
  - exists g, p. cbn. rewrite drop_all. repeat split; try reflexivity.
    exact Hstop.
  - destruct (interpretItem_step g item p)
      as (g1 & o & p1 & new1 & Hstep & Htr1 & Hi1 & _ & Ho).
    destruct (interpretItem_timer g item p)
      as (g1' & o' & p1' & Hstep' & _ & _ & Hstopped & _).
    rewrite Hstep in Hstep'. injection Hstep' as <- <- <-.
    destruct (Hstopped Hstop) as (-> & Hprev & Hm1 & _).
    destruct Ho as (_ & Hinv1 & _).
    assert (Hstop1 : isInitialized p1 = false) by congruence.
    destruct (IH g1 p1 Hstop1) as (g2 & p2 & Hrun & Hprev2 & Hm2 & Hinv2 & Hi2).
    exists g2, p2. cbn [runGroup length replicate].
    rewrite (bind_returned _ _ _ _ _ Hstep). cbn [fst snd].
    rewrite (bind_returned _ _ _ _ _ Hrun).
    split; [reflexivity|]. split; [congruence|]. split; [congruence|].
    split; [|exact Hi2].
    destruct (runGroup_threaded rest g1 p1)
      as (g2' & outs' & p2' & new2 & Hrun' & Htr2 & _).
    rewrite Hrun in Hrun'. injection Hrun' as <- <- <-.
    rewrite Htr2, Htr1 in *. rewrite drop_app_length in Hinv2.
    rewrite <- app_assoc, drop_app_length, avmInvocations_app.
    rewrite Hinv1, Hinv2. reflexivity.
Qed.

(** An expiration filter lets a particle through that has not expired at
    either of its two looks at the clock. *)
Lemma filterExpiredParticles_live {T : Type}
    (toItem : T -> ParticleQueueItem) (onExpiration : T -> Eff Peer unit)
    (x : T) (p : Peer) :
  Particle.hasExpiredAt (dateNow p (clockReads p)) (particle (toItem x))
    = false ->
  Particle.hasExpiredAt (dateNow p (S (clockReads p))) (particle (toItem x))
    = false ->
  filterExpiredParticles toItem onExpiration x p
  = (Returned (Some x), set_clockReads (S (S (clockReads p))) p).
Proof.
  intros H1 H2. unfold filterExpiredParticles, hasExpired. eff_unfold. cbn.
  rewrite H1. cbn. rewrite H2. reflexivity.
Qed.

(** The interpretation of an item on a running peer whose interpreter
    call throws. *)
Lemma interpretItem_crash (g : GroupState) (item : ParticleQueueItem)
    (p : Peer) e m1 :
  isInitialized p = true ->
  marine_callService "avm" "invoke"
    (serializeAvmArgs (avmArgsOf (keyPair p) (prevData g) item)) (marineHost p)
    = (Threw e, m1) ->
  exists g1 (p1 : Peer),
    interpretItem g item p
    = (Returned (g1, Some (mkInterpretedItem item (AvmError (asError e)))), p1)
    ∧ prevData g1 = prevData g
    ∧ trace p1
      = trace p
        ++ (if firstRun g
            then [SetTimeout item
                    (Particle.getActualTTLAt (dateNow p (clockReads p))
                       (particle item))]
            else [])
        ++ [MarineCallService "avm" "invoke"
              (serializeAvmArgs (avmArgsOf (keyPair p) (prevData g) item))]
    ∧ isInitialized p1 = true
    ∧ dateNow p1 = dateNow p
    ∧ clockReads p1 = (if firstRun g then S (clockReads p) else clockReads p)
    ∧ _incomingParticles p1 = _incomingParticles p
    ∧ connection p1 = connection p
    ∧ marineHost p1 = m1.
Proof.
  intros Hinit Hcall. unfold interpretItem, getActualTTL, invokeAvm.
  eff_unfold.
  destruct (firstRun g) eqn:Hfirst; cbn -[avmArgsOf]; rewrite Hinit;
    cbn -[avmArgsOf]; rewrite Hcall; cbn -[avmArgsOf];
    (eexists _, _; split; [reflexivity|]; cbn -[avmArgsOf];
     rewrite <- ?app_assoc; repeat split; try reflexivity; exact Hinit).
Qed.

(** X16: when the call of the interpreter throws, on a running peer
    and for a particle that does not expire meanwhile, the item goes on
    through the pipeline, which ends normally: the group's [prevData] is
    untouched, the item's [onError] is called once with an
    [InterpreterError] that carries the message of what was thrown and the
    particle id, nothing is sent and nothing comes back to the queue. *)
Theorem interpreter_crash_is_reported_to_onError
    (g : GroupState) (item : ParticleQueueItem) (p : Peer) e m1 :
  isInitialized p = true ->
  (forall k, (k <= 4)%nat ->
     Particle.hasExpiredAt (dateNow p (clockReads p + k)) (particle item)
     = false) ->
  marine_callService "avm" "invoke"
    (serializeAvmArgs (avmArgsOf (keyPair p) (prevData g) item)) (marineHost p)
    = (Threw e, m1) ->
  exists g1 (p' : Peer) timer,
    processItem g item p = (Returned g1, p')
    ∧ prevData g1 = prevData g
    ∧ trace p'
      = trace p ++ timer
        ++ [MarineCallService "avm" "invoke"
              (serializeAvmArgs (avmArgsOf (keyPair p) (prevData g) item));
            CallOnError (onError item)
              (mkError InterpreterError
                 ("Script interpretation failed: " +:+ message (asError e)
                  +:+ "  (particle id: " +:+ Particle.id (particle item)
                  +:+ ")"))]
    ∧ timer = (if firstRun g
               then [SetTimeout item
                       (Particle.getActualTTLAt
                          (dateNow p (S (S (clockReads p)))) (particle item))]
               else [])
    ∧ _incomingParticles p' = _incomingParticles p
    ∧ connection p' = connection p
    ∧ marineHost p' = m1.
Proof.
  intros Hinit Hlive Hcall.
  assert (Hat : forall n, (clockReads p <= n <= clockReads p + 4)%nat ->
                          Particle.hasExpiredAt (dateNow p n) (particle item)
                          = false).
  { intros n Hn. replace n with (clockReads p + (n - clockReads p))%nat by lia.
    apply Hlive. lia. }
  unfold processItem.
  rewrite (bind_returned _ _ _ _ _
             (filterExpiredParticles_live (fun i => i) _expireParticle item p
                (Hat (clockReads p) ltac:(lia))
                (Hat (S (clockReads p)) ltac:(lia)))).
  set (p0 := set_clockReads (S (S (clockReads p))) p).
  destruct (interpretItem_crash g item p0 e m1 Hinit Hcall)
    as (g1 & p1 & Hstep & Hprev & Htr & Hi1 & Hd1 & Hc1 & Hq1 & Hconn1 & Hm1).
  rewrite (bind_returned _ _ _ _ _ Hstep). cbn [fst snd].
  unfold afterInterpretation.
  subst p0. cbn [trace dateNow clockReads keyPair _incomingParticles
                   connection set_clockReads] in *.
  assert (Hlive1 : forall n, (clockReads p1 <= n <= S (clockReads p1))%nat ->
             Particle.hasExpiredAt (dateNow p1 n)
               (particle (queueItem (mkInterpretedItem item
                                       (AvmError (asError e))))) = false).
  { intros n Hn. rewrite Hd1. apply Hat. rewrite Hc1 in Hn.
    destruct (firstRun g); lia. }
  unfold bind at 1.
  rewrite (bind_returned _ _ _ _ _
             (filterExpiredParticles_live queueItem
                (fun i => _expireParticle (queueItem i)) _ p1
                (Hlive1 (clockReads p1) ltac:(lia))
                (Hlive1 (S (clockReads p1)) ltac:(lia)))).
  rewrite (dispatch_failure_on_running_peer _ _ (message (asError e)));
    [|exact Hi1 | left; eexists; split; reflexivity].
  exists g1. eexists.
  exists (if firstRun g
          then [SetTimeout item
                  (Particle.getActualTTLAt (dateNow p (S (S (clockReads p))))
                     (particle item))]
          else []).
  split; [reflexivity|].
  cbn [trace dateNow clockReads keyPair _incomingParticles connection
         marineHost set_clockReads set_trace].
  split; [exact Hprev|]. split.
  { rewrite Htr, <- !app_assoc. reflexivity. }
  repeat split; assumption.
Qed.

End InterpretationMore.

Lemma stopped_peer_witness :
  exists g' (p' : FluencePeer Demo.Marine JsServiceHost.t Demo.Connection),
    runGroup newGroup DemoRun.fiveItems
      (Demo.peerOver (Demo.mkMarine [] DemoRun.interpreterAnswers false)
         (JsServiceHost.empty "12D3KooWRelay"))
    = (Returned (g', replicate (length DemoRun.fiveItems) None), p')
    ∧ prevData g' = prevData newGroup
    ∧ marineHost p' = Demo.mkMarine [] DemoRun.interpreterAnswers false
    ∧ avmInvocations
        (drop (length (trace (Demo.peerOver
                                (Demo.mkMarine [] DemoRun.interpreterAnswers false)
                                (JsServiceHost.empty "12D3KooWRelay"))))
           (trace p')) = []
    ∧ isInitialized p' = false.
Proof.
  apply (stopped_peer_interprets_nothing newGroup DemoRun.fiveItems
           (Demo.peerOver (Demo.mkMarine [] DemoRun.interpreterAnswers false)
              (JsServiceHost.empty "12D3KooWRelay"))).
  reflexivity.
Defined.

Lemma interpreter_crash_witness :
  exists g1 (p' : FluencePeer Demo.Marine JsServiceHost.t Demo.Connection) timer,
    processItem newGroup Demo.someItem DemoCalls.crashingPeer
    = (Returned g1, p')
    ∧ prevData g1 = prevData newGroup
    ∧ trace p'
      = trace DemoCalls.crashingPeer ++ timer
        ++ [MarineCallService "avm" "invoke"
              (serializeAvmArgs
                 (avmArgsOf (keyPair DemoCalls.crashingPeer)
                    (prevData newGroup) Demo.someItem));
            CallOnError (onError Demo.someItem)
              (mkError InterpreterError
                 ("Script interpretation failed: "
                  +:+ message (asError (newError "boom"))
                  +:+ "  (particle id: "
                  +:+ Particle.id (particle Demo.someItem) +:+ ")"))]
    ∧ timer = (if firstRun newGroup
               then [SetTimeout Demo.someItem
                       (Particle.getActualTTLAt
                          (dateNow DemoCalls.crashingPeer
                             (S (S (clockReads DemoCalls.crashingPeer))))
                          (particle Demo.someItem))]
               else [])
    ∧ _incomingParticles p' = _incomingParticles DemoCalls.crashingPeer
    ∧ connection p' = connection DemoCalls.crashingPeer
    ∧ marineHost p' = Demo.mkMarine [] [] true.
Proof.
  apply (interpreter_crash_is_reported_to_onError newGroup Demo.someItem
           DemoCalls.crashingPeer (newError "boom") (Demo.mkMarine [] [] true)).
  - reflexivity.
  - intros k Hk. unfold Particle.hasExpiredAt. apply Z.ltb_ge.
    change (dateNow DemoCalls.crashingPeer
              (clockReads DemoCalls.crashingPeer + k))
      with (1000 + Z.of_nat k).
    change (Particle.timestamp (particle Demo.someItem)) with 900.
    change (Particle.ttl (particle Demo.someItem)) with 7000. lia.
  - reflexivity.
Defined.

(** ** [callAquaFunction] from the call to the queue *)

Section CallFunctionMore.
Context {MS JS CS : Type}.
Context `{!IMarineHost MS} `{!IJsServiceHost JS} `{!IConnection CS}.
Context `{!Externals}.

Local Abbreviation Peer := (FluencePeer MS JS CS).

(** [createNewParticle] reads the clock once and changes nothing else. *)
Lemma createNewParticle_run scr ttl (p : Peer) :
  createNewParticle scr ttl p
  = (Particle_createNew scr (getPeerId (keyPair p))
       (default (defaultTtlMs (config p)) ttl) (keyPair p)
       (dateNow p (clockReads p)),
     set_clockReads (S (clockReads p)) p).
Proof. reflexivity. Qed.






(** X19: when the particle cannot be created, [callAquaFunction] fails
    with the error of [Particle.createNew] before it creates a promise or
    registers anything: but for the read of the clock the peer is as it
    was. *)
Theorem callAquaFunction_fails_with_createNew
    (p : Peer) scr cfg args fireAndForget e :
  Particle_createNew scr (getPeerId (keyPair p))
    (default (defaultTtlMs (config p))
       (cfgTtl (default (mkCallAquaFunctionConfig None) cfg)))
    (keyPair p) (dateNow p (clockReads p)) = Threw e ->
  callAquaFunction scr cfg args fireAndForget p
  = (Threw e, set_clockReads (S (clockReads p)) p).
Proof.
  intros Hnew. unfold callAquaFunction. cbv zeta. unfold bind at 1.
  rewrite createNewParticle_run, Hnew. reflexivity.
Qed.

End CallFunctionMore.


(** The registrations of that call: the function is fire-and-forget, so
    no [callbackSrv.response] is among them. *)
Example registrations_of_fire_and_forget_call :
  registrationsOf
    (Particle.mkParticle "particle-1" "12D3KooWClient" 1000 7000 "(null)" [] [])
    DemoCalls.demoArgs true 0
  = [JsRegisterParticleScopeHandler "particle-1" "getDataSrv" "x"
       (InjectValue (JNumber 42));
     JsRegisterParticleScopeHandler "particle-1" "callbackSrv" "onEvent"
       (UserHandler DemoCalls.echo);
     JsRegisterParticleScopeHandler "particle-1" "getDataSrv" "-relay-"
       InjectRelay;
     JsRegisterParticleScopeHandler "particle-1" "errorHandlingSrv" "error"
       (ErrorHandlingHandler (PromiseReject 0))].
Proof. reflexivity. Qed.


(** The handlers of the rejected call are still in the scope of its
    particle. *)
Example handlers_left_by_rejected_call :
  let r := callAquaFunction "(null)" None DemoCalls.demoArgs None
             Demo.freshPeer in
  (JsServiceHost.particleHandlers (jsServiceHost (snd r)) !! "particle-1")
    ≫= (fun scope => scope !! ("getDataSrv", "x"))
  = Some (InjectValue (JNumber 42)).
Proof. vm_compute. reflexivity. Qed.

Lemma callAquaFunction_createNew_failure_witness :
  callAquaFunction (H := Strict.externals) "(null)" None DemoCalls.demoArgs
    None DemoCalls.servingPeer
  = (Threw (newError "key pair cannot sign"),
     set_clockReads (S (clockReads DemoCalls.servingPeer))
       DemoCalls.servingPeer).
Proof.
  exact (callAquaFunction_fails_with_createNew (H := Strict.externals)
           DemoCalls.servingPeer "(null)" None DemoCalls.demoArgs None
           (newError "key pair cannot sign") eq_refl).
Defined.

(** ** [parseAst] *)

Section ParseAstFacts.
Context {MS JS CS : Type}.
Context `{!IMarineHost MS} `{!IJsServiceHost JS} `{!IConnection CS}.
Context `{!Externals}.

Local Abbreviation Peer := (FluencePeer MS JS CS).

(** X20: when the interpreter answers the call [avm.ast], the outcome of
    [parseAst] follows from the answer alone. An answer that is not a
    string makes it throw the error that quotes the answer; a string that
    starts with [error] is returned as it is, with [success] false, and is
    not parsed; any other string is parsed, and the parsed value is
    returned with [success] true, or, when [JSON.parse] throws, the error
    thrown quotes the answer and the message of that failure. The call of
    the Marine host is all that happens to the peer. *)
Theorem parseAst_outcome_follows_answer (air : string) (p : Peer) res m1 :
  marine_callService "avm" "ast" (JsonArgs [JString air]) (marineHost p)
    = (Returned res, m1) ->
  snd (parseAst air p)
    = set_marineHost m1
        (set_trace
           (trace p ++ [MarineCallService "avm" "ast" (JsonArgs [JString air])])
           p)
  ∧ match fst (parseAst air p) with
    | Returned r =>
        exists s, res = JString s
          ∧ (if String.prefix "error" s
             then r = mkParseAstResult false res
             else exists v,
                    JSON_parse s = Returned v ∧ r = mkParseAstResult true v)
    | Threw e =>
        match res with
        | JString s =>
            String.prefix "error" s = false
            ∧ exists err,
                JSON_parse s = Threw err
                ∧ e = newError ("Failed to call avm. Result: " +:+ s
                                +:+ ". Error: " +:+ getErrorMessage err)
        | _ =>
            e = newError
                  ("Call to avm:ast expected to return string. Actual return: "
                   +:+ JSON_stringify res)
        end
    end.
Proof.
  intros Hcall. unfold parseAst. eff_unfold.
  destruct (isInitialized p); cbn [negb fst snd];
    cbn -[String.prefix]; rewrite Hcall; cbn -[String.prefix];
    (destruct res as [| b | z | s | items | fields]; cbn -[String.prefix];
     try (split; reflexivity);
     destruct (String.prefix "error" s) eqn:Hpre; cbn -[String.prefix];
     [ split; [reflexivity|]; exists s; rewrite Hpre; split; reflexivity
     | destruct (JSON_parse s) as [v | err] eqn:Hparse; cbn -[String.prefix];
       [ split; [reflexivity|]; exists s; rewrite Hpre; split; [reflexivity|];
         exists v; split; first [reflexivity | exact Hparse]
       | split; [reflexivity|]; split; [reflexivity|];
         exists err; split; first [reflexivity | exact Hparse] ] ]).
Qed.

End ParseAstFacts.

Lemma parseAst_answer_witness :
  snd (parseAst (H := Strict.externals) "(nul" (Strict.answering (JString "error: unexpected end")))
    = set_marineHost (Demo.mkMarine [] [] true)
        (set_trace
           (trace (Strict.answering (JString "error: unexpected end"))
            ++ [MarineCallService "avm" "ast" (JsonArgs [JString "(nul"])])
           (Strict.answering (JString "error: unexpected end")))
  ∧ match fst (parseAst (H := Strict.externals) "(nul"
                 (Strict.answering (JString "error: unexpected end"))) with
    | Returned r =>
        exists s, JString "error: unexpected end" = JString s
          ∧ (if String.prefix "error" s
             then r = mkParseAstResult false (JString "error: unexpected end")
             else exists v,
                    JSON_parse (Externals := Strict.externals) s = Returned v
                    ∧ r = mkParseAstResult true v)
    | Threw e =>
        String.prefix "error" "error: unexpected end" = false
        ∧ exists err,
            JSON_parse (Externals := Strict.externals) "error: unexpected end"
              = Threw err
            ∧ e = newError ("Failed to call avm. Result: "
                            +:+ "error: unexpected end"
                            +:+ ". Error: "
                            +:+ getErrorMessage (Externals := Strict.externals)
                                  err)
    end.
Proof.
  exact (parseAst_outcome_follows_answer (H := Strict.externals) "(nul"
           (Strict.answering (JString "error: unexpected end"))
           (JString "error: unexpected end") (Demo.mkMarine [] [] true)
           eq_refl).
Defined.

(** The three kinds of answer on the demonstration peer. *)
Example parseAst_of_error_answer :
  fst (parseAst (H := Strict.externals) "(nul"
         (Strict.answering (JString "error: unexpected end")))
  = Returned (mkParseAstResult false (JString "error: unexpected end")).
Proof. vm_compute. reflexivity. Qed.

Example parseAst_of_parsed_answer :
  fst (parseAst (H := Strict.externals) "(null)"
         (Strict.answering (JString "null")))
  = Returned (mkParseAstResult true JNull).
Proof. vm_compute. reflexivity. Qed.

Example parseAst_of_unparsable_answer :
  fst (parseAst (H := Strict.externals) "(null)"
         (Strict.answering (JString "{oops")))
  = Threw (newError ("Failed to call avm. Result: {oops. Error: "
                     +:+ "Unexpected token in JSON: {oops")).
Proof. vm_compute. reflexivity. Qed.

Example parseAst_of_answer_that_is_no_string :
  fst (parseAst (H := Strict.externals) "(null)"
         (Strict.answering (JNumber 7)))
  = Threw (newError
             "Call to avm:ast expected to return string. Actual return: 7").
Proof. vm_compute. reflexivity. Qed.

(** ** The entry points of the compiled code *)

Module ApiV5Facts.
Import ApiV5.

Section Facts.
Context {Schema : Type} `{!Conversions Schema}.

Lemma fieldOf_setField_fresh {A} k (v : A) fields :
  k ∉ map fst fields -> setField k v fields = fields ++ [(k, v)].
Proof.
  induction fields as [|[k' v'] rest IH]; intros Hk; [reflexivity|].
  cbn in *. apply not_elem_of_cons in Hk as [Hne Hk].
  destruct (String.eqb_spec k k') as [->|_]; [contradiction|].
  rewrite IH by exact Hk. reflexivity.
Qed.

Lemma fold_setField_fresh {A} (entries acc : list (string * A)) :
  NoDup (map fst (acc ++ entries)) ->
  fold_left (fun o e => setField (fst e) (snd e) o) entries acc
  = acc ++ entries.
Proof.
  revert acc. induction entries as [|[k v] rest IH]; intros acc Hnd.
  - cbn. rewrite app_nil_r. reflexivity.
  - cbn [fold_left fst snd].
    assert (Hk : k ∉ map fst acc).
    { rewrite map_app in Hnd. apply NoDup_app in Hnd as (_ & Hdis & _).
      intros Hin. apply (Hdis k Hin). cbn. apply list_elem_of_here. }
    rewrite fieldOf_setField_fresh by exact Hk.
    rewrite IH; rewrite <- app_assoc; [reflexivity | exact Hnd].
Qed.

(** [Object.fromEntries] of entries with distinct keys is the object
    with these entries, in their order. *)
Lemma Object_fromEntries_distinct {A} (entries : list (string * A)) :
  NoDup (map fst entries) -> Object_fromEntries entries = entries.
Proof. intros Hnd. apply (fold_setField_fresh entries []), Hnd. Qed.

Lemma mapThrowing_returned {A B} (f : A -> outcome B) xs ys :
  mapThrowing f xs = Returned ys -> Forall2 (fun x y => f x = Returned y) xs ys.
Proof.
  revert ys. induction xs as [|x rest IH]; intros ys Hrun; cbn in Hrun.
  - injection Hrun as <-. constructor.
  - destruct (f x) as [y|e] eqn:Hx; cbn in Hrun; [|discriminate].
    destruct (mapThrowing f rest) as [ys'|e] eqn:Hrest; cbn in Hrun;
      [|discriminate].
    injection Hrun as <-. constructor; [exact Hx | apply IH; reflexivity].
Qed.

Lemma convertArg_returned fields arg name entry :
  convertArg fields (arg, name) = Returned entry ->
  fst entry = name ∧ is_Some (fieldOf name fields).
Proof.
  unfold convertArg. destruct (fieldOf name fields) as [s|]; [|discriminate].
  intros Hrun. split; [|eexists; reflexivity].
  destruct (tagIsArrow s).
  - destruct (negb _); [discriminate|].
    destruct (wrapFunction _ _); cbn in Hrun; [|discriminate].
    injection Hrun as <-. reflexivity.
  - destruct (String.eqb _ _); [discriminate|].
    destruct (ts2aqua _ _); cbn in Hrun; [|discriminate].
    injection Hrun as <-. reflexivity.
Qed.

Lemma converted_names fields (pairs : list (JsValue * string)) entries :
  Forall2 (fun x y => convertArg fields x = Returned y) pairs entries ->
  map fst entries = map snd pairs
  ∧ Forall (fun k => is_Some (fieldOf k fields)) (map snd pairs).
Proof.
  induction 1 as [|[arg name] entry pairs entries Hx _ [IHn IHf]]; cbn.
  - split; [reflexivity | constructor].
  - destruct (convertArg_returned _ _ _ _ Hx) as [Hname Hfield].
    split; [rewrite Hname, IHn; reflexivity | constructor; assumption].
Qed.

Lemma removelast_shorter {A} (l : list A) :
  length (removelast l) = pred (length l).
Proof.
  induction l as [|x [|y rest] IH]; [reflexivity | reflexivity |].
  change (removelast (x :: y :: rest)) with (x :: removelast (y :: rest)).
  cbn [length]. rewrite IH. reflexivity.
Qed.

Lemma zip_names_all (args : list JsValue) (names : list string) :
  (length names <= length args)%nat ->
  map snd (zip (take (length names) args) names) = names.
Proof.
  intros Hlen. rewrite snd_zip; [reflexivity|].
  rewrite length_take. lia.
Qed.

(** The argument of [callAquaFunction], when [v5_callFunction] gets that
    far. *)
Lemma v5_callFunction_inversion dc args def script call rs :
  v5_callFunction dc args def script = Returned (call, rs) ->
  exists peer rest entries,
    choosePeer dc args = (Some peer, rest)
    ∧ (length (arrowKeys def) < length rest)%nat
    ∧ isAquaConfig (List.last rest VUndefined) = true
    ∧ mapThrowing
        (convertArg match domain def with
                    | DomainNil => []
                    | DomainFields fields => fields
                    end)
        (zip (take (length (arrowKeys def)) (removelast rest)) (arrowKeys def))
      = Returned entries
    ∧ call = mkCallAquaFunctionArgs script peer (Object_fromEntries entries)
               (List.last rest VUndefined)
               match codomain def with
               | CodomainNil => true
               | CodomainItems items => (length items =? 0)%nat
               end.
Proof.
  unfold v5_callFunction.
  destruct (choosePeer dc args) as [[peer|] rest]; [|discriminate].
  destruct (length (arrowKeys def) <? length rest)%nat eqn:Hlt.
  - unfold pop. destruct (isAquaConfig (List.last rest VUndefined)) eqn:Hcfg;
      cbn [negb]; [|discriminate].
    destruct (mapThrowing _ _) as [entries|e] eqn:Hmap; cbn [andThen];
      [|discriminate].
    intros Hrun. injection Hrun as <- _.
    exists peer, rest, entries. apply Nat.ltb_lt in Hlt.
    repeat split; try assumption; reflexivity.
  - cbn. discriminate.
Qed.

(** X21: with a client at hand, [v5_callFunction] throws [Config should
    be object type] whenever the caller passes, beside the peer, no more
    arguments than [def.arrow] has keys: no argument is taken for the
    configuration then, and [undefined] is not accepted as one. *)
Theorem v5_callFunction_without_config_argument_throws
    dc args (def : FunctionCallDef Schema) script peer rest :
  choosePeer dc args = (Some peer, rest) ->
  (length rest <= length (arrowKeys def))%nat ->
  v5_callFunction dc args def script
  = Threw (newError "Config should be object type").
Proof.
  intros Hpeer Hlen. unfold v5_callFunction. rewrite Hpeer.
  destruct (length (arrowKeys def) <? length rest)%nat eqn:Hlt.
  - apply Nat.ltb_lt in Hlt. lia.
  - reflexivity.
Qed.

(** X22: when [v5_callFunction] gets to call [callAquaFunction], the
    caller has passed, beside the peer, more arguments than [def.arrow]
    has keys; the last of them is the configuration, an object that is
    neither [null] nor an array and whose [ttl] is absent or a number; the
    arguments of the call are named by the keys of [def.arrow], one for
    each key and in their order, and each of these keys is the name of a
    field of the domain. *)
Theorem v5_callFunction_call_is_shaped_by_arrow_keys
    dc args (def : FunctionCallDef Schema) script call rs :
  NoDup (arrowKeys def) ->
  v5_callFunction dc args def script = Returned (call, rs) ->
  let rest := snd (choosePeer dc args) in
  fst (choosePeer dc args) = Some (caPeer call)
  ∧ (length (arrowKeys def) < length rest)%nat
  ∧ caConfig call = List.last rest VUndefined
  ∧ isAquaConfig (caConfig call) = true
  ∧ map fst (caArgs call) = arrowKeys def
  ∧ Forall (fun k => is_Some (fieldOf k match domain def with
                                        | DomainNil => []
                                        | DomainFields fields => fields
                                        end))
      (arrowKeys def).
Proof.
  intros Hnd Hrun rest.
  destruct (v5_callFunction_inversion _ _ _ _ _ _ Hrun)
    as (peer & rest' & entries & Hpeer & Hlen & Hcfg & Hmap & ->).
  subst rest. rewrite Hpeer. cbn [fst snd caPeer caConfig caArgs].
  apply mapThrowing_returned, converted_names in Hmap as [Hnames Hfields].
  assert (Hall : (length (arrowKeys def) <= length (removelast rest'))%nat)
    by (rewrite removelast_shorter; lia).
  rewrite zip_names_all in Hnames, Hfields by exact Hall.
  repeat split; try assumption; try reflexivity.
  rewrite Object_fromEntries_distinct; [exact Hnames|].
  rewrite Hnames. exact Hnd.
Qed.

(** The service id and the peer of the call of [registerService], when
    [v5_registerService] gets that far. *)
Lemma v5_registerService_inversion dc args (def : ServiceDef Schema) r :
  v5_registerService dc args def = Returned r ->
  exists rest,
    choosePeer dc (removelast args) = (Some (rsPeer r), rest)
    ∧ (if (length rest =? 2)%nat
       then nth 0 rest VUndefined = VJson (JString (rsServiceId r))
       else defaultServiceId def = Some (rsServiceId r)).
Proof.
  unfold v5_registerService, pop.
  destruct (choosePeer dc (removelast args)) as [[peer|] rest];
    [|discriminate].
  intros Hrun. exists rest.
  assert (Hsid : forall o : outcome (option string),
             andThen o
               (fun serviceId =>
                  match serviceId with
                  | None => Threw (newError "Service ID is not provided")
                  | Some serviceId =>
                      andThen (Object_entries (List.last args VUndefined))
                        (fun entries =>
                         andThen
                           (mapThrowing
                              (fun entry =>
                                 andThen
                                   (wrapFunction (snd entry)
                                      (fieldOf (fst entry)
                                         match functions def with
                                         | FunctionsNil => []
                                         | FunctionsFields fields => fields
                                         end))
                                   (fun wrapped =>
                                      Returned (fst entry, wrapped)))
                              entries)
                           (fun wrapped =>
                              Returned
                                (mkRegisterServiceArgs
                                   (Object_fromEntries wrapped) peer
                                   serviceId)))
                  end) = Returned r ->
             peer = rsPeer r ∧ o = Returned (Some (rsServiceId r))).
  { intros [[sid|]|e] Ho; cbn in Ho; try discriminate.
    destruct (Object_entries _); cbn in Ho; [|discriminate].
    destruct (mapThrowing _ _); cbn in Ho; [|discriminate].
    injection Ho as <-. split; reflexivity. }
  apply Hsid in Hrun as [-> Hid]. split; [reflexivity|].
  destruct (length rest =? 2)%nat.
  - destruct (nth 0 rest VUndefined) as [|[| | | s | |]| | |]; try discriminate.
    injection Hid as ->. reflexivity.
  - injection Hid as ->. reflexivity.
Qed.

(** X23: the service id under which [v5_registerService] registers is
    an argument of the caller only when exactly two arguments are left
    once the implementation, which is the last argument, and the peer are
    taken off: it is then the first of the two, a string. With any other
    number of arguments left it is [def.defaultServiceId]. The peer is the
    first argument when that is a peer, and the default client
    otherwise. *)
Theorem v5_registerService_service_id
    dc args (def : ServiceDef Schema) r :
  v5_registerService dc args def = Returned r ->
  let rest := snd (choosePeer dc (removelast args)) in
  fst (choosePeer dc (removelast args)) = Some (rsPeer r)
  ∧ ((length rest = 2%nat
      ∧ nth 0 rest VUndefined = VJson (JString (rsServiceId r)))
     ∨ (length rest ≠ 2%nat
        ∧ defaultServiceId def = Some (rsServiceId r))).
Proof.
  intros Hrun rest.
  destruct (v5_registerService_inversion _ _ _ _ Hrun) as (rest' & Hpeer & Hid).
  subst rest. rewrite Hpeer. cbn [fst snd]. split; [reflexivity|].
  destruct (length rest' =? 2)%nat eqn:Hlen.
  - left. apply Nat.eqb_eq in Hlen. split; assumption.
  - right. apply Nat.eqb_neq in Hlen. split; assumption.
Qed.

(** X24: a call of [v5_registerService] with a service id and an
    implementation, after the peer or without one, does not register
    under that id: with a client at hand it either throws or registers
    under [def.defaultServiceId], and it throws [Service ID is not
    provided] when the definition has no default. *)
Theorem v5_registerService_ignores_lone_service_id
    dc (first : list JsValue) (id : string) impl (def : ServiceDef Schema) peer :
  choosePeer dc (first ++ [VJson (JString id)])
    = (Some peer, [VJson (JString id)]) ->
  match v5_registerService dc (first ++ [VJson (JString id); impl]) def with
  | Returned r => defaultServiceId def = Some (rsServiceId r)
  | Threw e =>
      defaultServiceId def = None ->
      e = newError "Service ID is not provided"
  end.
Proof.
  intros Hpeer. unfold v5_registerService, pop.
  replace (first ++ [VJson (JString id); impl])
    with ((first ++ [VJson (JString id)]) ++ [impl])
    by (rewrite <- app_assoc; reflexivity).
  rewrite removelast_last, Hpeer. cbn [length Nat.eqb].
  destruct (defaultServiceId def) as [sid|]; cbn [andThen].
  - destruct (Object_entries _); cbn [andThen]; [|discriminate].
    destruct (mapThrowing _ _); cbn [andThen]; [reflexivity | discriminate].
  - reflexivity.
Qed.

End Facts.

End ApiV5Facts.

Lemma v5_callFunction_without_config_witness :
  ApiV5.v5_callFunction (Some 0%nat)
    [ApiV5.VPeer 4; ApiV5.VJson (JNumber 1); DemoV5.someConfig]
    DemoV5.oneArgument "(null)"
  = Threw (newError "Config should be object type").
Proof.
  apply (ApiV5Facts.v5_callFunction_without_config_argument_throws (Some 0%nat)
           [ApiV5.VPeer 4; ApiV5.VJson (JNumber 1); DemoV5.someConfig]
           DemoV5.oneArgument "(null)" 4%nat
           [ApiV5.VJson (JNumber 1); DemoV5.someConfig]).
  - reflexivity.
  - vm_compute. lia.
Defined.

Lemma v5_callFunction_call_witness :
  let rest :=
    snd (ApiV5.choosePeer (Some 0%nat)
           [ApiV5.VJson (JNumber 1); ApiV5.VJson (JNumber 2);
            ApiV5.VFunction DemoCalls.echo; DemoV5.someConfig]) in
  fst (ApiV5.choosePeer (Some 0%nat)
         [ApiV5.VJson (JNumber 1); ApiV5.VJson (JNumber 2);
          ApiV5.VFunction DemoCalls.echo; DemoV5.someConfig])
  = Some (ApiV5.caPeer DemoV5.keysCall)
  ∧ (length (ApiV5.arrowKeys DemoV5.keysAsFields) < length rest)%nat
  ∧ ApiV5.caConfig DemoV5.keysCall = List.last rest ApiV5.VUndefined
  ∧ ApiV5.isAquaConfig (ApiV5.caConfig DemoV5.keysCall) = true
  ∧ map fst (ApiV5.caArgs DemoV5.keysCall)
    = ApiV5.arrowKeys DemoV5.keysAsFields
  ∧ Forall
      (fun k =>
         is_Some
           (ApiV5.fieldOf k
              match ApiV5.domain DemoV5.keysAsFields with
              | ApiV5.DomainNil => []
              | ApiV5.DomainFields fields => fields
              end))
      (ApiV5.arrowKeys DemoV5.keysAsFields).
Proof.
  apply (ApiV5Facts.v5_callFunction_call_is_shaped_by_arrow_keys
           (Some 0%nat)
           [ApiV5.VJson (JNumber 1); ApiV5.VJson (JNumber 2);
            ApiV5.VFunction DemoCalls.echo; DemoV5.someConfig]
           DemoV5.keysAsFields "(null)" DemoV5.keysCall
           (ApiV5.CodomainSchema ApiV5.CodomainNil)).
  - apply (bool_decide_unpack _). vm_compute. exact I.
  - reflexivity.
Defined.

Lemma v5_registerService_service_id_witness :
  let rest :=
    snd (ApiV5.choosePeer None
           (removelast
              [ApiV5.VPeer 3; ApiV5.VJson (JString "my-sig");
               ApiV5.VJson JNull; DemoV5.sigImpl])) in
  fst (ApiV5.choosePeer None
         (removelast
            [ApiV5.VPeer 3; ApiV5.VJson (JString "my-sig");
             ApiV5.VJson JNull; DemoV5.sigImpl]))
  = Some (ApiV5.rsPeer DemoV5.sigRegistration)
  ∧ ((length rest = 2%nat
      ∧ nth 0 rest ApiV5.VUndefined
        = ApiV5.VJson (JString (ApiV5.rsServiceId DemoV5.sigRegistration)))
     ∨ (length rest ≠ 2%nat
        ∧ ApiV5.defaultServiceId DemoV5.sigDef
          = Some (ApiV5.rsServiceId DemoV5.sigRegistration))).
Proof.
  apply (ApiV5Facts.v5_registerService_service_id None
           [ApiV5.VPeer 3; ApiV5.VJson (JString "my-sig"); ApiV5.VJson JNull;
            DemoV5.sigImpl]
           DemoV5.sigDef DemoV5.sigRegistration).
  reflexivity.
Defined.

Lemma v5_registerService_lone_id_witness :
  match ApiV5.v5_registerService None
          ([ApiV5.VPeer 3] ++ [ApiV5.VJson (JString "my-sig"); DemoV5.sigImpl])
          DemoV5.sigDef with
  | Returned r => Some "sig" = Some (ApiV5.rsServiceId r)
  | Threw e => Some "sig" = None -> e = newError "Service ID is not provided"
  end.
Proof.
  apply (ApiV5Facts.v5_registerService_ignores_lone_service_id None
           [ApiV5.VPeer 3] "my-sig" DemoV5.sigImpl DemoV5.sigDef 3%nat).
  reflexivity.
Defined.

(** The two calls of the last demonstrations, and the same call for a
    definition without a default id. *)
Example registerService_under_given_id :
  ApiV5.v5_registerService None
    [ApiV5.VPeer 3; ApiV5.VJson (JString "my-sig"); ApiV5.VJson JNull;
     DemoV5.sigImpl]
    DemoV5.sigDef
  = Returned DemoV5.sigRegistration.
Proof. reflexivity. Qed.

Example registerService_under_default_id :
  ApiV5.v5_registerService None
    [ApiV5.VPeer 3; ApiV5.VJson (JString "my-sig"); DemoV5.sigImpl]
    DemoV5.sigDef
  = Returned
      (ApiV5.mkRegisterServiceArgs
         [("get_peer_id",
           ApiV5.VFunction (fun _ _ => Returned (JString "12D3KooWClient")))]
         3 "sig").
Proof. reflexivity. Qed.

Example registerService_without_default_id :
  ApiV5.v5_registerService (Some 0%nat)
    [ApiV5.VJson (JString "my-sig"); DemoV5.sigImpl] DemoV5.anonymousDef
  = Threw (newError "Service ID is not provided").
Proof. reflexivity. Qed.

(** ** RelayConnection: the incoming streams *)

Module RelayConnectionIncomingFacts.
Import RelayConnectionIncoming.

Section Facts.
Context {U : Type}.
Variable onIncomingParticle : string -> Eff U unit.
Variable String_of : Thrown -> string.

Lemma handlerCalls_app (a b : list StreamEffect) :
  handlerCalls (a ++ b) = handlerCalls a ++ handlerCalls b.
Proof. unfold handlerCalls. apply omap_app. Qed.

Lemma onMessage_run (msg : string) (r : Receiver U) :
  exists log,
    onMessage onIncomingParticle String_of msg r
    = (Returned tt,
       mkReceiver (snd (onIncomingParticle msg (owner r)))
         (seen r ++ HandlerCall msg :: log))
    ∧ handlerCalls log = []
    ∧ filter isLogDebug log = [].
Proof.
  unfold onMessage, callHandler, see. eff_unfold. cbn.
  destruct (onIncomingParticle msg (owner r)) as [[[]|e] u]; cbn.
  - exists []. repeat split.
  - eexists [_]. rewrite <- app_assoc. repeat split.
Qed.

Lemma messages_run (msgs : list string) :
  forall r : Receiver U,
  exists log,
    forEach msgs (onMessage onIncomingParticle String_of) r
    = (Returned tt,
       mkReceiver
         (fold_left (fun u m => snd (onIncomingParticle m u)) msgs (owner r))
         (seen r ++ log))
    ∧ handlerCalls log = msgs
    ∧ filter isLogDebug log = [].
Proof.
  induction msgs as [|m rest IH]; intros r.
  - exists []. cbn. rewrite app_nil_r. destruct r; repeat split.
  - destruct (onMessage_run m r) as (l1 & H1 & Hc1 & Hd1).
    destruct (IH (mkReceiver (snd (onIncomingParticle m (owner r)))
                    (seen r ++ HandlerCall m :: l1)))
      as (l2 & H2 & Hc2 & Hd2).
    exists (HandlerCall m :: l1 ++ l2).
    cbn [forEach]. rewrite (bind_returned _ _ _ _ _ H1), H2.
    cbn [owner seen fold_left]. rewrite <- app_assoc. cbn [app].
    split; [reflexivity|]. split.
    + change (HandlerCall m :: l1 ++ l2)
        with ([HandlerCall m] ++ l1 ++ l2).
      rewrite !handlerCalls_app, Hc1, Hc2. reflexivity.
    + change (HandlerCall m :: l1 ++ l2)
        with ([HandlerCall m] ++ l1 ++ l2).
      rewrite !filter_app, Hd1, Hd2. reflexivity.
Qed.

(** X25: the function that reads an incoming stream ends normally
    whatever the particle handler and the stream do. It calls the handler
    with every message the stream yields, in the order of arrival and each
    time on the state the call before left, also after calls that threw;
    and it logs that the connection is closed exactly when the stream
    ends with an error. *)
Theorem consume_hands_over_every_message (source : Source) (r : Receiver U) :
  exists log,
    consume onIncomingParticle String_of source r
    = (Returned tt,
       mkReceiver
         (fold_left (fun u m => snd (onIncomingParticle m u)) (yielded source)
            (owner r))
         (seen r ++ log))
    ∧ handlerCalls log = yielded source
    ∧ length (filter isLogDebug log)
      = match failure source with Some _ => 1%nat | None => 0%nat end.
Proof.
  destruct (messages_run (yielded source) r) as (log & Hrun & Hcalls & Hdebug).
  unfold consume.
  destruct (failure source) as [e|].
  - exists (log ++ [LogDebug ("connection closed: " +:+ String_of e)]).
    unfold tryCatch. rewrite (bind_returned _ _ _ _ _ Hrun).
    unfold throw, see, modify. cbn [owner seen]. rewrite <- app_assoc.
    split; [reflexivity|]. split.
    + rewrite handlerCalls_app, Hcalls. cbn. apply app_nil_r.
    + rewrite filter_app, Hdebug. reflexivity.
  - exists log. unfold tryCatch. rewrite (bind_returned _ _ _ _ _ Hrun).
    unfold ret. split; [reflexivity|]. split; [exact Hcalls|].
    rewrite Hdebug. reflexivity.
Qed.

End Facts.

End RelayConnectionIncomingFacts.

(** A stream of three messages that breaks, read with a handler that
    throws on the second. *)
Example consume_of_broken_stream :
  RelayConnectionIncoming.consume RelayConnectionIncoming.countingHandler
    RelayConnectionIncoming.demoString
    (RelayConnectionIncoming.mkSource ["p1"; "bad"; "p3"]
       (Some (newError "stream reset")))
    (RelayConnectionIncoming.mkReceiver 0%nat [])
  = (Returned tt,
     RelayConnectionIncoming.mkReceiver 3%nat
       [RelayConnectionIncoming.HandlerCall "p1";
        RelayConnectionIncoming.HandlerCall "bad";
        RelayConnectionIncoming.LogError
          "error on handling a new incoming message: Error: bad particle";
        RelayConnectionIncoming.HandlerCall "p3";
        RelayConnectionIncoming.LogDebug
          "connection closed: Error: stream reset"]).
Proof. reflexivity. Qed.

(** ** The call requests of a dispatched item, as they run *)

Section CallRequestsFacts.
Context {MS JS CS : Type}.
Context `{!IMarineHost MS} `{!IJsServiceHost JS} `{!IConnection CS}.
Context `{!Externals}.

Local Abbreviation Peer := (FluencePeer MS JS CS).











(** An execution that is resumed twice with nothing in between does
    what [_execSingleCallRequest] with its [.catch] and [.then] does when
    it is run in one go. *)
Lemma uninterrupted_execution (item : InterpretedItem)
    (entry : Z * CallRequest) (p : Peer) :
  runCallRequests item [entry] [0%nat; 0%nat] p
  = (Returned
       (mkExecutions []
          match fst (execCallRequest (requestOf item (snd entry)) p) with
          | Returned res => [(entry, res)]
          | Threw _ => []
          end),
     snd (handleCallRequest item entry p)).
Proof.
  destruct p as [cfg kp m j c q ts sub init pp pc dn cr tr].
  destruct entry as [key req].
  unfold runCallRequests, handleCallRequest, execCallRequest,
    _execSingleCallRequest, startCallRequests, resumeAll, startCallRequest,
    resume, advance, onCallRequestDone, incomingNext.
  unfold settled. eff_unfold. cbn.
  destruct (marine_hasService _ m) as [[[|]|e] m1]; cbn.
  - destruct (marine_callService _ _ _ m1) as [[r|e] m2]; cbn;
      destruct (isResponseCall _); reflexivity.
  - destruct (js_callService _ j) as [[[r|]|e] j1]; cbn;
      destruct (isResponseCall _); reflexivity.
  - destruct (isResponseCall _); reflexivity.
Qed.

End CallRequestsFacts.

(** The three call requests of [DemoDispatch.forwardedItem] on the
    serving peer: when the executions settle in the order of the requests
    the queue gets the result of key [2] before that of key [3], and when
    the third settles first it gets them the other way round. In both
    runs the three calls of [hasService] come first. *)
Example queue_follows_settlement_order :
  let run picks :=
    snd (runCallRequests DemoDispatch.forwardedItem
           (callRequests DemoDispatch.forwardedResult) picks
           DemoCalls.servingPeer) in
  let missing :=
    mkCallResult
      "No service found for service call: serviceId='nowhere', fnName='nope' args='[...]'"
      error in
  map callResults (_incomingParticles (run [0; 0; 0; 0; 0; 0]%nat))
  = [[(2, mkCallResult "42" success)]; [(3, missing)]]
  ∧ map callResults (_incomingParticles (run [2; 2; 1; 1; 0; 0]%nat))
    = [[(3, missing)]; [(2, mkCallResult "42" success)]]
  ∧ take 3 (drop (length (trace DemoCalls.servingPeer))
              (trace (run [2; 2; 1; 1; 0; 0]%nat)))
    = [MarineHasService "callbackSrv"; MarineHasService "getDataSrv";
       MarineHasService "nowhere"].
Proof. vm_compute. repeat split. Qed.
